(** * Document store and worker supervisor of the keep-alive bot (main.js)

    A shallow embedding of the JSON document store ([loadDb], [readDb],
    [writeDb], the [Users] / [Servers] / [Config] / [Versions] models,
    [reorderServers]) and of the worker lifecycle functions ([startBot],
    [startBedrockBot], [handleBotExit], [stopBot]) of [src/main.js].

    JS objects are finite maps from property names to values; a property
    that is absent reads as [undefined], which is [None] here.  Every
    access to the in-memory [db] goes through [readDb], whose
    [JSON.parse(JSON.stringify(..))] round trip erases properties holding
    [undefined]; the store below therefore keeps collections in that
    round-tripped form. *)

From stdpp Require Import gmap strings list fin_maps pretty sorting.
From Stdlib Require Import ZArith Lia Ascii.

Open Scope string_scope.
Open Scope Z_scope.

(** ** JSON values *)

(** Primitive JSON values.  Numbers are the integers the program stores
    (user ids, ports, protocol numbers, process ids). *)
Inductive prim : Type :=
  | PNull
  | PBool (b : bool)
  | PNum (n : Z)
  | PStr (s : string).

(** A property value: a primitive, or an array of primitives (the
    [requiredChannels] list of the configuration). *)
Inductive value : Type :=
  | VPrim (p : prim)
  | VArr (l : list prim).

#[global] Instance prim_eq_dec : EqDecision prim.
Proof. solve_decision. Defined.

#[global] Instance value_eq_dec : EqDecision value.
Proof. solve_decision. Defined.

Abbreviation VNull := (VPrim PNull).
Abbreviation VBool b := (VPrim (PBool b)).
Abbreviation VNum n := (VPrim (PNum n)).
Abbreviation VStr s := (VPrim (PStr s)).

(** A JS object, and the result of reading a property of it. *)
Abbreviation obj := (gmap string value).
Abbreviation jsval := (option value).

(** [a === b] between two property reads.  [undefined === undefined]
    holds; two arrays are never identical, since one of them always comes
    from the deep copy made by [readDb]. *)
Definition strict_eq (a b : jsval) : bool :=
  match a, b with
  | None, None => true
  | Some (VPrim p), Some (VPrim q) => bool_decide (p = q)
  | _, _ => false
  end.

(** JS truthiness of a property read. *)
Definition truthy (a : jsval) : bool :=
  match a with
  | None => false
  | Some (VPrim PNull) => false
  | Some (VPrim (PBool b)) => b
  | Some (VPrim (PNum n)) => negb (bool_decide (n = 0))
  | Some (VPrim (PStr s)) => negb (bool_decide (s = ""))
  | Some (VArr _) => true
  end.

(** [String(p)] for a primitive. *)
Definition prim_to_string (p : prim) : string :=
  match p with
  | PNull => "null"
  | PBool true => "true"
  | PBool false => "false"
  | PNum n => pretty n
  | PStr s => s
  end.

(** An element rendered by [Array.prototype.join]: [null] gives the empty
    string. *)
Definition join_elem (p : prim) : string :=
  match p with
  | PNull => ""
  | _ => prim_to_string p
  end.

Fixpoint join_comma (l : list prim) : string :=
  match l with
  | [] => ""
  | [p] => join_elem p
  | p :: rest => join_elem p +:+ "," +:+ join_comma rest
  end.

(** The property key a value is converted to when it indexes an object. *)
Definition to_property_key (a : jsval) : string :=
  match a with
  | None => "undefined"
  | Some (VPrim p) => prim_to_string p
  | Some (VArr l) => join_comma l
  end.

(** [Object.keys(query).every(key => r[key] === query[key])].  A query
    is an object literal; a property written with an [undefined] value is
    a key of it all the same, so its values are property reads. *)
Definition matches (query : gmap string jsval) (r : obj) : bool :=
  forallb (fun kv => strict_eq (r !! kv.1) kv.2) (map_to_list query).

(** [{ ...r, ...payload }] followed by the JSON round trip of the store:
    a payload property holding [undefined] ends up absent. *)
Definition spread (r : obj) (payload : gmap string jsval) : obj :=
  merge (fun o p => match p with
                    | Some (Some v) => Some v
                    | Some None => None
                    | None => o
                    end) r payload.

(** [arr.findIndex(p)], with [None] for [-1]. *)
Fixpoint findIndex {A} (p : A -> bool) (l : list A) : option nat :=
  match l with
  | [] => None
  | x :: rest => if p x then Some 0%nat else S <$> findIndex p rest
  end.

(** [hay.includes(needle)] on strings. *)
Fixpoint string_includes (needle hay : string) : bool :=
  String.prefix needle hay ||
  match hay with
  | EmptyString => false
  | String _ rest => string_includes needle rest
  end.

(** ** The in-memory database and its write queue *)

(** [db], [writeQueue] and [writeTimeout].  The timer is either armed
    ([true]) or not. *)
Record Store : Type := mkStore {
  users : list obj;
  servers : list obj;
  config : obj;
  versions : list obj;
  writeQueue : gset string;
  writeTimeout : bool
}.

Definition emptyStore : Store :=
  mkStore [] [] ∅ [] ∅ false.

(** [writeDb(file, data)], one instance per collection: replace the
    collection, queue the file, re-arm the flush timer. *)
Definition enqueue (file : string) (st : Store) : Store :=
  mkStore (users st) (servers st) (config st) (versions st)
          ({[file]} ∪ writeQueue st) true.

Definition writeDb_users (data : list obj) (st : Store) : Store :=
  enqueue "users.json"
    (mkStore data (servers st) (config st) (versions st) (writeQueue st) (writeTimeout st)).

Definition writeDb_servers (data : list obj) (st : Store) : Store :=
  enqueue "servers.json"
    (mkStore (users st) data (config st) (versions st) (writeQueue st) (writeTimeout st)).

Definition writeDb_config (data : obj) (st : Store) : Store :=
  enqueue "config.json"
    (mkStore (users st) (servers st) data (versions st) (writeQueue st) (writeTimeout st)).

Definition writeDb_versions (data : list obj) (st : Store) : Store :=
  enqueue "versions.json"
    (mkStore (users st) (servers st) (config st) data (writeQueue st) (writeTimeout st)).

(** ** loadDb *)

(** What a [catch] clause receives: the [code] property of the error and
    whether it is a [SyntaxError]. *)
Record js_error : Type := mkError {
  err_code : option string;
  err_is_syntax : bool
}.

Definition ENOENT : js_error := mkError (Some "ENOENT") false.
Definition EACCES : js_error := mkError (Some "EACCES") false.
Definition EISDIR : js_error := mkError (Some "EISDIR") false.
Definition JSON_SyntaxError : js_error := mkError None true.

(** The outcome of the [try] block of [readWithDefault]
    ([fs.readFile] followed by [JSON.parse]): the parsed data, or the
    error thrown by either call. *)
Definition attempt (A : Type) : Type := js_error + A.

(** [readWithDefault(file, defaultValue)]. *)
Definition readWithDefault {A} (r : attempt A) (defaultValue : A) : attempt A :=
  match r with
  | inr data => inr data
  | inl error =>
      if bool_decide (err_code error = Some "ENOENT") || err_is_syntax error
      then inr defaultValue
      else inl error
  end.

(** The file system as [loadDb] meets it. *)
Record disk : Type := mkDisk {
  mkdir_result : option js_error;
  config_json : attempt obj;
  users_json : attempt (list obj);
  servers_json : attempt (list obj);
  versions_json : attempt (list obj)
}.

Inductive load_result : Type :=
  | Loaded (st : Store)
  | Fatal (error : js_error).

(** [loadDb()]: any error that reaches the outer [catch] ends in
    [process.exit(1)]. *)
Definition loadDb (d : disk) : load_result :=
  match mkdir_result d with
  | Some error => Fatal error
  | None =>
      match readWithDefault (config_json d) ∅ with
      | inl error => Fatal error
      | inr c =>
          match readWithDefault (users_json d) [] with
          | inl error => Fatal error
          | inr u =>
              match readWithDefault (servers_json d) [] with
              | inl error => Fatal error
              | inr s =>
                  match readWithDefault (versions_json d) [] with
                  | inl error => Fatal error
                  | inr v => Loaded (mkStore u s c v ∅ false)
                  end
              end
          end
      end
  end.

(** ** The collection models *)

(** An update document, as the list of its own properties in key order:
    [{ $set: { status: .. } }] is [[("$set", {status := ..})]]. *)
Abbreviation payload := (gmap string jsval).
Abbreviation update := (list (string * payload)).

(** [update[Object.keys(update)[0]]]; spreading [undefined] adds
    nothing. *)
Definition first_payload (u : update) : payload :=
  match u with
  | [] => ∅
  | (_, p) :: _ => p
  end.

Definition set_fields (p : payload) : update := [("$set", p)].

Module Users.

Definition find (st : Store) : list obj := users st.

Definition findOne (query : payload) (st : Store) : option obj :=
  List.find (matches query) (find st).

Definition updateOne (query : payload) (u : update) (st : Store) : Store :=
  match findIndex (matches query) (find st) with
  | Some userIndex =>
      writeDb_users
        (alter (fun r => spread r (first_payload u)) userIndex (find st)) st
  | None => st
  end.

Definition countDocuments (query : payload) (st : Store) : nat :=
  if bool_decide (map_to_list query = [])
  then length (find st)
  else length (List.filter (matches query) (find st)).

End Users.

Module Servers.

Definition find (query : payload) (st : Store) : list obj :=
  if bool_decide (map_to_list query = [])
  then servers st
  else List.filter (matches query) (servers st).

Definition findById (id : jsval) (st : Store) : option obj :=
  List.find (fun s => strict_eq (s !! "_id") id) (find ∅ st).

Definition findOne (query : payload) (st : Store) : option obj :=
  List.find (matches query) (find ∅ st).

(** [create(serverData)]; [fresh] is the identifier drawn from
    [crypto.randomBytes(12).toString('hex')]. *)
Definition newServer (fresh : string) (serverData : payload) : obj :=
  <["botName" := VStr "X3k_BOT"]>
    (<["autoRestart" := VBool false]>
      (<["notifyOnError" := VBool true]>
        (<["status" := VStr "متوقف"]>
          (spread {["_id" := VStr fresh]} serverData)))).

Definition create (fresh : string) (serverData : payload) (st : Store)
  : obj * Store :=
  let n := newServer fresh serverData in
  (n, writeDb_servers (find ∅ st ++ [n]) st).

Definition updateOne (query : payload) (u : update) (st : Store) : Store :=
  match findIndex (fun s => strict_eq (s !! "_id") (mjoin (query !! "_id")))
                  (find ∅ st) with
  | Some serverIndex =>
      writeDb_servers
        (alter (fun r => spread r (first_payload u)) serverIndex (find ∅ st)) st
  | None => st
  end.

(** [deleteOne(query)] returns [deletedCount] with the store. *)
Definition deleteOne (query : payload) (st : Store) : nat * Store :=
  let kept := List.filter (fun s => negb (matches query s)) (find ∅ st) in
  if bool_decide (length kept < length (find ∅ st))%nat
  then (1%nat, writeDb_servers kept st)
  else (0%nat, st).

Definition countDocuments (query : payload) (st : Store) : nat :=
  if bool_decide (map_to_list query = [])
  then length (find ∅ st)
  else length (List.filter (matches query) (find ∅ st)).

End Servers.

(** A thrown exception that the model distinguishes. *)
Inductive thrown : Type :=
  | TypeError
  | DuplicateKey.   (* [Error('Duplicate key')] with [code = 11000] *)

(** An update of the configuration, as the list of its verbs in key
    order, each with the [value] property of its payload (a channel name
    or a flag; [None] when [value] is missing). *)
Abbreviation jsprim := (option prim).
Abbreviation config_update := (list (string * jsprim)).

Definition of_prim (v : jsprim) : jsval := VPrim <$> v.

Module Config.

Definition findOne (query : payload) (st : Store) : jsval * jsval :=
  (mjoin (query !! "key"),
   config st !! to_property_key (mjoin (query !! "key"))).

(** [update.$verb], an object whenever it is present. *)
Definition verb (name : string) (u : config_update) : option jsprim :=
  snd <$> List.find (fun kp => bool_decide (kp.1 = name)) u.

(** [config[key] = v] followed by the round trip of the store. *)
Definition assign (key : string) (v : jsprim) (c : obj) : obj :=
  match v with
  | Some x => <[key := VPrim x]> c
  | None => delete key c
  end.

(** An element pushed on an array, as it reads back: [undefined]
    becomes [null]. *)
Definition pushed (v : jsprim) : prim :=
  match v with
  | None => PNull
  | Some p => p
  end.

(** [arr.includes(v)]: a JSON array never holds [undefined]. *)
Definition includes (v : jsprim) (arr : list prim) : bool :=
  match v with
  | Some p => bool_decide (p ∈ arr)
  | None => false
  end.

(** [arr.filter(item => item !== v)]. *)
Definition pull (v : jsprim) (arr : list prim) : list prim :=
  List.filter (fun item => negb (bool_decide (Some item = v))) arr.

(** The [$addToSet] branch on the current value of [config[key]]. *)
Definition addToSet (key : string) (valueToAdd : jsprim) (c : obj)
  : thrown + obj :=
  let cur := if truthy (c !! key) then c !! key else Some (VArr []) in
  match cur with
  | Some (VArr arr) =>
      if includes valueToAdd arr then inr (<[key := VArr arr]> c)
      else inr (<[key := VArr (arr ++ [pushed valueToAdd])]> c)
  | Some (VPrim (PStr s)) =>
      (* String.prototype.includes, then no [push] on a string *)
      if string_includes (to_property_key (of_prim valueToAdd)) s then inr c
      else inl TypeError
  | _ => inl TypeError
  end.

(** The [$pull] branch. *)
Definition pullFrom (key : string) (v : jsprim) (c : obj) : thrown + obj :=
  if truthy (c !! key) then
    match c !! key with
    | Some (VArr arr) => inr (<[key := VArr (pull v arr)]> c)
    | _ => inl TypeError
    end
  else inr c.

(** [updateOne(query, update, options)]; [upsert] is [options.upsert].
    A thrown exception leaves the store as it was: only the copy made
    by [readDb] has been touched. *)
Definition updateOne (query : payload) (u : config_update) (upsert : bool)
    (st : Store) : thrown + Store :=
  let key := to_property_key (mjoin (query !! "key")) in
  let c := config st in
  let result :=
    match verb "$set" u with
    | Some v => inr (assign key v c)
    | None =>
        match verb "$addToSet" u with
        | Some v => addToSet key v c
        | None =>
            match verb "$pull" u with
            | Some v => pullFrom key v c
            | None =>
                match verb "$setOnInsert" u with
                | Some v =>
                    if upsert && bool_decide (c !! key = None)
                    then inr (assign key v c)
                    else inr c
                | None => inr c
                end
            end
        end
    end in
  match result with
  | inr c' => inr (writeDb_config c' st)
  | inl e => inl e
  end.

End Config.

Module Versions.

Definition find (query : payload) (st : Store) : list obj :=
  if bool_decide (map_to_list query = [])
  then versions st
  else List.filter (matches query) (versions st).

(** [create(versionData)]: the store that results, and the exception
    if one is thrown. *)
Definition create (versionData : obj) (st : Store) : option thrown * Store :=
  let exists_ :=
    existsb (fun v => strict_eq (v !! "protocol") (versionData !! "protocol"))
            (find ∅ st) in
  if exists_ then (Some DuplicateKey, st)
  else (None, writeDb_versions (find ∅ st ++ [versionData]) st).

Definition deleteOne (query : payload) (st : Store) : nat * Store :=
  let kept := List.filter (fun v => negb (matches query v)) (find ∅ st) in
  if bool_decide (length kept < length (find ∅ st))%nat
  then (1%nat, writeDb_versions kept st)
  else (0%nat, st).

Definition countDocuments (st : Store) : nat := length (find ∅ st).

End Versions.

(** [getSupportedVersions()]: the [java] and [bedrock] tables, keyed by
    the protocol converted to a property name.  A record whose [type] is
    neither of the two makes [protocolMap[v.type]] undefined and the
    assignment throws. *)
Record protocolMap : Type := mkProtocolMap {
  pm_java : gmap string jsval;
  pm_bedrock : gmap string jsval
}.

Definition getSupportedVersions (st : Store) : option protocolMap :=
  foldl (fun acc v =>
           match acc with
           | None => None
           | Some m =>
               let k := to_property_key (v !! "protocol") in
               if bool_decide (to_property_key (v !! "type") = "java")
               then Some (mkProtocolMap (<[k := v !! "name"]> (pm_java m)) (pm_bedrock m))
               else if bool_decide (to_property_key (v !! "type") = "bedrock")
               then Some (mkProtocolMap (pm_java m) (<[k := v !! "name"]> (pm_bedrock m)))
               else None
           end)
        (Some (mkProtocolMap ∅ ∅)) (Versions.find ∅ st).

(** ** The worker supervisor *)

(** The values the [status] field takes. *)
Definition ST_STOPPED : string := "متوقف".
Definition ST_SEARCHING : string := "جاري البحث...".
Definition ST_LAUNCHING : string := "جاري التشغيل...".
Definition ST_ACTIVE : string := "نشط".
Definition ST_UNSUPPORTED : string := "إصدار غير مدعوم".
Definition ST_CONNECTION_FAILED : string := "فشل الاتصال".

(** The Telegraf context of a request; [None] is the [null] that the
    restart timer passes. *)
Abbreviation ctx := (option nat).

Inductive message : Type :=
  | MsgServerNotFound
  | MsgJavaUnsupported
  | MsgAlreadyRunning
  | MsgSearching
  | MsgUnsupportedVersion (protocolVersion : jsval)
  | MsgFoundLaunching
  | MsgBotActive
  | MsgConnectionFailed
  | MsgDisconnected
  | MsgRestarting
  | MsgStopped
  | MsgMenu (server : obj).

(** What the supervisor does to the outside. *)
Inductive effect : Type :=
  | EditMessage (c : nat) (m : message)
  | AnswerCbQuery (c : nat) (m : message)
  | SendMessage (to : jsval) (m : message)
  | Signal (pid : Z) (sig : string)
  | Spawn (pid : option Z) (args : list jsval)
  | RestartTimer (serverId : jsval).

(** A [ChildProcess] with its [exit] and [error] listeners, which close
    over [server._id] and [ctx].  [child_pid] is [None] when the process
    could not be started ([child.pid] is then [undefined]). *)
Record child : Type := mkChild {
  child_pid : option Z;
  child_server : jsval;
  child_ctx : ctx
}.

(** A call of [startBot] suspended at one of its awaits on the network,
    with the locals that are live across it. *)
Inductive task : Type :=
  | AwaitSearchEdit (c : ctx) (server : obj)
      (* startBot, at [await ctx?.editMessageText] *)
  | AwaitProbe (c : ctx) (server : obj) (versions : protocolMap)
      (* startBedrockBot, at [await statusBedrock(..)] *)
  | AwaitFoundEdit (c : ctx) (server : obj) (mcVersion : jsval).
      (* startBedrockBot, at [await ctx.editMessageText], before [spawn] *)

(** The store, the processes the operating system reports as existing,
    the children with listeners attached, the suspended calls, the pending
    restart timers and the effects so far (latest last). *)
Record world : Type := mkWorld {
  store : Store;
  live : gset Z;
  children : list child;
  tasks : list task;
  timers : list jsval;
  log : list effect
}.

Definition on_store (f : Store -> Store) (w : world) : world :=
  mkWorld (f (store w)) (live w) (children w) (tasks w) (timers w) (log w).

Definition emit (e : effect) (w : world) : world :=
  mkWorld (store w) (live w) (children w) (tasks w) (timers w) (log w ++ [e]).

Definition suspend (t : task) (w : world) : world :=
  mkWorld (store w) (live w) (children w) (tasks w ++ [t]) (timers w) (log w).

Definition setTimeout_restart (serverId : jsval) (w : world) : world :=
  emit (RestartTimer serverId)
    (mkWorld (store w) (live w) (children w) (tasks w) (timers w ++ [serverId]) (log w)).

(** [ctx?.editMessageText(..)] inside [try { } catch { }]. *)
Definition edit (c : ctx) (m : message) (w : world) : world :=
  match c with
  | Some n => emit (EditMessage n m) w
  | None => w
  end.

(** [Servers.updateOne({ _id: server._id }, { $set: fields })]. *)
Definition setFields (server : obj) (fields : payload) (w : world) : world :=
  on_store (Servers.updateOne {["_id" := server !! "_id"]} (set_fields fields)) w.

(** Whether [process.kill(pid, sig)] returns rather than throws: the
    process id is a number and names an existing process. *)
Definition kill_succeeds (w : world) (pid : jsval) : bool :=
  match pid with
  | Some (VPrim (PNum p)) => bool_decide (p ∈ live w)
  | _ => false
  end.

Definition is_string (a : jsval) : bool :=
  match a with
  | Some (VPrim (PStr _)) => true
  | _ => false
  end.

(** [startBot(ctx, serverId)] up to its first await on the network. *)
Definition startBot (c : ctx) (serverId : jsval) (w : world) : world :=
  match Servers.findById serverId (store w) with
  | None => edit c MsgServerNotFound w
  | Some server =>
      if strict_eq (server !! "serverType") (Some (VStr "java"))
      then edit c MsgJavaUnsupported w
      else if truthy (server !! "botPid") && kill_succeeds w (server !! "botPid")
      then edit c MsgAlreadyRunning w
      else
        let w1 := setFields server {["status" := Some (VStr ST_SEARCHING)]} w in
        let w2 := if is_string (server !! "serverType")
                  then edit c MsgSearching w1 else w1 in
        suspend (AwaitSearchEdit c server) w2
  end.

(** [startBot] after the message edit: [getSupportedVersions()] and the
    call of [botFunctions[server.serverType]].  When either throws, the
    call ends there. *)
Definition startBot_dispatch (c : ctx) (server : obj) (w : world) : world :=
  match getSupportedVersions (store w) with
  | None => w
  | Some versions =>
      if bool_decide (to_property_key (server !! "serverType") = "bedrock")
      then suspend (AwaitProbe c server versions) w
      else w
  end.

(** The [catch] clause of [startBedrockBot]. *)
Definition connectionFailed (c : ctx) (server : obj) (w : world) : world :=
  edit c MsgConnectionFailed
    (setFields server {["status" := Some (VStr ST_CONNECTION_FAILED);
                        "botPid" := Some VNull]} w).

(** The answer of [statusBedrock]: the protocol of the remote server, or
    a rejection (timeout, unreachable, malformed response). *)
Inductive probe_result : Type :=
  | ProbeOk (protocolVersion : jsval)
  | ProbeFailed.

(** [startBedrockBot] from the answer of the probe to the second message
    edit. *)
Definition startBedrockBot_probed (c : ctx) (server : obj)
    (versions : protocolMap) (r : probe_result) (w : world) : world :=
  match r with
  | ProbeFailed => connectionFailed c server w
  | ProbeOk protocolVersion =>
      let mcVersion := mjoin (pm_bedrock versions !! to_property_key protocolVersion) in
      if negb (truthy mcVersion)
      then edit c (MsgUnsupportedVersion protocolVersion)
             (setFields server {["status" := Some (VStr ST_UNSUPPORTED)]} w)
      else
        let w1 := setFields server {["status" := Some (VStr ST_LAUNCHING)]} w in
        suspend (AwaitFoundEdit c server mcVersion) (edit c MsgFoundLaunching w1)
  end.

(** What [spawn('node', [..])] does: throw, or return a child whose
    process was started ([Some pid]) or not ([None]; the child then emits
    [error]). *)
Inductive spawn_result : Type :=
  | SpawnThrows
  | SpawnReturns (pid : option Z).

Definition add_child (ch : child) (w : world) : world :=
  mkWorld (store w)
          (match child_pid ch with Some p => {[p]} ∪ live w | None => live w end)
          (children w ++ [ch]) (tasks w) (timers w) (log w).

(** [startBedrockBot] from [spawn] to its end. *)
Definition startBedrockBot_spawn (c : ctx) (server : obj) (mcVersion : jsval)
    (r : spawn_result) (w : world) : world :=
  match r with
  | SpawnThrows => connectionFailed c server w
  | SpawnReturns pid =>
      let w1 := emit (Spawn pid [server !! "ip"; server !! "port";
                                 server !! "botName"; mcVersion]) w in
      let w2 := add_child (mkChild pid (server !! "_id") c) w1 in
      let w3 := setFields server {["status" := Some (VStr ST_ACTIVE);
                                   "botPid" := VPrim <$> (PNum <$> pid)]} w2 in
      edit c MsgBotActive w3
  end.

(** [manageServerAction(ctx, serverId)]. *)
Definition manageServerAction (c : ctx) (serverId : jsval) (w : world) : world :=
  match Servers.findById serverId (store w) with
  | Some server => edit c (MsgMenu server) w
  | None => edit c MsgServerNotFound w
  end.

(** [handleBotExit(serverId, ctx)]. *)
Definition handleBotExit (serverId : jsval) (c : ctx) (w : world) : world :=
  match Servers.findById serverId (store w) with
  | None => w
  | Some server =>
      if negb (strict_eq (server !! "status") (Some (VStr ST_ACTIVE)))
      then w
      else
        let w1 := setFields server {["status" := Some (VStr ST_STOPPED);
                                     "botPid" := Some VNull]} w in
        let owner := Users.findOne {["userId" := server !! "userId"]} (store w1) in
        let w2 :=
          match owner with
          | Some o => if truthy (server !! "notifyOnError")
                      then emit (SendMessage (o !! "userId") MsgDisconnected) w1
                      else w1
          | None => w1
          end in
        if truthy (server !! "autoRestart")
        then
          let w3 := match owner with
                    | Some o => emit (SendMessage (o !! "userId") MsgRestarting) w2
                    | None => w2
                    end in
          setTimeout_restart serverId w3
        else
          match c with
          | Some _ => manageServerAction c serverId w2
          | None => w2
          end
  end.

(** [stopBot(ctx, serverId)]. *)
Definition stopBot (c : ctx) (serverId : jsval) (w : world) : world :=
  match Servers.findById serverId (store w) with
  | None => edit c MsgServerNotFound w
  | Some server =>
      let w1 := if truthy (server !! "botPid") && kill_succeeds w (server !! "botPid")
                then match server !! "botPid" with
                     | Some (VPrim (PNum p)) => emit (Signal p "SIGTERM") w
                     | _ => w
                     end
                else w in
      let w2 := setFields server {["status" := Some (VStr ST_STOPPED);
                                   "autoRestart" := Some (VBool false);
                                   "botPid" := Some VNull]} w1 in
      let w3 := match c with
                | Some n => emit (AnswerCbQuery n MsgStopped) w2
                | None => w2
                end in
      manageServerAction c serverId w3
  end.

(** ** The event loop *)

(** One turn of the event loop that concerns the supervisor.  Turns of
    the store never interleave: every await between two accesses to the
    store inside one of the functions above resolves without I/O. *)
Inductive event : Type :=
  | EvStart (c : ctx) (serverId : jsval)     (* the start_bot action *)
  | EvStop (c : ctx) (serverId : jsval)      (* the stop_bot action *)
  | EvEdited (i : nat)                       (* a message edit settles *)
  | EvProbed (i : nat) (r : probe_result)    (* statusBedrock settles *)
  | EvSpawn (i : nat) (r : spawn_result)     (* the edit before spawn settles *)
  | EvProcessEnds (pid : Z)                  (* a worker process terminates *)
  | EvChildExit (k : nat)                    (* 'exit' is emitted on a child *)
  | EvChildError (k : nat)                   (* 'error' is emitted on a child *)
  | EvTimer (k : nat).                       (* a restart timer fires *)

Definition drop_task (i : nat) (w : world) : world :=
  mkWorld (store w) (live w) (children w) (delete i (tasks w)) (timers w) (log w).

Definition drop_child (k : nat) (w : world) : world :=
  mkWorld (store w) (live w) (delete k (children w)) (tasks w) (timers w) (log w).

Definition drop_timer (k : nat) (w : world) : world :=
  mkWorld (store w) (live w) (children w) (tasks w) (delete k (timers w)) (log w).

Definition end_process (pid : Z) (w : world) : world :=
  mkWorld (store w) (live w ∖ {[pid]}) (children w) (tasks w) (timers w) (log w).

(** An event that does not apply (no such task, a child whose process
    still runs) leaves the world as it is. *)
Definition step (w : world) (e : event) : world :=
  match e with
  | EvStart c serverId => startBot c serverId w
  | EvStop c serverId => stopBot c serverId w
  | EvEdited i =>
      match tasks w !! i with
      | Some (AwaitSearchEdit c server) => startBot_dispatch c server (drop_task i w)
      | _ => w
      end
  | EvProbed i r =>
      match tasks w !! i with
      | Some (AwaitProbe c server versions) =>
          startBedrockBot_probed c server versions r (drop_task i w)
      | _ => w
      end
  | EvSpawn i r =>
      match tasks w !! i with
      | Some (AwaitFoundEdit c server mcVersion) =>
          startBedrockBot_spawn c server mcVersion r (drop_task i w)
      | _ => w
      end
  | EvProcessEnds pid => end_process pid w
  | EvChildExit k =>
      match children w !! k with
      | Some (mkChild (Some p) serverId c) =>
          if bool_decide (p ∈ live w) then w
          else handleBotExit serverId c (drop_child k w)
      | _ => w
      end
  | EvChildError k =>
      match children w !! k with
      | Some (mkChild None serverId c) => handleBotExit serverId c (drop_child k w)
      | _ => w
      end
  | EvTimer k =>
      match timers w !! k with
      | Some serverId => startBot None serverId (drop_timer k w)
      | None => w
      end
  end.

Definition run (w : world) (es : list event) : world := foldl step w es.

(** The states the program can be in: those reached from a loaded store
    with no worker running. *)
Definition initial (st : Store) : world := mkWorld st ∅ [] [] [] [].

(** ** The status of a target, as the specification names it *)

Inductive status : Type :=
  | Idle
  | Resolving
  | Launching
  | Running
  | Error (reason : string)
  | Unknown.

Definition status_of (server : obj) : status :=
  match server !! "status" with
  | Some (VPrim (PStr s)) =>
      if bool_decide (s = ST_STOPPED) then Idle
      else if bool_decide (s = ST_SEARCHING) then Resolving
      else if bool_decide (s = ST_LAUNCHING) then Launching
      else if bool_decide (s = ST_ACTIVE) then Running
      else if bool_decide (s = ST_UNSUPPORTED) then Error "unsupported-version"
      else if bool_decide (s = ST_CONNECTION_FAILED) then Error "connection-failed"
      else Unknown
  | _ => Unknown
  end.

(** [workerProcessId]: the recorded process id, [None] when [botPid] is
    [null] or missing. *)
Definition workerProcessId (server : obj) : option Z :=
  match server !! "botPid" with
  | Some (VPrim (PNum p)) => Some p
  | _ => None
  end.

(** The target with a given identifier in a world. *)
Definition target (serverId : string) (w : world) : option obj :=
  Servers.findById (Some (VStr serverId)) (store w).

(** The worker processes spawned for a target that still exist. *)
Definition live_workers (serverId : string) (w : world) : list Z :=
  omap (fun ch =>
          match child_pid ch with
          | Some p => if bool_decide (child_server ch = Some (VStr serverId))
                         && bool_decide (p ∈ live w)
                      then Some p else None
          | None => None
          end) (children w).

(** ** Display names *)

(** The value of a decimal digit. *)
Definition digit_value (a : ascii) : option Z :=
  let n := Z.of_nat (nat_of_ascii a) in
  if bool_decide (48 ≤ n ≤ 57) then Some (n - 48) else None.

(** [parseInt] of a string that matches [\d+]; [None] when the string
    does not match. *)
Fixpoint parse_digits_from (acc : Z) (s : string) : option Z :=
  match s with
  | EmptyString => Some acc
  | String a rest =>
      match digit_value a with
      | Some d => parse_digits_from (10 * acc + d) rest
      | None => None
      end
  end.

Definition parse_digits (s : string) : option Z :=
  match s with
  | EmptyString => None
  | _ => parse_digits_from 0 s
  end.

(** [name.match(/^S-(\d+)$/)] followed by [parseInt(match[1])]. *)
Definition S_number (name : string) : option Z :=
  match name with
  | String "S"%char (String "-"%char digits) => parse_digits digits
  | _ => None
  end.

(** The template literal [`S-${n}`]. *)
Definition S_name (n : Z) : string := "S-" +:+ pretty n.

(** [Math.max(...numbers)] of a non-empty list. *)
Definition maximum (numbers : list Z) : Z :=
  match numbers with
  | [] => 0
  | n :: rest => foldl Z.max n rest
  end.

(** The first step of the add-server wizard: the name stored in
    [ctx.wizard.state.serverData.name].  [None] when a record of the user
    has a [serverName] that is not a string, on which [.match] throws. *)
Definition wizard_name (userId : jsval) (st : Store) : option string :=
  let userServers := Servers.find {["userId" := userId]} st in
  numbers ← mapM (fun s => match s !! "serverName" with
                           | Some (VPrim (PStr name)) => Some (S_number name)
                           | _ => None
                           end) userServers;
  let takenNumbers := omap id numbers in
  Some (S_name (match takenNumbers with
                | [] => 1
                | _ => maximum takenNumbers + 1
                end)).

Section Reorder.

(** [Date.parse], whose result on strings that are not in the ISO
    format is left to the implementation; [None] is [NaN]. *)
Variable Date_parse : string -> option Z.

(** [new Date(v).valueOf()] for a truthy JSON value [v]. *)
Definition Date_value (v : value) : option Z :=
  match v with
  | VPrim PNull => Some 0
  | VPrim (PBool b) => Some (if b then 1 else 0)
  | VPrim (PNum n) =>
      if bool_decide (-8640000000000000 ≤ n ≤ 8640000000000000)
      then Some n else None
  | VPrim (PStr s) => Date_parse s
  | VArr l => Date_parse (join_comma l)
  end.

(** The comparator passed to [servers.sort]; a [NaN] difference counts
    as [0]. *)
Definition by_createdAt (a b : obj) : Z :=
  if truthy (a !! "createdAt") && truthy (b !! "createdAt")
  then match a !! "createdAt" ≫= Date_value, b !! "createdAt" ≫= Date_value with
       | Some x, Some y => x - y
       | _, _ => 0
       end
  else 0.

(** [Array.prototype.sort], by insertion: an element goes in front of
    the first one it does not compare greater than.  The sort of
    JavaScript is stable, and for a consistent comparator (one that
    compares by a rank) a stable sort has one possible result, which is
    this one.  [by_createdAt] is not consistent on a list that mixes
    records with a creation date and records without; the order is then
    left to the engine, and of [sort] only what holds of any permutation
    is used. *)
Fixpoint sort_insert (cmp : obj -> obj -> Z) (x : obj) (l : list obj) : list obj :=
  match l with
  | [] => [x]
  | y :: rest => if bool_decide (cmp x y ≤ 0) then x :: y :: rest
                 else y :: sort_insert cmp x rest
  end.

Definition sort (cmp : obj -> obj -> Z) (l : list obj) : list obj :=
  foldr (sort_insert cmp) [] l.

(** The [for] loop of [reorderServers] over the sorted snapshot. *)
Fixpoint rename_loop (snapshot : list obj) (expected : Z) (st : Store) : Store :=
  match snapshot with
  | [] => st
  | server :: rest =>
      let newName := S_name expected in
      let st' :=
        if negb (strict_eq (server !! "serverName") (Some (VStr newName)))
        then Servers.updateOne {["_id" := server !! "_id"]}
               (set_fields {["serverName" := Some (VStr newName)]}) st
        else st in
      rename_loop rest (expected + 1) st'
  end.

(** [reorderServers(userId)]. *)
Definition reorderServers (userId : jsval) (st : Store) : Store :=
  rename_loop (sort by_createdAt (Servers.find {["userId" := userId]} st)) 1 st.

Inductive add_result : Type :=
  | InvalidPort
  | TooManyServers
  | DuplicateOwn
  | DuplicateOther
  | Added (newServer : obj).

(** The last step of the add-server wizard, for the user [userId]
    ([ctx.from.id]) with the name chosen by the first step. *)
Definition wizard_finish (fresh : string) (userId : jsval) (name : string)
    (ip : jsval) (port : Z) (st : Store) : add_result * Store :=
  if bool_decide (port < 1) || bool_decide (port > 65535) then (InvalidPort, st)
  else if bool_decide (3 ≤ Servers.countDocuments {["userId" := userId]} st)%nat
  then (TooManyServers, st)
  else if bool_decide (is_Some (Servers.findOne
            {["ip" := ip; "port" := Some (VNum port); "userId" := userId]} st))
  then (DuplicateOwn, st)
  else if bool_decide (is_Some (Servers.findOne
            {["ip" := ip; "port" := Some (VNum port)]} st))
  then (DuplicateOther, st)
  else
    let '(newServer, st1) :=
      Servers.create fresh
        {["userId" := userId; "serverName" := Some (VStr name);
          "serverType" := Some (VStr "bedrock"); "ip" := ip;
          "port" := Some (VNum port)]} st in
    (Added newServer, reorderServers userId st1).

(** The delete_do action for the user [userId]. *)
Definition delete_do (c : ctx) (userId : jsval) (sId : jsval) (w : world) : world :=
  let w1 := stopBot c sId w in
  let w2 := on_store (fun st => (Servers.deleteOne
                        {["_id" := sId; "userId" := userId]} st).2) w1 in
  on_store (reorderServers userId) w2.

(** One turn of the loop of the delete_all_servers action.  [stopBot]
    awaits Telegram after it has written the record, and other handlers
    run while it waits: [meanwhile] is what they do to the world before
    the record is deleted. *)
Definition delete_all_turn (c : ctx) (userId : jsval)
    (meanwhile : world -> world) (server : obj) (w : world) : world :=
  let w1 := stopBot c (server !! "_id") w in
  let w2 := meanwhile w1 in
  on_store (fun st => (Servers.deleteOne
               {["_id" := server !! "_id"; "userId" := userId]} st).2) w2.

Fixpoint delete_all_loop (c : ctx) (userId : jsval)
    (meanwhile : nat -> world -> world) (i : nat) (snapshot : list obj)
    (w : world) : world :=
  match snapshot with
  | [] => w
  | server :: rest =>
      delete_all_loop c userId meanwhile (S i) rest
        (delete_all_turn c userId (meanwhile i) server w)
  end.

(** The delete_all_servers action of the administrator: the loop over
    the targets found at the start, with [meanwhile i] what other handlers
    do during its [i]-th turn.  It does not call [reorderServers]. *)
Definition delete_all_servers (c : ctx) (userId : jsval)
    (meanwhile : nat -> world -> world) (w : world) : world :=
  delete_all_loop c userId meanwhile 0
    (Servers.find {["userId" := userId]} (store w)) w.

(** No other handler runs. *)
Definition undisturbed : nat -> world -> world := fun _ w => w.

End Reorder.

(** The display names of a user's targets, in the order of the
    collection. *)
Definition display_names (userId : jsval) (st : Store) : list jsval :=
  (fun s => s !! "serverName") <$> Servers.find {["userId" := userId]} st.

(** The names [S-1 .. S-n]. *)
Definition dense_names (n : nat) : list jsval :=
  (fun k => Some (VStr (S_name k))) <$> seqZ 1 (Z.of_nat n).

(** ** Sample data and auxiliary notions for the statements *)

Definition v818 : obj :=
  {["type" := VStr "bedrock"; "protocol" := VNum 818; "name" := VStr "1.21.90"]}.

Definition v800 : obj :=
  {["type" := VStr "bedrock"; "protocol" := VNum 800; "name" := VStr "1.21.80"]}.

Definition table_818 : Store := mkStore [] [] ∅ [v818] ∅ false.

(** The errors that [readWithDefault] absorbs. *)
Definition recoverable (e : js_error) : Prop :=
  err_code e = Some "ENOENT" \/ err_is_syntax e = true.

(** A backing file that [readWithDefault] gets a collection from. *)
Definition usable {A} (r : attempt A) : Prop :=
  match r with
  | inr _ => True
  | inl e => recoverable e
  end.

(** The collection it gets. *)
Definition data_or {A} (r : attempt A) (defaultValue : A) : A :=
  match r with
  | inr data => data
  | inl _ => defaultValue
  end.

(** A disk whose directory exists but whose servers.json cannot be read
    for want of permission. *)
Definition disk_no_permission : disk :=
  mkDisk None (inr ∅) (inr []) (inl EACCES) (inr []).

Definition disk_partial : disk :=
  mkDisk None (inl ENOENT) (inl JSON_SyntaxError) (inr [v818]) (inl ENOENT).

(** The update commands that the specification distinguishes. *)
Inductive update_command : Type :=
  | SetFields (fields : payload)
  | AddToSet (field : string) (v : prim)
  | Pull (field : string) (v : prim).

(** The update document that carries a command. *)
Definition document (cmd : update_command) : update :=
  match cmd with
  | SetFields fields => [("$set", fields)]
  | AddToSet field v => [("$addToSet", {[field := Some (VPrim v)]})]
  | Pull field v => [("$pull", {[field := Some (VPrim v)]})]
  end.

(** What each command does to the selected record in the words of the
    specification: a full-field merge, an insert-if-absent into an array
    field, a removal by value from an array field. *)
Definition spec_apply (cmd : update_command) (r : obj) : obj :=
  match cmd with
  | SetFields fields => spread r fields
  | AddToSet field v =>
      match r !! field with
      | Some (VArr arr) =>
          if bool_decide (v ∈ arr) then r else <[field := VArr (arr ++ [v])]> r
      | _ => r
      end
  | Pull field v =>
      match r !! field with
      | Some (VArr arr) =>
          <[field := VArr (List.filter (fun x => negb (bool_decide (x = v))) arr)]> r
      | _ => r
      end
  end.

Definition tagged_server : obj :=
  {["_id" := VStr "a1"; "tags" := VArr [PStr "x"]]}.

Definition tagged_store : Store := mkStore [] [tagged_server] ∅ [] ∅ false.

Definition channels_store : Store :=
  mkStore [{["userId" := VNum 7; "isBanned" := VBool false]}] [] 
          {["requiredChannels" := VArr [PStr "@a"]]} [] ∅ false.

(** The fields written by [stopBot], by [handleBotExit] and by a
    successful [spawn]. *)
Definition stop_fields : payload :=
  {["status" := Some (VStr ST_STOPPED);
    "autoRestart" := Some (VBool false);
    "botPid" := Some VNull]}.

Definition exit_fields : payload :=
  {["status" := Some (VStr ST_STOPPED); "botPid" := Some VNull]}.

Definition failed_fields : payload :=
  {["status" := Some (VStr ST_CONNECTION_FAILED); "botPid" := Some VNull]}.

Definition active_fields (pid : option Z) : payload :=
  {["status" := Some (VStr ST_ACTIVE); "botPid" := VPrim <$> (PNum <$> pid)]}.

(** The termination signals sent so far. *)
Definition signals (w : world) : list Z :=
  omap (fun e => match e with
                 | Signal p _ => Some p
                 | _ => None
                 end) (log w).

(** The processes spawned so far. *)
Definition spawned (w : world) : list Z :=
  omap (fun e => match e with
                 | Spawn (Some p) _ => Some p
                 | _ => None
                 end) (log w).

(** The refusals of a start sent so far. *)
Definition refusals (w : world) : nat :=
  length (List.filter (fun e => match e with
                                | EditMessage _ MsgAlreadyRunning => true
                                | _ => false
                                end) (log w)).

(** A user with one target, [a1], in the states used as examples. *)
Definition a1 : jsval := Some (VStr "a1").

Definition owner7 : obj :=
  {["userId" := VNum 7; "isBanned" := VBool false; "isAdmin" := VBool false]}.

Definition idle_target : obj :=
  Servers.newServer "a1"
    {["userId" := Some (VNum 7); "serverName" := Some (VStr "S-1");
      "serverType" := Some (VStr "bedrock");
      "ip" := Some (VStr "play.example.com"); "port" := Some (VNum 19132)]}.

Definition idle_store : Store := mkStore [owner7] [idle_target] ∅ [v818] ∅ false.

Definition running_target : obj :=
  <["botPid" := VNum 100]>
    (<["status" := VStr ST_ACTIVE]> (<["autoRestart" := VBool true]> idle_target)).

Definition running_store : Store :=
  mkStore [owner7] [running_target] ∅ [v818] ∅ false.

(** The worker 100 of [a1] is running. *)
Definition running_world : world :=
  mkWorld running_store {[100]} [mkChild (Some 100) a1 (Some 1%nat)] [] [] [].

(** The worker 100 of [a1] has just ended; its [exit] event is due. *)
Definition exited_world : world :=
  mkWorld running_store ∅ [mkChild (Some 100) a1 (Some 1%nat)] [] [] [].

(** [a1] after a start whose probe found protocol 818: the target is
    marked as launching and the call waits just before [spawn]. *)
Definition launching_world : world :=
  run (initial idle_store)
      [EvStart (Some 1%nat) a1; EvEdited 0; EvProbed 0 (ProbeOk (Some (VNum 818)))].

(** Two presses of the start button of [a1], one right after the other,
    then the awaits of the two calls settling in turn; both probes find
    protocol 818 and both spawns succeed. *)
Definition double_start : list event :=
  [EvStart (Some 1%nat) a1; EvStart (Some 2%nat) a1;
   EvEdited 0; EvEdited 0;
   EvProbed 0 (ProbeOk (Some (VNum 818))); EvProbed 0 (ProbeOk (Some (VNum 818)));
   EvSpawn 0 (SpawnReturns (Some 100)); EvSpawn 0 (SpawnReturns (Some 101))].

(** A start of [a1] that succeeds with worker 100, the end of that
    process, and a second start that is handled before the [exit] event
    of the child. *)
Definition restart_over_dead_worker : list event :=
  [EvStart (Some 1%nat) a1; EvEdited 0; EvProbed 0 (ProbeOk (Some (VNum 818)));
   EvSpawn 0 (SpawnReturns (Some 100));
   EvProcessEnds 100;
   EvStart (Some 2%nat) a1].

(** The identifiers of a list of targets. *)
Definition ids (l : list obj) : list jsval := (fun s => s !! "_id") <$> l.

(** Every target carries a string as [_id] and no two targets share
    one: what [Servers.create] maintains as long as
    [crypto.randomBytes] does not repeat itself. *)
Definition keyed (st : Store) : Prop :=
  NoDup (ids (servers st))
  /\ Forall (fun a => is_string a = true) (ids (servers st)).

(** The record [s] after the loop of [reorderServers] has run over
    [snapshot] counting from [k]: renamed after its position in the
    snapshot when it is in it. *)
Definition relabel (snapshot : list obj) (k : Z) (s : obj) : obj :=
  match findIndex (fun x => strict_eq (x !! "_id") (s !! "_id")) snapshot with
  | Some j => <["serverName" := VStr (S_name (k + Z.of_nat j))]> s
  | None => s
  end.

(** The display names of a user are [S-1 .. S-n] in some order. *)
Definition dense (userId : jsval) (st : Store) : Prop :=
  display_names userId st ≡ₚ dense_names (length (display_names userId st)).

(** The user 7 adds a target through the wizard: the first step picks
    the name, the last one creates the record. *)
Definition u7 : jsval := Some (VNum 7).

Definition add_target (Date_parse : string -> option Z) (fresh ip : string)
    (st : Store) : Store :=
  match wizard_name u7 st with
  | Some name => (wizard_finish Date_parse fresh u7 name (Some (VStr ip)) 19132 st).2
  | None => st
  end.

(** Three targets created one after the other. *)
Definition three_targets (Date_parse : string -> option Z) : Store :=
  add_target Date_parse "c3" "c.example.com"
    (add_target Date_parse "b2" "b.example.com"
       (add_target Date_parse "a1" "a.example.com"
          (mkStore [owner7] [] ∅ [v818] ∅ false))).

(** Two targets of the user 7, and the user adding a third one while the
    administrator's delete_all_servers waits in its first turn. *)
Definition two_targets (Date_parse : string -> option Z) : Store :=
  add_target Date_parse "b2" "b.example.com"
    (add_target Date_parse "a1" "a.example.com"
       (mkStore [owner7] [] ∅ [v818] ∅ false)).

Definition add_in_first_turn (Date_parse : string -> option Z)
  : nat -> world -> world :=
  fun i w =>
    match i with
    | O => on_store (add_target Date_parse "c3" "c.example.com") w
    | S _ => w
    end.


(** ** flushDb and the backing files *)

(** What a backing file holds: the collection as it was serialised, or
    the empty or partial text that a write which failed midway leaves
    behind ([fs.writeFile] truncates the file when it opens it). *)
Inductive contents : Type :=
  | Docs (records : list obj)
  | Bag (settings : obj)
  | Partial.

(** How a call of [fs.writeFile] ends: the file is written; or the call
    is rejected before the file is opened, which leaves the file alone; or
    it is rejected after, which leaves the file truncated. *)
Inductive write_outcome : Type :=
  | Written
  | FailedBefore
  | FailedMidway.

(** The files of the data directory. *)
Abbreviation files := (gmap string contents).

(** [db[file.replace('.json', '')]] for the names that [writeDb] is
    called with; any other name reads [undefined]. *)
Definition file_data (file : string) (st : Store) : option contents :=
  if bool_decide (file = "users.json") then Some (Docs (users st))
  else if bool_decide (file = "servers.json") then Some (Docs (servers st))
  else if bool_decide (file = "config.json") then Some (Bag (config st))
  else if bool_decide (file = "versions.json") then Some (Docs (versions st))
  else None.

(** [flushDb()] up to its loop: the timer is cleared and, when the queue
    is not empty, copied into [filesToWrite] and emptied. *)
Definition flush_begin (st : Store) : list string * Store :=
  (elements (writeQueue st),
   mkStore (users st) (servers st) (config st) (versions st) ∅ false).

(** One turn of the loop of [flushDb]: [ok] tells how [fs.writeFile]
    ends.  The data written is the collection as it is at that moment; a
    failed write puts the file back in the queue. *)
Definition flush_write (ok : write_outcome) (file : string) (acc : Store * files)
  : Store * files :=
  let '(st, disk) := acc in
  match file_data file st with
  | Some data =>
      let again := mkStore (users st) (servers st) (config st) (versions st)
                           ({[file]} ∪ writeQueue st) (writeTimeout st) in
      match ok with
      | Written => (st, <[file := data]> disk)
      | FailedBefore => (again, disk)
      | FailedMidway => (again, <[file := Partial]> disk)
      end
  | None => (st, disk)
  end.

(** What one write leaves in a file that held [old]. *)
Definition after_write (ok : write_outcome) (data : option contents)
    (old : option contents) : option contents :=
  match data with
  | Some d =>
      match ok with
      | Written => Some d
      | FailedBefore => old
      | FailedMidway => Some Partial
      end
  | None => old
  end.

(** [flushDb()] when nothing else is scheduled between its writes. *)
Definition flushDb (ok : string -> write_outcome) (st : Store) (disk : files)
  : Store * files :=
  let '(filesToWrite, st1) := flush_begin st in
  foldl (fun acc file => flush_write (ok file) file acc) (st1, disk) filesToWrite.

(** A call of [writeDb]. *)
Inductive write_call : Type :=
  | WriteUsers (data : list obj)
  | WriteServers (data : list obj)
  | WriteConfig (data : obj)
  | WriteVersions (data : list obj).

Definition written_file (c : write_call) : string :=
  match c with
  | WriteUsers _ => "users.json"
  | WriteServers _ => "servers.json"
  | WriteConfig _ => "config.json"
  | WriteVersions _ => "versions.json"
  end.

Definition writeDb (c : write_call) (st : Store) : Store :=
  match c with
  | WriteUsers data => writeDb_users data st
  | WriteServers data => writeDb_servers data st
  | WriteConfig data => writeDb_config data st
  | WriteVersions data => writeDb_versions data st
  end.

(** The store without its write queue and timer. *)
Definition collections (st : Store) : list obj * list obj * obj * list obj :=
  (users st, servers st, config st, versions st).

(** A run of [writeDb] calls. *)
Definition write_all (calls : list write_call) (st : Store) : Store :=
  foldl (fun s c => writeDb c s) st calls.

(** A store with pending writes of two collections. *)
Definition dirty_store : Store :=
  write_all [WriteServers [idle_target]; WriteUsers [owner7];
             WriteServers [running_target]] emptyStore.

(** ** The caches *)

(** A [Map] from user ids to entries [{ value, expiry }]; times are in
    milliseconds. *)
Abbreviation cache V := (gmap Z (V * Z)).

(** [getFromCache(cache, key)] at the time [now]: the value, or [None]
    for [null]; an entry that is missing or has expired is deleted. *)
Definition getFromCache {V} (c : cache V) (key : Z) (now : Z) : option V * cache V :=
  match c !! key with
  | Some (value, expiry) =>
      if bool_decide (expiry > now) then (Some value, c)
      else (None, delete key c)
  | None => (None, delete key c)
  end.

(** [setToCache(cache, key, value, ttl)] at the time [now], [ttl] in
    seconds. *)
Definition setToCache {V} (c : cache V) (key : Z) (value : V) (ttl : Z) (now : Z)
  : cache V :=
  <[key := (value, now + ttl * 1000)]> c.

(** ** Users *)

Definition ADMIN_ID : Z := 7735298810.

(** [Users.create(userData)]; [now] is [new Date().toISOString()]. *)
Definition Users_create (now : string) (userData : payload) (st : Store)
  : obj * Store :=
  let newUser :=
    <["joinedAt" := VStr now]>
      (<["isAdmin" := VBool (strict_eq (mjoin (userData !! "userId"))
                                       (Some (VNum ADMIN_ID)))]>
        (<["isBanned" := VBool false]> (spread ∅ userData))) in
  (newUser, writeDb_users (Users.find st ++ [newUser]) st).

(** The sender of an update, [ctx.from]. *)
Record sender : Type := mkSender {
  from_id : Z;
  from_username : option string;
  from_first_name : option string;
  from_last_name : option string
}.

Definition UNKNOWN : string := "غير معروف".

(** [ctx.from.username ? `@${ctx.from.username}` : "غير معروف"]. *)
Definition currentUsername (from : sender) : string :=
  match from_username from with
  | Some u => if bool_decide (u = "") then UNKNOWN else "@" +:+ u
  | None => UNKNOWN
  end.

(** [[first_name, last_name].filter(Boolean).join(' ')], replaced when
    empty. *)
Definition currentName (from : sender) : string :=
  let parts := omap (fun p => match p with
                              | Some s => if bool_decide (s = "") then None else Some s
                              | None => None
                              end)
                    [from_first_name from; from_last_name from] in
  let joined := match parts with
                | [] => ""
                | [a] => a
                | a :: b :: _ => a +:+ " " +:+ b
                end in
  if bool_decide (joined = "") then UNKNOWN else joined.

(** The [updateData] that the middleware below collects for a known
    user: the display attributes that differ from the sender's. *)
Definition updateData (from : sender) (user : obj) : payload :=
  (if strict_eq (user !! "username") (Some (VStr (currentUsername from)))
   then ∅ else {["username" := Some (VStr (currentUsername from))]})
  ∪
  (if strict_eq (user !! "name") (Some (VStr (currentName from)))
   then ∅ else {["name" := Some (VStr (currentName from))]}).

(** The middleware that records the sender of every update. *)
Definition syncUser (now : string) (from : sender) (st : Store) : Store :=
  let userId := Some (VNum (from_id from)) in
  match Users.findOne {["userId" := userId]} st with
  | Some user =>
      if bool_decide (updateData from user = ∅) then st
      else Users.updateOne {["userId" := userId]}
             (set_fields (updateData from user)) st
  | None =>
      (Users_create now {["userId" := userId;
                          "username" := Some (VStr (currentUsername from));
                          "name" := Some (VStr (currentName from))]} st).2
  end.

(** ** The access gate *)

(** What the gate caches for a user: [{ isBanned, isAdmin }]. *)
Abbreviation userStatus := (jsval * jsval)%type.

Inductive gate_result : Type :=
  | Dropped                       (* not a private chat, or no sender *)
  | Maintenance                   (* the bot is offline for this user *)
  | Blocked                       (* the user is banned *)
  | Next (isAdmin : option jsval). (* handed on, with [ctx.state.isAdmin] when set *)

(** The middleware that lets an update through or not.  [private] tells
    whether [ctx.chat?.type] is ['private']; [now] is the time at which
    the cache is read and [now'] the time at which it is filled. *)
Definition gate (private : bool) (from : option Z) (now now' : Z)
    (st : Store) (userCache : cache userStatus) : gate_result * cache userStatus :=
  if negb private then (Dropped, userCache)
  else match from with
  | None => (Dropped, userCache)
  | Some userId =>
      if strict_eq (config st !! "botOnline") (Some (VBool false))
         && negb (bool_decide (userId = ADMIN_ID))
      then (Maintenance, userCache)
      else
        let '(cached, c1) := getFromCache userCache userId now in
        let '(status, c2) :=
          match cached with
          | Some s => (Some s, c1)
          | None =>
              match Users.findOne {["userId" := Some (VNum userId)]} st with
              | Some user =>
                  let s := (user !! "isBanned", user !! "isAdmin") in
                  (Some s, setToCache c1 userId s 300 now')
              | None => (None, c1)
              end
          end in
        match status with
        | Some s => if truthy s.1 then (Blocked, c2) else (Next (Some s.2), c2)
        | None => (Next None, c2)
        end
  end.

(** The user 7 is banned in the store, while the cache still holds the
    status read before the ban, valid until the time 400000. *)
Definition banned7_store : Store :=
  mkStore [<["isBanned" := VBool true]> owner7] [] ∅ [] ∅ false.

Definition stale_cache : cache userStatus :=
  {[7 := ((Some (VBool false), Some (VBool false)), 400000)]}.

(** ** What the supervisor may write *)

(** The fields of a target that the supervisor writes. *)
Definition supervised_field (k : string) : Prop :=
  k = "status" \/ k = "botPid" \/ k = "autoRestart".

(** [st'] differs from [st] at most in the supervised fields of the
    targets (and in the write queue). *)
Definition same_but_supervised (st st' : Store) : Prop :=
  users st' = users st
  /\ config st' = config st
  /\ versions st' = versions st
  /\ forall k, ~ supervised_field k ->
       (fun s : obj => s !! k) <$> servers st' = (fun s : obj => s !! k) <$> servers st.

(** The users told so far that their bot was disconnected. *)
Definition disconnect_notices (w : world) : list jsval :=
  omap (fun e => match e with
                 | SendMessage to MsgDisconnected => Some to
                 | _ => None
                 end) (log w).

(** ** The limits of the add-server wizard *)

(** The address of a target. *)
Definition address (s : obj) : jsval * jsval := (s !! "ip", s !! "port").

(** The number of targets of a user, as the wizard counts them. *)
Definition owned (userId : jsval) (st : Store) : nat :=
  Servers.countDocuments {["userId" := userId]} st.

(** No user has more than three targets and no address is registered
    twice. *)
Definition within_limits (st : Store) : Prop :=
  (forall u, (owned u st <= 3)%nat) /\ NoDup (address <$> servers st).

(** ** What [reorderServers] leaves behind *)

(** The targets of a user as [reorderServers] sorts them. *)
Definition by_age (Date_parse : string -> option Z) (userId : jsval)
    (st : Store) : list obj :=
  sort (by_createdAt Date_parse) (Servers.find {["userId" := userId]} st).

(** The comparator of [reorderServers] is consistent on [l]: it compares
    by a rank.  So it is when every record of [l] has a creation date
    that [Date] can read (the rank is the time), and when none has one
    (every rank is 0), which is the case of the records that
    [Servers.create] makes; not when [l] mixes the two. *)
Definition ranked (Date_parse : string -> option Z) (rank : obj -> Z)
    (l : list obj) : Prop :=
  forall a b, a ∈ l -> b ∈ l -> by_createdAt Date_parse a b = rank a - rank b.

(** ** The worker process (bedrock_client.js) *)

Module Client.

(** The state of the worker: the flag [hasRetried], the calls of
    [connect] made so far, the clients created (whose listeners are
    registered), the [setTimeout(connect, 5000)] timers that have not
    fired yet, and the code passed to [process.exit] once the process has
    ended. *)
Record state : Type := mkState {
  hasRetried : bool;
  attempts : nat;
  clients : nat;
  pending : nat;
  exit_code : option Z
}.

(** [process.exit(code)]. *)
Definition exit (code : Z) (s : state) : state :=
  mkState (hasRetried s) (attempts s) (clients s) (pending s) (Some code).

(** [hasRetried = true; setTimeout(connect, 5000)]. *)
Definition retry_later (s : state) : state :=
  mkState true (attempts s) (clients s) (S (pending s)) (exit_code s).

(** [connect()]; [throws] tells whether [bedrock.createClient] throws. *)
Definition connect (throws : bool) (s : state) : state :=
  let s1 := mkState (hasRetried s) (S (attempts s)) (clients s) (pending s)
                    (exit_code s) in
  if throws
  then if negb (hasRetried s1) then retry_later s1 else exit 1 s1
  else mkState (hasRetried s1) (attempts s1) (S (clients s1)) (pending s1)
               (exit_code s1).

(** A command-line argument read as a condition. *)
Definition given (a : option string) : bool :=
  match a with
  | Some s => negb (bool_decide (s = ""))
  | None => false
  end.

(** The top level of the script.  [serverPort] is the result of
    [parseInt(args[1])], [None] for [NaN]. *)
Definition main (serverIp : option string) (serverPort : option Z)
    (username version : option string) (throws : bool) : state :=
  let s0 := mkState false 0 0 0 None in
  if negb (given serverIp)
     || negb (match serverPort with Some p => negb (bool_decide (p = 0)) | None => false end)
     || negb (given username) || negb (given version)
  then exit 1 s0
  else connect throws s0.

(** What happens to a running worker.  The [reason] of a disconnect
    packet is [Some isKick] when [packet.reason] is a string, with
    [isKick] the outcome of the test on [packet.reason.toLowerCase()], and
    [None] when it is not a string.  An error event comes with an object
    ([err] is [true]) or with [undefined] or [null]. *)
Inductive event : Type :=
  | Disconnect (reason : option bool)   (* 'disconnect' on a client *)
  | Error (err : bool)                  (* 'error' on a client *)
  | Timer (throws : bool)               (* a retry timer fires *)
  | Signal.                             (* SIGINT or SIGTERM *)

(** The events on which a listener throws: [packet.reason.toLowerCase()]
    on a reason that is not a string, [err.message] on [undefined] or
    [null]. *)
Definition unreadable (e : event) : bool :=
  match e with
  | Disconnect None => true
  | Error false => true
  | _ => false
  end.

(** One turn of the event loop; nothing happens after [process.exit],
    and listeners run only on clients that exist.  Nothing catches what a
    listener throws, which ends the process with code 1. *)
Definition step (s : state) (e : event) : state :=
  match exit_code s with
  | Some _ => s
  | None =>
      match e with
      | Disconnect reason =>
          if bool_decide (clients s = 0%nat) then s
          else match reason with
               | None => exit 1 s
               | Some isKick =>
                   if isKick && negb (hasRetried s) then retry_later s
                   else exit 0 s
               end
      | Error err =>
          if bool_decide (clients s = 0%nat) then s
          else if negb err then exit 1 s
          else if negb (hasRetried s) then retry_later s
          else exit 1 s
      | Timer throws =>
          match pending s with
          | O => s
          | S n => connect throws (mkState (hasRetried s) (attempts s) (clients s)
                                           n (exit_code s))
          end
      | Signal => exit 0 s
      end
  end.

Definition run (s : state) (es : list event) : state := foldl step s es.

(** What every state of a worker started with its four arguments
    satisfies, [events] being what has happened to it. *)
Definition retried_once (events : list event) (s : state) : Prop :=
  (attempts s + pending s)%nat = (if hasRetried s then 2%nat else 1%nat)
  /\ (exit_code s = Some 1 ->
      hasRetried s = true \/ existsb unreadable events = true)
  /\ (forall c, exit_code s = Some c -> c = 0 \/ c = 1).

End Client.

(** ** The pages of the list of all targets *)

Definition PAGE_SIZE : Z := 8.

(** [Math.ceil(totalServers / PAGE_SIZE)]. *)
Definition totalPages (totalServers : nat) : Z :=
  (Z.of_nat totalServers + PAGE_SIZE - 1) / PAGE_SIZE.

(** The two [if]s that bring [page] into range. *)
Definition clamp_page (page : Z) (totalServers : nat) : Z :=
  let page := if bool_decide (page < 1) then 1 else page in
  if bool_decide (page > totalPages totalServers)
  then totalPages totalServers else page.

(** [Array.prototype.slice(start, end)]; a negative bound counts from
    the end of the array. *)
Definition slice {A} (l : list A) (start end_ : Z) : list A :=
  let len := Z.of_nat (length l) in
  let k := if bool_decide (start < 0) then Z.max (len + start) 0 else Z.min start len in
  let final := if bool_decide (end_ < 0) then Z.max (len + end_) 0 else Z.min end_ len in
  take (Z.to_nat (Z.max (final - k) 0)) (drop (Z.to_nat k) l).

(** The targets that [showAllServers(ctx, page)] lists, out of the
    sorted collection. *)
Definition page_of {A} (sorted : list A) (page : Z) : list A :=
  let page := clamp_page page (length sorted) in
  slice sorted ((page - 1) * PAGE_SIZE) (page * PAGE_SIZE).

(** ** setupInitialConfig *)

Definition is_admin_id (u : obj) : bool :=
  strict_eq (u !! "userId") (Some (VNum ADMIN_ID)).

(** The record pushed for the administrator; [now] is
    [new Date().toISOString()]. *)
Definition admin_record (now : string) : obj :=
  {["userId" := VNum ADMIN_ID; "username" := VStr "Admin";
    "isBanned" := VBool false; "isAdmin" := VBool true;
    "joinedAt" := VStr now]}.

(** The first part of [setupInitialConfig]: [admin] is the first match
    in the copy of the collection, and [admin.isAdmin = true] changes it in
    place there. *)
Definition setup_admin (now : string) (st : Store) : Store :=
  match List.find is_admin_id (users st) with
  | Some admin =>
      if negb (truthy (admin !! "isAdmin"))
      then writeDb_users
             (match findIndex is_admin_id (users st) with
              | Some i => alter (fun a => <["isAdmin" := VBool true]> a) i (users st)
              | None => users st
              end) st
      else st
  | None => writeDb_users (users st ++ [admin_record now]) st
  end.

(** [defaults], in the order of its keys. *)
Definition defaults : list (string * value) :=
  [("botOnline", VBool true); ("adminNotifications", VBool false);
   ("requiredChannels", VArr [])].

(** The second part: the loop over [defaults] with its flag. *)
Definition setup_config (st : Store) : Store :=
  let '(config', configUpdated) :=
    foldl (fun (acc : obj * bool) (kv : string * value) =>
             if bool_decide (acc.1 !! kv.1 = None)
             then (<[kv.1 := kv.2]> acc.1, true)
             else acc)
          (config st, false) defaults in
  if configUpdated then writeDb_config config' st else st.

(** [BEDROCK_VERSIONS] as [for .. in] enumerates it: integer keys come
    in ascending order, whatever the order of the literal. *)
Definition BEDROCK_VERSIONS : list (Z * string) :=
  [(422, "1.16.201"); (448, "1.17.10"); (475, "1.18.0"); (503, "1.18.30");
   (527, "1.19.1"); (544, "1.19.20"); (554, "1.19.30"); (560, "1.19.50");
   (568, "1.19.63"); (575, "1.19.70"); (582, "1.19.80"); (589, "1.20.0");
   (594, "1.20.10"); (618, "1.20.30"); (622, "1.20.40"); (630, "1.20.50");
   (649, "1.20.61"); (662, "1.20.71"); (671, "1.20.80"); (685, "1.21.0");
   (686, "1.21.2"); (712, "1.21.20"); (729, "1.21.30"); (748, "1.21.42");
   (766, "1.21.50"); (776, "1.21.60"); (786, "1.21.70"); (800, "1.21.80");
   (818, "1.21.90")].

Definition versionDocs : list obj :=
  (fun pn : Z * string =>
     ({["type" := VStr "bedrock"; "protocol" := VNum pn.1; "name" := VStr pn.2]} : obj))
    <$> BEDROCK_VERSIONS.

(** The third part. *)
Definition setup_versions (st : Store) : Store :=
  if bool_decide (Versions.countDocuments st = 0%nat)
  then writeDb_versions versionDocs st
  else st.

(** [setupInitialConfig()], once the data directory exists. *)
Definition setupInitialConfig (now : string) (st : Store) : Store :=
  setup_versions (setup_config (setup_admin now st)).

(** ** checkUserSubscription *)

(** What a subscription check does towards Telegram. *)
Inductive sub_effect : Type :=
  | GetChatMember (channel : prim)
  | ReplySubscribe (unsubscribed : list prim).

(** [config.requiredChannels || []], for a setting that is an array or
    is falsy; [None] for any other value, which the model leaves out. *)
Definition requiredChannels (st : Store) : option (list prim) :=
  match config st !! "requiredChannels" with
  | Some (VArr l) => Some l
  | v => if truthy v then None else Some []
  end.

(** Whether a channel goes to [unsubscribed]: [getChatMember] was
    rejected ([None]) or answered with the status [left] or [kicked]. *)
Definition not_member (member : prim -> option string) (channel : prim) : bool :=
  match member channel with
  | Some status => bool_decide (status = "left") || bool_decide (status = "kicked")
  | None => true
  end.

(** [checkUserSubscription(ctx, silent)] for the sender [userId]:
    the answer, the cache and what was asked of Telegram.  [now] is the
    time at which the cache is read, [now'] the time at which it is
    filled; [member] answers [getChatMember] for this user. *)
Definition checkUserSubscription (silent : bool) (member : prim -> option string)
    (userId : Z) (now now' : Z) (st : Store) (subscriptionCache : cache bool)
  : option (bool * cache bool * list sub_effect) :=
  match getFromCache subscriptionCache userId now with
  | (Some cachedStatus, c1) => Some (cachedStatus, c1, [])
  | (None, c1) =>
      match requiredChannels st with
      | None => None
      | Some channels =>
          if bool_decide (length channels = 0%nat)
          then Some (true, setToCache c1 userId true 3600 now', [])
          else
            let unsubscribed := List.filter (not_member member) channels in
            let asked : list sub_effect := GetChatMember <$> channels in
            if bool_decide (0 < length unsubscribed)%nat
            then Some (false, setToCache c1 userId false 300 now',
                       (asked ++ if silent then []
                                 else [ReplySubscribe unsubscribed])%list)
            else Some (true, setToCache c1 userId true 300 now', asked)
      end
  end.

(** * Properties *)

(** ** Values, lists and objects *)

Example strict_eq_undefined : strict_eq None None = true.
Proof. reflexivity. Qed.

Example status_utf8 : strict_eq (Some (VStr "نشط")) (Some (VStr "نشط")) = true.
Proof. reflexivity. Qed.

Example key_of_number : to_property_key (Some (VNum 818)) = "818".
Proof. vm_compute. reflexivity. Qed.

Lemma strict_eq_true (a b : jsval) : strict_eq a b = true -> a = b.
Proof.
  destruct a as [[p|l]|], b as [[q|l']|]; simpl; try discriminate; auto.
  intros H. apply bool_decide_eq_true in H. by subst.
Qed.

Lemma strict_eq_prim (p : prim) : strict_eq (Some (VPrim p)) (Some (VPrim p)) = true.
Proof. simpl. by apply bool_decide_eq_true. Qed.

Lemma spread_lookup (r : obj) (p : payload) (k : string) :
  spread r p !! k = match p !! k with
                    | Some v => v
                    | None => r !! k
                    end.
Proof.
  unfold spread. rewrite lookup_merge.
  destruct (r !! k) as [x|], (p !! k) as [[y|]|]; reflexivity.
Qed.

Lemma spread_untouched (r : obj) (p : payload) (k : string) :
  p !! k = None -> spread r p !! k = r !! k.
Proof. intros H. by rewrite spread_lookup, H. Qed.

Lemma matches_singleton (k : string) (v : jsval) (r : obj) :
  matches {[k := v]} r = strict_eq (r !! k) v.
Proof.
  unfold matches. rewrite map_to_list_singleton. simpl. by rewrite andb_true_r.
Qed.

Lemma singleton_query_nonempty (k : string) (v : jsval) :
  bool_decide (map_to_list ({[k := v]} : payload) = []) = false.
Proof. apply bool_decide_eq_false. by rewrite map_to_list_singleton. Qed.

Lemma Servers_find_all (st : Store) : Servers.find ∅ st = servers st.
Proof. unfold Servers.find. by rewrite map_to_list_empty. Qed.

Lemma Versions_find_all (st : Store) : Versions.find ∅ st = versions st.
Proof. unfold Versions.find. by rewrite map_to_list_empty. Qed.

Lemma Servers_find_by (k : string) (v : jsval) (st : Store) :
  Servers.find {[k := v]} st =
  List.filter (fun s => strict_eq (s !! k) v) (servers st).
Proof.
  unfold Servers.find. rewrite singleton_query_nonempty.
  induction (servers st) as [|s l IH]; simpl; [done|].
  rewrite matches_singleton, IH. done.
Qed.

Section ListFacts.

Context {A : Type}.
Implicit Types (p : A -> bool) (l : list A).

Lemma findIndex_spec p l i :
  findIndex p l = Some i ->
  exists x, l !! i = Some x /\ p x = true /\
            forall j y, (j < i)%nat -> l !! j = Some y -> p y = false.
Proof.
  revert i. induction l as [|a l IH]; intros i; simpl; [discriminate|].
  destruct (p a) eqn:Ha.
  - intros [= <-]. exists a. repeat split; auto. intros j y Hj. lia.
  - destruct (findIndex p l) as [k|] eqn:Hk; simpl; [|discriminate].
    intros [= <-]. destruct (IH k eq_refl) as (x & Hx & Hpx & Hlt).
    exists x. repeat split; auto.
    intros [|j] y Hj; simpl.
    + intros [= <-]. done.
    + apply Hlt. lia.
Qed.

Lemma find_findIndex p l x :
  List.find p l = Some x ->
  exists i, findIndex p l = Some i /\ l !! i = Some x.
Proof.
  induction l as [|a l IH]; simpl; [discriminate|].
  destruct (p a) eqn:Ha.
  - intros [= <-]. by exists 0%nat.
  - intros H. destruct (IH H) as (i & Hi & Hx).
    exists (S i). by rewrite Hi.
Qed.

Lemma find_None_findIndex p l :
  List.find p l = None -> findIndex p l = None.
Proof.
  induction l as [|a l IH]; simpl; [done|].
  destruct (p a); [discriminate|]. intros H. by rewrite IH.
Qed.

(** Altering the first match into something that still matches keeps it
    the first match. *)
Lemma find_alter_first p l i x (f : A -> A) :
  findIndex p l = Some i -> l !! i = Some x -> p (f x) = true ->
  List.find p (alter f i l) = Some (f x).
Proof.
  revert i. induction l as [|a l IH]; intros i; simpl; [discriminate|].
  destruct (p a) eqn:Ha.
  - intros [= <-] [= <-] Hf. simpl. by rewrite Hf.
  - destruct (findIndex p l) as [k|] eqn:Hk; simpl; [|discriminate].
    intros [= <-] Hx Hf. simpl in Hx. simpl. rewrite Ha. by apply IH.
Qed.

Lemma filter_all_length (p : A -> bool) l :
  length (List.filter p l) = length l -> List.filter p l = l.
Proof.
  induction l as [|a l IH]; simpl; [done|].
  destruct (p a); simpl.
  - intros [= H]. by rewrite IH.
  - intros H. pose proof (List.filter_length_le p l). lia.
Qed.

Lemma filter_length_lt_iff (p : A -> bool) l :
  (length (List.filter (fun x => negb (p x)) l) < length l)%nat <->
  existsb p l = true.
Proof.
  induction l as [|a l IH]; simpl; [split; [lia|discriminate]|].
  pose proof (List.filter_length_le (fun x => negb (p x)) l).
  destruct (p a); simpl.
  - split; [done|lia].
  - rewrite <- IH. lia.
Qed.

End ListFacts.

(** ** deleteOne *)

Lemma existsb_false_filter_negb {A} (p : A -> bool) (l : list A) :
  existsb p l = false -> List.filter (fun x => negb (p x)) l = l.
Proof.
  induction l as [|a l IH]; simpl; [done|].
  destruct (p a); simpl; [discriminate|]. intros H. by rewrite IH.
Qed.

(** C10.  [Servers.deleteOne] and [Versions.deleteOne] drop every record
    that matches the query and keep the others in their order; the
    [deletedCount] they report is 1 when some record matched, however
    many were dropped, and 0 when none did. *)
Theorem deleteOne_removes_every_match (query : payload) (st : Store) :
  (servers (Servers.deleteOne query st).2
     = List.filter (fun s => negb (matches query s)) (servers st)
   /\ (Servers.deleteOne query st).1
     = (if existsb (matches query) (servers st) then 1 else 0)%nat
   /\ Forall (fun s => matches query s = false)
             (servers (Servers.deleteOne query st).2))
  /\
  (versions (Versions.deleteOne query st).2
     = List.filter (fun v => negb (matches query v)) (versions st)
   /\ (Versions.deleteOne query st).1
     = (if existsb (matches query) (versions st) then 1 else 0)%nat
   /\ Forall (fun v => matches query v = false)
             (versions (Versions.deleteOne query st).2)).
Proof.
  assert (Hall : forall l : list obj,
             Forall (fun s => matches query s = false)
                    (List.filter (fun s => negb (matches query s)) l)).
  { intros l. apply List.Forall_forall. intros s Hs.
    apply List.filter_In in Hs as [_ Hs]. by apply negb_true_iff in Hs. }
  split.
  - unfold Servers.deleteOne. rewrite (Servers_find_all st).
    destruct (existsb (matches query) (servers st)) eqn:Hex.
    + rewrite bool_decide_eq_true_2 by (by apply filter_length_lt_iff).
      simpl. auto.
    + rewrite bool_decide_eq_false_2.
      2:{ intros H. apply filter_length_lt_iff in H. congruence. }
      simpl. rewrite existsb_false_filter_negb by done.
      repeat split; auto. specialize (Hall (servers st)).
      by rewrite existsb_false_filter_negb in Hall.
  - unfold Versions.deleteOne. rewrite (Versions_find_all st).
    destruct (existsb (matches query) (versions st)) eqn:Hex.
    + rewrite bool_decide_eq_true_2 by (by apply filter_length_lt_iff).
      simpl. auto.
    + rewrite bool_decide_eq_false_2.
      2:{ intros H. apply filter_length_lt_iff in H. congruence. }
      simpl. rewrite existsb_false_filter_negb by done.
      repeat split; auto. specialize (Hall (versions st)).
      by rewrite existsb_false_filter_negb in Hall.
Qed.

(** Two versions with protocol 800: both go, [deletedCount] is 1. *)
Example deleteOne_two_matches :
  let v800 name : obj := {["type" := VStr "bedrock"; "protocol" := VNum 800;
                           "name" := VStr name]} in
  let v818 : obj := {["type" := VStr "bedrock"; "protocol" := VNum 818;
                      "name" := VStr "1.21.90"]} in
  let st := mkStore [] [] ∅ [v800 "1.21.80"; v818; v800 "1.21.81"] ∅ false in
  Versions.deleteOne {["protocol" := Some (VNum 800)]} st
  = (1%nat, writeDb_versions [v818] st).
Proof. vm_compute. reflexivity. Qed.

(** ** Versions.create *)

Lemma existsb_protocol (n : Z) (l : list obj) :
  existsb (fun v => strict_eq (v !! "protocol") (Some (VNum n))) l = true <->
  exists v, v ∈ l /\ v !! "protocol" = Some (VNum n).
Proof.
  rewrite List.existsb_exists. split.
  - intros (v & Hin & Heq). exists v. split; [by apply list_elem_of_In|].
    by apply strict_eq_true.
  - intros (v & Hin & Heq). exists v. split; [by apply list_elem_of_In|].
    rewrite Heq. apply strict_eq_prim.
Qed.

(** C6.  [Versions.create] of a record with protocol number [n]: when the
    collection already holds a record with protocol [n] it throws the
    duplicate-key error and the store is exactly what it was, write queue
    included; otherwise nothing is thrown, the record is appended to the
    versions and no other collection changes. *)
Theorem Versions_create_unique (versionData : obj) (n : Z) (st : Store) :
  versionData !! "protocol" = Some (VNum n) ->
  ((exists v, v ∈ versions st /\ v !! "protocol" = Some (VNum n)) ->
     Versions.create versionData st = (Some DuplicateKey, st))
  /\
  (~ (exists v, v ∈ versions st /\ v !! "protocol" = Some (VNum n)) ->
     exists st',
       Versions.create versionData st = (None, st')
       /\ versions st' = (versions st ++ [versionData])%list
       /\ users st' = users st
       /\ servers st' = servers st
       /\ config st' = config st
       /\ "versions.json" ∈ writeQueue st').
Proof.
  intros Hn. unfold Versions.create. rewrite (Versions_find_all st), Hn.
  split; intros Hdup.
  - apply existsb_protocol in Hdup. by rewrite Hdup.
  - destruct (existsb _ (versions st)) eqn:Hex.
    + apply existsb_protocol in Hex. contradiction.
    + eexists. split; [reflexivity|]. simpl. repeat split; auto. set_solver.
Qed.

Lemma Versions_create_unique_witness :
  Versions.create v818 table_818 = (Some DuplicateKey, table_818)
  /\ exists st', Versions.create v800 table_818 = (None, st')
                 /\ versions st' = [v818; v800].
Proof.
  split.
  - apply (Versions_create_unique v818 818 table_818); [reflexivity|].
    exists v818. split; [apply list_elem_of_here | reflexivity].
  - destruct (Versions_create_unique v800 800 table_818 eq_refl) as [_ H].
    destruct H as (st' & Hc & Hv & _).
    + intros (v & Hin & Hp). apply list_elem_of_singleton in Hin. subst v.
      vm_compute in Hp. discriminate.
    + exists st'. split; [exact Hc | exact Hv].
Defined.

(** ** loadDb *)

Lemma readWithDefault_usable {A} (r : attempt A) (d : A) :
  usable r -> readWithDefault r d = inr (data_or r d).
Proof.
  destruct r as [e|x]; simpl; [|done].
  intros [H|H].
  - by rewrite (bool_decide_true _ H).
  - rewrite H. by rewrite orb_true_r.
Qed.

Lemma readWithDefault_unusable {A} (r : attempt A) (d : A) :
  ~ usable r -> exists e, r = inl e /\ readWithDefault r d = inl e.
Proof.
  destruct r as [e|x]; simpl; [|tauto].
  intros H. exists e. split; [done|].
  destruct (bool_decide (err_code e = Some "ENOENT")) eqn:Hc.
  - apply bool_decide_eq_true in Hc. exfalso. apply H. by left.
  - destruct (err_is_syntax e) eqn:Hs; [|done]. exfalso. apply H. by right.
Qed.

Lemma decide_usable {A} (r : attempt A) : usable r \/ ~ usable r.
Proof.
  destruct r as [e|x]; simpl; [|by left]. unfold recoverable.
  destruct (decide (err_code e = Some "ENOENT")) as [H|H]; [by left; left|].
  destruct (err_is_syntax e); [by left; right|].
  right. intros [H1|H1]; [contradiction|discriminate].
Qed.

(** C7, as stated, fails: with the storage directory in place, a
    backing file that cannot be read for a reason other than absence or a
    syntax error ends [loadDb] in [process.exit(1)]. *)
Lemma loadDb_unreadable_file_is_fatal :
  ~ (forall d : disk, mkdir_result d = None -> exists st, loadDb d = Loaded st).
Proof.
  intros H. destruct (H disk_no_permission eq_refl) as [st Hst].
  vm_compute in Hst. discriminate.
Qed.

(** C7, amended.  With the storage directory in place, [loadDb] loads
    the store when every backing file is either read and parsed, or
    missing ([ENOENT]), or not parsable ([SyntaxError]), a file of the
    last two kinds giving the empty collection; the write queue starts
    empty.  It is fatal when the directory cannot be created, and also
    when some file fails to be read with any other error. *)
Theorem loadDb_defaults (d : disk) :
  (mkdir_result d = None ->
   usable (config_json d) -> usable (users_json d) ->
   usable (servers_json d) -> usable (versions_json d) ->
   loadDb d = Loaded (mkStore (data_or (users_json d) [])
                              (data_or (servers_json d) [])
                              (data_or (config_json d) ∅)
                              (data_or (versions_json d) [])
                              ∅ false))
  /\
  (forall e, mkdir_result d = Some e -> loadDb d = Fatal e)
  /\
  (~ (usable (config_json d) /\ usable (users_json d) /\
      usable (servers_json d) /\ usable (versions_json d)) ->
   exists e, loadDb d = Fatal e).
Proof.
  unfold loadDb. repeat split.
  - intros -> Hc Hu Hs Hv.
    by rewrite (readWithDefault_usable _ _ Hc), (readWithDefault_usable _ _ Hu),
         (readWithDefault_usable _ _ Hs), (readWithDefault_usable _ _ Hv).
  - by intros e ->.
  - intros Hnot. destruct (mkdir_result d) as [e|]; [by exists e|].
    destruct (decide_usable (config_json d)) as [Hc|Hc].
    2:{ destruct (readWithDefault_unusable _ ∅ Hc) as (e & _ & ->). by exists e. }
    rewrite (readWithDefault_usable _ _ Hc).
    destruct (decide_usable (users_json d)) as [Hu|Hu].
    2:{ destruct (readWithDefault_unusable _ [] Hu) as (e & _ & ->). by exists e. }
    rewrite (readWithDefault_usable _ _ Hu).
    destruct (decide_usable (servers_json d)) as [Hs|Hs].
    2:{ destruct (readWithDefault_unusable _ [] Hs) as (e & _ & ->). by exists e. }
    rewrite (readWithDefault_usable _ _ Hs).
    destruct (decide_usable (versions_json d)) as [Hv|Hv].
    2:{ destruct (readWithDefault_unusable _ [] Hv) as (e & _ & ->). by exists e. }
    exfalso. apply Hnot. auto.
Qed.

Lemma loadDb_defaults_witness :
  loadDb disk_partial = Loaded (mkStore [] [v818] ∅ [] ∅ false)
  /\ loadDb (mkDisk (Some EACCES) (inr ∅) (inr []) (inr []) (inr [])) = Fatal EACCES
  /\ exists e, loadDb disk_no_permission = Fatal e.
Proof.
  split; [|split].
  - apply (proj1 (loadDb_defaults disk_partial)); simpl; unfold recoverable; simpl; auto.
  - apply (proj1 (proj2 (loadDb_defaults _))). reflexivity.
  - apply (proj2 (proj2 (loadDb_defaults disk_no_permission))).
    simpl. unfold recoverable. simpl. intros (_ & _ & [H|H] & _); discriminate.
Defined.

(** ** updateOne *)

(** C9, as stated, fails on the servers: an add-to-set update is merged
    like any other, so the array field is overwritten by the value
    instead of gaining it. *)
Lemma Servers_updateOne_ignores_verb :
  servers (Servers.updateOne {["_id" := Some (VStr "a1")]}
             (document (AddToSet "tags" (PStr "y"))) tagged_store)
  = [ <["tags" := VStr "y"]> tagged_server ]
  /\ servers (Servers.updateOne {["_id" := Some (VStr "a1")]}
                (document (AddToSet "tags" (PStr "y"))) tagged_store)
     <> alter (spec_apply (AddToSet "tags" (PStr "y"))) 0%nat (servers tagged_store).
Proof.
  split.
  - vm_compute. reflexivity.
  - intros H.
    apply (f_equal (fun l : list obj => l !! 0%nat ≫= (fun r => r !! "tags"))) in H.
    vm_compute in H. discriminate.
Qed.

Lemma updateOne_alter (fields : payload) (l : list obj) (i : nat) (r : obj) :
  l !! i = Some r ->
  exists r',
    alter (fun x => spread x fields) i l !! i = Some r'
    /\ (forall k, r' !! k = match fields !! k with
                            | Some v => v
                            | None => r !! k
                            end)
    /\ (forall j, j <> i -> alter (fun x => spread x fields) i l !! j = l !! j).
Proof.
  intros Hr. exists (spread r fields). split; [|split].
  - rewrite list_lookup_alter_eq, Hr. done.
  - intros k. apply spread_lookup.
  - intros j Hj. by rewrite list_lookup_alter_ne.
Qed.

Lemma Servers_updateOne_at (st : Store) (id : jsval) (u : update) (i : nat) :
  findIndex (fun s => strict_eq (s !! "_id") id) (servers st) = Some i ->
  Servers.updateOne {["_id" := id]} u st =
  writeDb_servers (alter (fun r => spread r (first_payload u)) i (servers st)) st.
Proof.
  intros Hi. unfold Servers.updateOne.
  rewrite (Servers_find_all st), lookup_singleton_eq. simpl. by rewrite Hi.
Qed.

Lemma Servers_updateOne_absent (st : Store) (id : jsval) (u : update) :
  findIndex (fun s => strict_eq (s !! "_id") id) (servers st) = None ->
  Servers.updateOne {["_id" := id]} u st = st.
Proof.
  intros Hi. unfold Servers.updateOne.
  rewrite (Servers_find_all st), lookup_singleton_eq. simpl. by rewrite Hi.
Qed.

Lemma Config_key (k : string) :
  to_property_key (mjoin (({["key" := Some (VStr k)]} : payload) !! "key")) = k.
Proof. by rewrite lookup_singleton_eq. Qed.

(** C9, amended.  [Servers.updateOne] selects the first record whose
    [_id] is the one asked for, [Users.updateOne] the first record that
    matches the query; both merge the fields of the payload into it
    whatever the verb of the update is called, and leave the other
    records alone.  Only [Config.updateOne], which selects an entry of the
    settings by its key, tells the verbs apart: [$set] assigns the value,
    [$addToSet] appends it to an array that lacks it, [$pull] removes it
    from an array. *)
Theorem updateOne_by_collection :
  (forall (st : Store) (id : jsval) (verbName : string) (fields : payload)
          (rest : update) (i : nat) (r : obj),
      findIndex (fun s => strict_eq (s !! "_id") id) (servers st) = Some i ->
      servers st !! i = Some r ->
      exists r',
        servers (Servers.updateOne {["_id" := id]} ((verbName, fields) :: rest) st) !! i
          = Some r'
        /\ (forall k, r' !! k = match fields !! k with
                                | Some v => v
                                | None => r !! k
                                end)
        /\ (forall j, j <> i ->
              servers (Servers.updateOne {["_id" := id]} ((verbName, fields) :: rest) st) !! j
              = servers st !! j))
  /\
  (forall (st : Store) (query : payload) (verbName : string) (fields : payload)
          (rest : update) (i : nat) (r : obj),
      findIndex (matches query) (users st) = Some i ->
      users st !! i = Some r ->
      exists r',
        users (Users.updateOne query ((verbName, fields) :: rest) st) !! i = Some r'
        /\ (forall k, r' !! k = match fields !! k with
                                | Some v => v
                                | None => r !! k
                                end)
        /\ (forall j, j <> i ->
              users (Users.updateOne query ((verbName, fields) :: rest) st) !! j
              = users st !! j))
  /\
  (forall (st : Store) (k : string) (v : prim) (upsert : bool),
      exists st',
        Config.updateOne {["key" := Some (VStr k)]} [("$set", Some v)] upsert st = inr st'
        /\ config st' !! k = Some (VPrim v)
        /\ (forall k', k' <> k -> config st' !! k' = config st !! k'))
  /\
  (forall (st : Store) (k : string) (v : prim) (arr : list prim) (upsert : bool),
      config st !! k = Some (VArr arr) ->
      exists st',
        Config.updateOne {["key" := Some (VStr k)]} [("$addToSet", Some v)] upsert st = inr st'
        /\ config st' !! k
           = Some (VArr (if bool_decide (v ∈ arr) then arr else arr ++ [v]))
        /\ (forall k', k' <> k -> config st' !! k' = config st !! k'))
  /\
  (forall (st : Store) (k : string) (v : prim) (arr : list prim) (upsert : bool),
      config st !! k = Some (VArr arr) ->
      exists st',
        Config.updateOne {["key" := Some (VStr k)]} [("$pull", Some v)] upsert st = inr st'
        /\ config st' !! k
           = Some (VArr (List.filter (fun x => negb (bool_decide (x = v))) arr))
        /\ (forall k', k' <> k -> config st' !! k' = config st !! k')).
Proof.
  split; [|split; [|split; [|split]]].
  - intros st id verbName fields rest i r Hi Hr.
    rewrite (Servers_updateOne_at st id _ i Hi). simpl.
    by apply updateOne_alter.
  - intros st query verbName fields rest i r Hi Hr.
    unfold Users.updateOne, Users.find. rewrite Hi. simpl.
    by apply updateOne_alter.
  - intros st k v upsert. unfold Config.updateOne. rewrite Config_key.
    eexists. split; [reflexivity|]. simpl. split.
    + by rewrite lookup_insert_eq.
    + intros k' Hk'. by rewrite lookup_insert_ne.
  - intros st k v arr upsert Harr. unfold Config.updateOne. rewrite Config_key.
    change (Config.verb "$set" [("$addToSet", Some v)]) with (@None jsprim).
    change (Config.verb "$addToSet" [("$addToSet", Some v)]) with (Some (Some v)).
    cbv beta iota. unfold Config.addToSet. rewrite Harr. simpl.
    destruct (bool_decide (v ∈ arr)); (eexists; split; [reflexivity|]); simpl;
      (split; [by rewrite lookup_insert_eq|]);
      intros k' Hk'; by rewrite lookup_insert_ne.
  - intros st k v arr upsert Harr. unfold Config.updateOne. rewrite Config_key.
    change (Config.verb "$set" [("$pull", Some v)]) with (@None jsprim).
    change (Config.verb "$addToSet" [("$pull", Some v)]) with (@None jsprim).
    change (Config.verb "$pull" [("$pull", Some v)]) with (Some (Some v)).
    cbv beta iota. unfold Config.pullFrom. rewrite Harr. simpl.
    eexists. split; [reflexivity|]. simpl. split.
    + rewrite lookup_insert_eq. unfold Config.pull. do 2 f_equal.
      apply List.filter_ext. intros x. f_equal.
      apply bool_decide_ext. split; congruence.
    + intros k' Hk'. by rewrite lookup_insert_ne.
Qed.

Lemma updateOne_by_collection_witness :
  (exists r',
      servers (Servers.updateOne {["_id" := Some (VStr "a1")]}
                 [("$addToSet", {["tags" := Some (VStr "y")]})] tagged_store) !! 0%nat
      = Some r'
      /\ r' !! "tags" = Some (VStr "y"))
  /\
  (exists r',
      users (Users.updateOne {["userId" := Some (VNum 7)]}
               [("$set", {["isBanned" := Some (VBool true)]})] channels_store) !! 0%nat
      = Some r'
      /\ r' !! "isBanned" = Some (VBool true))
  /\
  (exists st',
      Config.updateOne {["key" := Some (VStr "requiredChannels")]}
        [("$addToSet", Some (PStr "@b"))] true channels_store = inr st'
      /\ config st' !! "requiredChannels" = Some (VArr [PStr "@a"; PStr "@b"]))
  /\
  (exists st',
      Config.updateOne {["key" := Some (VStr "requiredChannels")]}
        [("$pull", Some (PStr "@a"))] false channels_store = inr st'
      /\ config st' !! "requiredChannels" = Some (VArr [])).
Proof.
  destruct updateOne_by_collection as (Hs & Hu & _ & Ha & Hp).
  split; [|split; [|split]].
  - destruct (Hs tagged_store (Some (VStr "a1")) "$addToSet"
                 {["tags" := Some (VStr "y")]} [] 0%nat tagged_server
                 eq_refl eq_refl) as (r' & H1 & H2 & _).
    exists r'. split; [exact H1|]. rewrite H2. reflexivity.
  - assert (Hi : findIndex (matches {["userId" := Some (VNum 7)]})
                             (users channels_store) = Some 0%nat)
      by (vm_compute; reflexivity).
    destruct (Hu channels_store {["userId" := Some (VNum 7)]} "$set"
                 {["isBanned" := Some (VBool true)]} [] 0%nat
                 {["userId" := VNum 7; "isBanned" := VBool false]}
                 Hi eq_refl) as (r' & H1 & H2 & _).
    exists r'. split; [exact H1|]. rewrite H2. reflexivity.
  - destruct (Ha channels_store "requiredChannels" (PStr "@b") [PStr "@a"] true
                 eq_refl) as (st' & H1 & H2 & _).
    exists st'. split; [exact H1|]. rewrite H2. reflexivity.
  - destruct (Hp channels_store "requiredChannels" (PStr "@a") [PStr "@a"] false
                 eq_refl) as (st' & H1 & H2 & _).
    exists st'. split; [exact H1|]. rewrite H2. reflexivity.
Defined.

(** ** The supervisor: how the store moves *)

Lemma store_edit c m w : store (edit c m w) = store w.
Proof. by destruct c. Qed.

Lemma store_manageServerAction c id w : store (manageServerAction c id w) = store w.
Proof.
  unfold manageServerAction.
  destruct (Servers.findById id (store w)); apply store_edit.
Qed.

Lemma findById_id (id : jsval) (st : Store) (server : obj) :
  Servers.findById id st = Some server -> server !! "_id" = id.
Proof.
  unfold Servers.findById. intros H. apply List.find_some in H as [_ H].
  by apply strict_eq_true.
Qed.

Lemma findIndex_alter_first {A} (p : A -> bool) (l : list A) (i : nat) (x : A)
    (f : A -> A) :
  findIndex p l = Some i -> l !! i = Some x -> p (f x) = true ->
  findIndex p (alter f i l) = Some i.
Proof.
  revert i. induction l as [|a l IH]; intros i; simpl; [discriminate|].
  destruct (p a) eqn:Ha.
  - intros [= <-] [= <-] Hf. simpl. by rewrite Hf.
  - destruct (findIndex p l) as [k|] eqn:Hk; simpl; [|discriminate].
    intros [= <-] Hx Hf. simpl in Hx.
    change (alter f (S k) (a :: l)) with (a :: alter f k l).
    simpl. rewrite Ha. by rewrite (IH k eq_refl Hx Hf).
Qed.

Lemma alter_fixed {A} (f : A -> A) (l : list A) (i : nat) (x : A) :
  l !! i = Some x -> f x = x -> alter f i l = l.
Proof.
  revert i. induction l as [|a l IH]; intros [|i]; simpl; try discriminate.
  - intros [= ->] ->. done.
  - intros Hx Hf. f_equal. by apply IH.
Qed.

Lemma spread_spread (r : obj) (p : payload) : spread (spread r p) p = spread r p.
Proof.
  apply map_eq. intros k. rewrite !spread_lookup.
  by destruct (p !! k).
Qed.

Lemma findById_index (id : jsval) (st : Store) (server : obj) :
  Servers.findById id st = Some server ->
  exists i,
    findIndex (fun s => strict_eq (s !! "_id") id) (servers st) = Some i
    /\ servers st !! i = Some server
    /\ server !! "_id" = id.
Proof.
  intros Hf. pose proof (findById_id _ _ _ Hf) as Hid.
  unfold Servers.findById in Hf. rewrite (Servers_find_all st) in Hf.
  destruct (find_findIndex _ _ _ Hf) as (i & Hi & Hcur). by exists i.
Qed.

Lemma findById_None (id : jsval) (st : Store) :
  Servers.findById id st = None ->
  findIndex (fun s => strict_eq (s !! "_id") id) (servers st) = None.
Proof.
  unfold Servers.findById. rewrite (Servers_find_all st).
  apply find_None_findIndex.
Qed.

Lemma writeDb_servers_twice (l : list obj) (st : Store) :
  writeDb_servers l (writeDb_servers l st) = writeDb_servers l st.
Proof.
  unfold writeDb_servers, enqueue. simpl. f_equal.
  by rewrite (assoc_L (∪)), (idemp_L (∪)).
Qed.

(** [Servers.updateOne] on a record that is there: the first record with
    that [_id] receives the fields, stays where it was and is still the
    one that [findById] returns. *)
Lemma updateOne_found (st : Store) (id : jsval) (fields : payload)
    (i : nat) (cur : obj) :
  findIndex (fun s => strict_eq (s !! "_id") id) (servers st) = Some i ->
  servers st !! i = Some cur ->
  fields !! "_id" = None ->
  Servers.updateOne {["_id" := id]} (set_fields fields) st
    = writeDb_servers (alter (fun r => spread r fields) i (servers st)) st
  /\ findIndex (fun s => strict_eq (s !! "_id") id)
               (alter (fun r => spread r fields) i (servers st)) = Some i
  /\ alter (fun r => spread r fields) i (servers st) !! i = Some (spread cur fields)
  /\ Servers.findById id
       (writeDb_servers (alter (fun r => spread r fields) i (servers st)) st)
     = Some (spread cur fields).
Proof.
  intros Hi Hcur Hid.
  assert (Hp : strict_eq (spread cur fields !! "_id") id = true).
  { rewrite (spread_untouched _ _ _ Hid).
    destruct (findIndex_spec _ _ _ Hi) as (x & Hx & Hpx & _). congruence. }
  split; [by apply Servers_updateOne_at|]. split; [|split].
  - by apply (findIndex_alter_first _ _ i cur).
  - by rewrite list_lookup_alter_eq, Hcur.
  - unfold Servers.findById. rewrite (Servers_find_all (writeDb_servers _ _)).
    simpl. by apply (find_alter_first _ _ i cur (fun r => spread r fields)).
Qed.

Lemma store_setFields server fields w :
  store (setFields server fields w)
  = Servers.updateOne {["_id" := server !! "_id"]} (set_fields fields) (store w).
Proof. reflexivity. Qed.

Lemma signals_emit e w :
  signals (emit e w) = (signals w ++ match e with
                                    | Signal p _ => [p]
                                    | _ => []
                                    end)%list.
Proof.
  unfold signals, emit. simpl. rewrite omap_app. simpl.
  by destruct e.
Qed.

Lemma signals_edit c m w : signals (edit c m w) = signals w.
Proof.
  destruct c; [|done]. simpl. rewrite signals_emit. by rewrite app_nil_r.
Qed.

Lemma signals_manageServerAction c id w :
  signals (manageServerAction c id w) = signals w.
Proof.
  unfold manageServerAction.
  destruct (Servers.findById id (store w)); apply signals_edit.
Qed.

(** ** stopBot *)

(** What [stopBot] does to the store does not depend on the context nor
    on the process table. *)
Lemma stopBot_store c id w :
  store (stopBot c id w)
  = match Servers.findById id (store w) with
    | Some server =>
        Servers.updateOne {["_id" := server !! "_id"]} (set_fields stop_fields) (store w)
    | None => store w
    end.
Proof.
  unfold stopBot. destruct (Servers.findById id (store w)) as [server|].
  - rewrite store_manageServerAction.
    destruct c; simpl;
      (destruct (truthy (server !! "botPid") && kill_succeeds w (server !! "botPid"));
       [destruct (server !! "botPid") as [[[| |p|]|]|]|]; reflexivity).
  - apply store_edit.
Qed.

Lemma stopBot_found c id w server :
  Servers.findById id (store w) = Some server ->
  exists i,
    findIndex (fun s => strict_eq (s !! "_id") id) (servers (store w)) = Some i
    /\ servers (store w) !! i = Some server
    /\ store (stopBot c id w)
       = writeDb_servers
           (alter (fun r => spread r stop_fields) i (servers (store w))) (store w)
    /\ Servers.findById id (store (stopBot c id w)) = Some (spread server stop_fields).
Proof.
  intros Hf. destruct (findById_index _ _ _ Hf) as (i & Hi & Hcur & Hid).
  destruct (updateOne_found (store w) id stop_fields i server Hi Hcur eq_refl)
    as (Hupd & _ & Hnew & Hfind).
  exists i. split; [done|]. split; [done|].
  rewrite stopBot_store, Hf, Hid, Hupd. auto.
Qed.

Lemma stopBot_signals_none c id w server :
  Servers.findById id (store w) = Some server ->
  truthy (server !! "botPid") = false ->
  signals (stopBot c id w) = signals w.
Proof.
  intros Hf Hp. unfold stopBot. rewrite Hf, Hp. simpl.
  rewrite signals_manageServerAction. destruct c; [|done].
  rewrite signals_emit. by rewrite app_nil_r.
Qed.

Lemma stop_fields_lookup (r : obj) :
  spread r stop_fields !! "status" = Some (VStr ST_STOPPED)
  /\ spread r stop_fields !! "autoRestart" = Some (VBool false)
  /\ spread r stop_fields !! "botPid" = Some VNull
  /\ (forall k, k <> "status" -> k <> "autoRestart" -> k <> "botPid" ->
        spread r stop_fields !! k = r !! k).
Proof.
  rewrite !spread_lookup. repeat split.
  intros k H1 H2 H3. rewrite spread_lookup. unfold stop_fields.
  rewrite !lookup_insert_ne by done. by rewrite lookup_singleton_ne.
Qed.

(** C5.  A second [stopBot] on the same target leaves the store as the
    first one left it and sends no signal.  Every [stopBot] on an existing
    target leaves it with [status] stopped, [autoRestart] false and
    [botPid] null, and touches no other field; the store that results is
    the same whether or not [process.kill] could deliver the signal.  On a
    target with no process id recorded no signal is sent, and on a target
    already in the state that [stopBot] leaves the collection does not
    change at all. *)
Theorem stopBot_idempotent (c c' : ctx) (serverId : jsval) (w : world) :
  (store (stopBot c' serverId (stopBot c serverId w)) = store (stopBot c serverId w)
   /\ signals (stopBot c' serverId (stopBot c serverId w))
      = signals (stopBot c serverId w))
  /\
  (forall w', store w' = store w ->
     store (stopBot c serverId w') = store (stopBot c serverId w))
  /\
  (forall server,
     Servers.findById serverId (store w) = Some server ->
     (exists server',
        Servers.findById serverId (store (stopBot c serverId w)) = Some server'
        /\ server' !! "status" = Some (VStr ST_STOPPED)
        /\ server' !! "autoRestart" = Some (VBool false)
        /\ server' !! "botPid" = Some VNull
        /\ (forall k, k <> "status" -> k <> "autoRestart" -> k <> "botPid" ->
              server' !! k = server !! k))
     /\ (truthy (server !! "botPid") = false ->
           signals (stopBot c serverId w) = signals w)
     /\ (server !! "status" = Some (VStr ST_STOPPED) ->
         server !! "autoRestart" = Some (VBool false) ->
         server !! "botPid" = Some VNull ->
           servers (store (stopBot c serverId w)) = servers (store w))).
Proof.
  split; [|split].
  - destruct (Servers.findById serverId (store w)) as [server|] eqn:Hf.
    + destruct (stopBot_found c serverId w server Hf) as (i & _ & Hcur & Hst & Hfind).
      destruct (stopBot_found c' serverId _ _ Hfind) as (j & _ & Hcur' & Hst' & _).
      split.
      * rewrite Hst'. rewrite (alter_fixed _ _ j _ Hcur' (spread_spread _ _)).
        rewrite Hst at 1 3. simpl. rewrite Hst. apply writeDb_servers_twice.
      * apply (stopBot_signals_none c' serverId _ _ Hfind).
        by rewrite (proj1 (proj2 (proj2 (stop_fields_lookup server)))).
    + assert (Hw : store (stopBot c serverId w) = store w)
        by (by rewrite stopBot_store, Hf).
      assert (Hf' : Servers.findById serverId (store (stopBot c serverId w)) = None)
        by (by rewrite Hw).
      split.
      * by rewrite (stopBot_store c'), Hf'.
      * unfold stopBot at 1. rewrite Hf'. apply signals_edit.
  - intros w' Hw. by rewrite !stopBot_store, Hw.
  - intros server Hf.
    destruct (stopBot_found c serverId w server Hf) as (i & _ & Hcur & Hst & Hfind).
    destruct (stop_fields_lookup server) as (H1 & H2 & H3 & H4).
    split; [|split].
    + exists (spread server stop_fields). auto.
    + by apply stopBot_signals_none.
    + intros Hs Ha Hp. rewrite Hst. simpl.
      apply (alter_fixed _ _ i server Hcur).
      apply map_eq. intros k.
      destruct (decide (k = "status")) as [->|Hk1]; [congruence|].
      destruct (decide (k = "autoRestart")) as [->|Hk2]; [congruence|].
      destruct (decide (k = "botPid")) as [->|Hk3]; [congruence|].
      by apply H4.
Qed.

Lemma stopBot_idempotent_witness :
  (exists server',
      Servers.findById a1 (store (stopBot (Some 1%nat) a1 running_world)) = Some server'
      /\ server' !! "status" = Some (VStr ST_STOPPED)
      /\ server' !! "autoRestart" = Some (VBool false)
      /\ server' !! "botPid" = Some VNull)
  /\ store (stopBot (Some 1%nat) a1 (initial running_store))
     = store (stopBot (Some 1%nat) a1 running_world)
  /\ signals (stopBot None a1 (initial idle_store)) = []
  /\ servers (store (stopBot None a1 (initial idle_store)))
     = [<["botPid" := VNull]> idle_target].
Proof.
  assert (Hf : Servers.findById a1 (store running_world) = Some running_target)
    by (vm_compute; reflexivity).
  assert (Hi : Servers.findById a1 (store (initial idle_store)) = Some idle_target)
    by (vm_compute; reflexivity).
  split; [|split; [|split]].
  - destruct (proj2 (proj2 (stopBot_idempotent (Some 1%nat) None a1 running_world))
                running_target Hf) as [(s' & H1 & H2 & H3 & H4 & _) _].
    exists s'. auto.
  - apply (proj1 (proj2 (stopBot_idempotent (Some 1%nat) None a1 running_world))).
    reflexivity.
  - apply (proj1 (proj2 (proj2 (proj2 (stopBot_idempotent None None a1
                                          (initial idle_store))) idle_target Hi))).
    vm_compute. reflexivity.
  - vm_compute. reflexivity.
Defined.

(** ** handleBotExit *)

Lemma handleBotExit_absent id c w :
  Servers.findById id (store w) = None -> handleBotExit id c w = w.
Proof. intros Hf. unfold handleBotExit. by rewrite Hf. Qed.

Lemma handleBotExit_not_active id c w server :
  Servers.findById id (store w) = Some server ->
  server !! "status" <> Some (VStr ST_ACTIVE) ->
  handleBotExit id c w = w.
Proof.
  intros Hf Hs. unfold handleBotExit. rewrite Hf.
  destruct (strict_eq (server !! "status") (Some (VStr ST_ACTIVE))) eqn:He; [|done].
  apply strict_eq_true in He. contradiction.
Qed.

Lemma store_emit e w : store (emit e w) = store w.
Proof. reflexivity. Qed.

Lemma store_setTimeout_restart id w : store (setTimeout_restart id w) = store w.
Proof. reflexivity. Qed.

(** What [handleBotExit] does to the store of a target that is active. *)
Lemma handleBotExit_store id c w server :
  Servers.findById id (store w) = Some server ->
  server !! "status" = Some (VStr ST_ACTIVE) ->
  store (handleBotExit id c w)
  = Servers.updateOne {["_id" := server !! "_id"]} (set_fields exit_fields) (store w).
Proof.
  intros Hf Hs. unfold handleBotExit. rewrite Hf, Hs, strict_eq_prim.
  cbv beta iota zeta. simpl negb. cbv iota.
  destruct (truthy (server !! "autoRestart")).
  - rewrite store_setTimeout_restart.
    destruct (Users.findOne _ _);
      [rewrite store_emit; destruct (truthy (server !! "notifyOnError"))|];
      reflexivity.
  - destruct c; [rewrite store_manageServerAction|];
      (destruct (Users.findOne _ _);
       [destruct (truthy (server !! "notifyOnError"))|]; reflexivity).
Qed.

Lemma handleBotExit_found id c w server :
  Servers.findById id (store w) = Some server ->
  server !! "status" = Some (VStr ST_ACTIVE) ->
  exists i,
    findIndex (fun s => strict_eq (s !! "_id") id) (servers (store w)) = Some i
    /\ servers (store w) !! i = Some server
    /\ store (handleBotExit id c w)
       = writeDb_servers
           (alter (fun r => spread r exit_fields) i (servers (store w))) (store w)
    /\ findIndex (fun s => strict_eq (s !! "_id") id)
                 (servers (store (handleBotExit id c w))) = Some i
    /\ Servers.findById id (store (handleBotExit id c w))
       = Some (spread server exit_fields).
Proof.
  intros Hf Hs. destruct (findById_index _ _ _ Hf) as (i & Hi & Hcur & Hid).
  destruct (updateOne_found (store w) id exit_fields i server Hi Hcur eq_refl)
    as (Hupd & Hidx & Hnew & Hfind).
  exists i. split; [done|]. split; [done|].
  rewrite (handleBotExit_store id c w server Hf Hs), Hid, Hupd. auto.
Qed.

Lemma spread_exit_stop (r : obj) :
  spread (spread r exit_fields) stop_fields = spread r stop_fields.
Proof.
  apply map_eq. intros k. rewrite !spread_lookup.
  destruct (stop_fields !! k) eqn:Hk; [done|].
  destruct (decide (k = "status")) as [->|H1]; [discriminate|].
  destruct (decide (k = "botPid")) as [->|H2]; [discriminate|].
  unfold exit_fields. rewrite lookup_insert_ne by done.
  by rewrite lookup_singleton_ne.
Qed.

(** C2.  A stop does not cancel a restart that an exit has already
    scheduled.  When the exit of a running target with [autoRestart] set
    is handled before the stop, the owner is notified once and the restart
    timer is armed once; the stop that follows records the target as
    stopped with [autoRestart] off, yet leaves the timer armed.  When the
    timer fires [startBot] goes ahead, and with the probe and the spawn
    succeeding the target that its owner has stopped runs again, under a
    new process, with [autoRestart] still off. *)
Lemma exit_before_stop_restarts :
  let w := run exited_world [EvChildExit 0; EvStop (Some 1%nat) a1] in
  timers w = [a1]
  /\ log w = [SendMessage (Some (VNum 7)) MsgDisconnected;
              SendMessage (Some (VNum 7)) MsgRestarting;
              RestartTimer a1;
              AnswerCbQuery 1 MsgStopped;
              EditMessage 1 (MsgMenu (spread running_target stop_fields))]
  /\ (status_of <$> target "a1" w) = Some Idle
  /\ ((fun s : obj => s !! "autoRestart") <$> target "a1" w)
     = Some (Some (VBool false))
  /\ (status_of <$> target "a1" (step w (EvTimer 0))) = Some Resolving
  /\ tasks (step w (EvTimer 0))
     = [AwaitSearchEdit None (spread running_target stop_fields)]
  /\ (let w' := run w [EvTimer 0; EvEdited 0;
                       EvProbed 0 (ProbeOk (Some (VNum 818)));
                       EvSpawn 0 (SpawnReturns (Some 101))] in
      (status_of <$> target "a1" w') = Some Running
      /\ (workerProcessId <$> target "a1" w') = Some (Some 101)
      /\ ((fun s : obj => s !! "autoRestart") <$> target "a1" w')
         = Some (Some (VBool false))
      /\ spawned w' = [101]
      /\ live_workers "a1" w' = [101]).
Proof. vm_compute. repeat split; reflexivity. Qed.

(** X28.  An exit reported for a target whose status is not active is
    ignored: nothing changes and nothing is sent.  So an exit handled
    after a stop of the same target leaves the world as the stop left it,
    with no restart timer and no notification, and an exit handled twice
    counts once.  Whichever of the stop and the exit is handled first,
    the records end up the same. *)
Theorem exit_after_stop_ignored (c c' : ctx) (serverId : jsval) (w : world) :
  (forall server,
     Servers.findById serverId (store w) = Some server ->
     server !! "status" <> Some (VStr ST_ACTIVE) ->
     handleBotExit serverId c w = w)
  /\ handleBotExit serverId c' (stopBot c serverId w) = stopBot c serverId w
  /\ handleBotExit serverId c' (handleBotExit serverId c w) = handleBotExit serverId c w
  /\ servers (store (stopBot c serverId (handleBotExit serverId c' w)))
     = servers (store (handleBotExit serverId c' (stopBot c serverId w))).
Proof.
  assert (Hstop : handleBotExit serverId c' (stopBot c serverId w)
                  = stopBot c serverId w).
  { destruct (Servers.findById serverId (store w)) as [server|] eqn:Hf.
    - destruct (stopBot_found c serverId w server Hf) as (i & _ & _ & _ & Hfind).
      apply (handleBotExit_not_active _ _ _ _ Hfind).
      rewrite (proj1 (stop_fields_lookup server)). discriminate.
    - apply handleBotExit_absent. by rewrite stopBot_store, Hf. }
  split; [|split; [|split]].
  - intros server Hf Hs. by apply (handleBotExit_not_active _ _ _ server).
  - exact Hstop.
  - destruct (Servers.findById serverId (store w)) as [server|] eqn:Hf.
    + destruct (decide (server !! "status" = Some (VStr ST_ACTIVE))) as [Hs|Hs].
      * destruct (handleBotExit_found serverId c w server Hf Hs)
          as (i & _ & _ & _ & _ & Hfind).
        apply (handleBotExit_not_active _ _ _ _ Hfind).
        rewrite spread_lookup. discriminate.
      * rewrite (handleBotExit_not_active _ c w server Hf Hs).
        by apply (handleBotExit_not_active _ _ _ server).
    + rewrite (handleBotExit_absent _ c w Hf). by apply handleBotExit_absent.
  - rewrite Hstop.
    destruct (Servers.findById serverId (store w)) as [server|] eqn:Hf.
    + destruct (decide (server !! "status" = Some (VStr ST_ACTIVE))) as [Hs|Hs].
      * destruct (handleBotExit_found serverId c' w server Hf Hs)
          as (i & Hi & Hcur & Hst & Hi' & Hfind).
        destruct (stopBot_found c serverId _ _ Hfind) as (j & Hj & _ & Hst' & _).
        assert (j = i) as -> by congruence.
        destruct (stopBot_found c serverId w server Hf) as (k & Hk & _ & Hst0 & _).
        assert (k = i) as -> by congruence.
        rewrite Hst', Hst0, Hst. simpl.
        rewrite list_alter_alter_eq. apply list_alter_ext; [|done].
        intros x _. apply spread_exit_stop.
      * by rewrite (handleBotExit_not_active _ c' w server Hf Hs).
    + by rewrite (handleBotExit_absent _ c' w Hf).
Qed.

Lemma exit_after_stop_ignored_witness :
  handleBotExit a1 (Some 1%nat) (initial idle_store) = initial idle_store.
Proof.
  apply (proj1 (exit_after_stop_ignored (Some 1%nat) None a1 (initial idle_store))
           idle_target).
  - vm_compute. reflexivity.
  - vm_compute. discriminate.
Defined.

(** ** spawn *)

Lemma setFields_found (w : world) (server cur : obj) (fields : payload) :
  Servers.findById (server !! "_id") (store w) = Some cur ->
  fields !! "_id" = None ->
  Servers.findById (server !! "_id") (store (setFields server fields w))
  = Some (spread cur fields).
Proof.
  intros Hf Hid. destruct (findById_index _ _ _ Hf) as (i & Hi & Hcur & _).
  destruct (updateOne_found (store w) _ fields i cur Hi Hcur Hid)
    as (Hupd & _ & _ & Hfind).
  by rewrite store_setFields, Hupd.
Qed.

Lemma active_fields_id pid : active_fields pid !! "_id" = None.
Proof. by destruct pid. Qed.

Lemma active_fields_lookup (r : obj) (pid : option Z) :
  spread r (active_fields pid) !! "status" = Some (VStr ST_ACTIVE)
  /\ spread r (active_fields pid) !! "botPid" = VPrim <$> (PNum <$> pid).
Proof. rewrite !spread_lookup. by destruct pid. Qed.

(** C4, as stated, fails: a child whose process could not be started is
    recorded as running, without a process id, as soon as [spawn]
    returns; the [error] event that follows is handled as an exit and
    leaves the target stopped, not in an error state. *)
Lemma spawn_failure_recorded_as_running :
  (status_of <$> target "a1" launching_world) = Some Launching
  /\ (let w1 := step launching_world (EvSpawn 0 (SpawnReturns None)) in
      (status_of <$> target "a1" w1) = Some Running
      /\ (workerProcessId <$> target "a1" w1) = Some None
      /\ live_workers "a1" w1 = []
      /\ (status_of <$> target "a1" (step w1 (EvChildError 0))) = Some Idle).
Proof. vm_compute. repeat split; reflexivity. Qed.

(** C4, amended.  For a start that has reached [spawn] on a target that
    still exists: when [spawn] throws, the target goes to the
    connection-failed status, the one a failed probe also gives, with
    [botPid] null, and no child is registered; when [spawn] returns a
    child, the active status is recorded with the process id of the child
    (with none when the process could not be started), the child is
    registered, and an [error] or [exit] event then handled for it
    leaves the target stopped with [botPid] null. *)
Theorem spawn_outcomes (c : ctx) (server cur : obj) (mcVersion : jsval) (w : world) :
  Servers.findById (server !! "_id") (store w) = Some cur ->
  (exists cur',
      Servers.findById (server !! "_id")
        (store (startBedrockBot_spawn c server mcVersion SpawnThrows w)) = Some cur'
      /\ cur' !! "status" = Some (VStr ST_CONNECTION_FAILED)
      /\ cur' !! "botPid" = Some VNull
      /\ children (startBedrockBot_spawn c server mcVersion SpawnThrows w) = children w
      /\ live (startBedrockBot_spawn c server mcVersion SpawnThrows w) = live w)
  /\
  (forall pid,
      let w' := startBedrockBot_spawn c server mcVersion (SpawnReturns pid) w in
      exists cur' cur'',
        Servers.findById (server !! "_id") (store w') = Some cur'
        /\ cur' !! "status" = Some (VStr ST_ACTIVE)
        /\ cur' !! "botPid" = VPrim <$> (PNum <$> pid)
        /\ children w' = (children w ++ [mkChild pid (server !! "_id") c])%list
        /\ Servers.findById (server !! "_id")
             (store (handleBotExit (server !! "_id") c w')) = Some cur''
        /\ cur'' !! "status" = Some (VStr ST_STOPPED)
        /\ cur'' !! "botPid" = Some VNull).
Proof.
  intros Hf. split.
  - exists (spread cur failed_fields).
    unfold startBedrockBot_spawn, connectionFailed.
    rewrite store_edit. split; [by apply setFields_found|].
    rewrite !spread_lookup. repeat split; by destruct c.
  - intros pid w'.
    assert (Hw' : Servers.findById (server !! "_id") (store w')
                  = Some (spread cur (active_fields pid))).
    { unfold w', startBedrockBot_spawn. rewrite store_edit.
      apply (setFields_found (add_child _ (emit _ w)) server cur (active_fields pid));
        [exact Hf | apply active_fields_id]. }
    destruct (active_fields_lookup cur pid) as [Hs Hp].
    destruct (handleBotExit_found _ c w' _ Hw' Hs) as (i & _ & _ & _ & _ & Hx).
    exists (spread cur (active_fields pid)),
           (spread (spread cur (active_fields pid)) exit_fields).
    repeat split; auto.
    + unfold w', startBedrockBot_spawn. by destruct c.
    + by rewrite spread_lookup.
    + by rewrite spread_lookup.
Qed.

Lemma spawn_outcomes_witness :
  (exists cur',
      target "a1" (step launching_world (EvSpawn 0 SpawnThrows)) = Some cur'
      /\ cur' !! "status" = Some (VStr ST_CONNECTION_FAILED))
  /\
  (exists cur',
      target "a1" (step launching_world (EvSpawn 0 (SpawnReturns (Some 100)))) = Some cur'
      /\ cur' !! "status" = Some (VStr ST_ACTIVE)
      /\ cur' !! "botPid" = Some (VNum 100)).
Proof.
  assert (Ht : tasks launching_world
               = [AwaitFoundEdit (Some 1%nat) idle_target (Some (VStr "1.21.90"))])
    by (vm_compute; reflexivity).
  assert (Hid : idle_target !! "_id" = a1) by (vm_compute; reflexivity).
  assert (Hf : Servers.findById (idle_target !! "_id")
                 (store (drop_task 0 launching_world))
               = Some (<["status" := VStr ST_LAUNCHING]> idle_target))
    by (vm_compute; reflexivity).
  destruct (spawn_outcomes (Some 1%nat) idle_target _ (Some (VStr "1.21.90"))
              (drop_task 0 launching_world) Hf) as [Hthrow Hret].
  split.
  - destruct Hthrow as (cur' & H1 & H2 & _).
    exists cur'. split; [|exact H2].
    unfold target, step. rewrite Ht. simpl lookup.
    change (Some (VStr "a1")) with a1. rewrite <- Hid. exact H1.
  - destruct (Hret (Some 100)) as (cur' & _ & H1 & H2 & H3 & _).
    exists cur'. split; [|split; [exact H2 | exact H3]].
    unfold target, step. rewrite Ht. simpl lookup.
    change (Some (VStr "a1")) with a1. rewrite <- Hid. exact H1.
Defined.

(** ** startBot *)


(** C1.  Two starts of the same idle target issued back to back: the
    second finds the status already set to searching by the first, and is
    not refused, because only [botPid] is looked at and it is written
    after [spawn].  Both calls reach [spawn]; the target ends with two
    live workers, of which the record knows the second. *)
Theorem double_start_spawns_twice :
  (let w := run (initial idle_store) [EvStart (Some 1%nat) a1; EvStart (Some 2%nat) a1] in
   (status_of <$> target "a1" w) = Some Resolving
   /\ refusals w = 0%nat
   /\ length (tasks w) = 2%nat)
  /\
  (let w := run (initial idle_store) double_start in
   refusals w = 0%nat
   /\ spawned w = [100; 101]
   /\ live_workers "a1" w = [100; 101]
   /\ (status_of <$> target "a1" w) = Some Running
   /\ (workerProcessId <$> target "a1" w) = Some (Some 101)).
Proof. vm_compute. repeat split; reflexivity. Qed.

(** C3.  A start over a recorded process that no longer exists moves the
    target from running to searching and keeps the stale process id; the
    [exit] event of the dead worker is then ignored, and a probe that finds
    an unsupported version leaves the target in an error status that still
    carries the process id. *)
Theorem stale_pid_outlives_running :
  (let w := run (initial idle_store) restart_over_dead_worker in
   (status_of <$> target "a1" w) = Some Resolving
   /\ (workerProcessId <$> target "a1" w) = Some (Some 100)
   /\ live_workers "a1" w = []
   /\ (let w' := run w [EvChildExit 0; EvEdited 0;
                        EvProbed 0 (ProbeOk (Some (VNum 999)))] in
       (status_of <$> target "a1" w') = Some (Error "unsupported-version")
       /\ (workerProcessId <$> target "a1" w') = Some (Some 100)))
  /\
  (let w := step (initial running_store) (EvStart (Some 1%nat) a1) in
   (status_of <$> target "a1" w) = Some Resolving
   /\ (workerProcessId <$> target "a1" w) = Some (Some 100)
   /\ live_workers "a1" w = []).
Proof. vm_compute. repeat split; reflexivity. Qed.

(** ** Display names *)

Lemma strict_eq_sym (a b : jsval) : strict_eq a b = strict_eq b a.
Proof.
  destruct a as [[p|l]|], b as [[q|l']|]; simpl; try reflexivity.
  apply bool_decide_ext. split; congruence.
Qed.

Lemma strict_eq_string (a : jsval) : is_string a = true -> strict_eq a a = true.
Proof.
  destruct a as [[[| | |s]|l]|]; simpl; try discriminate.
  intros _. by apply bool_decide_eq_true.
Qed.

Lemma sort_insert_perm cmp (x : obj) (l : list obj) : sort_insert cmp x l ≡ₚ x :: l.
Proof.
  induction l as [|y l IH]; simpl; [done|].
  destruct (bool_decide (cmp x y ≤ 0)); [done|].
  rewrite IH. apply Permutation_swap.
Qed.

Lemma sort_perm cmp (l : list obj) : sort cmp l ≡ₚ l.
Proof.
  unfold sort. induction l as [|x l IH]; simpl; [done|].
  by rewrite sort_insert_perm, IH.
Qed.

Lemma map_if_none {A} (p : A -> bool) (f : A -> A) (l : list A) :
  findIndex p l = None -> (fun x => if p x then f x else x) <$> l = l.
Proof.
  induction l as [|a l IH]; simpl; [done|].
  destruct (p a) eqn:Ha; [discriminate|].
  destruct (findIndex p l) eqn:Hl; [discriminate|].
  intros _. f_equal. by apply IH.
Qed.

Lemma alter_as_map {A} (p : A -> bool) (f : A -> A) (l : list A) (i : nat) :
  findIndex p l = Some i ->
  (forall j y, l !! j = Some y -> p y = true -> j = i) ->
  alter f i l = (fun x => if p x then f x else x) <$> l.
Proof.
  revert i. induction l as [|a l IH]; intros i; simpl; [discriminate|].
  destruct (p a) eqn:Ha.
  - intros [= <-] Huniq. simpl. f_equal.
    symmetry. apply map_if_none.
    destruct (findIndex p l) as [k|] eqn:Hk; [|done].
    destruct (findIndex_spec _ _ _ Hk) as (y & Hy & Hpy & _).
    specialize (Huniq (S k) y Hy Hpy). discriminate.
  - destruct (findIndex p l) as [k|] eqn:Hk; simpl; [|discriminate].
    intros [= <-] Huniq.
    change (alter f (S k) (a :: l)) with (a :: alter f k l). f_equal.
    apply IH; [done|]. intros j y Hy Hpy.
    specialize (Huniq (S j) y Hy Hpy). lia.
Qed.

Lemma ids_lookup (l : list obj) (i : nat) (s : obj) :
  l !! i = Some s -> ids l !! i = Some (s !! "_id").
Proof. intros H. unfold ids. by rewrite list_lookup_fmap, H. Qed.

(** With identifiers that do not repeat, [updateOne] is a map over the
    collection. *)
Lemma updateOne_map (st : Store) (id : jsval) (fields : payload) :
  NoDup (ids (servers st)) ->
  servers (Servers.updateOne {["_id" := id]} (set_fields fields) st)
  = (fun s => if strict_eq (s !! "_id") id then spread s fields else s)
      <$> servers st.
Proof.
  intros Hnd.
  destruct (findIndex (fun s => strict_eq (s !! "_id") id) (servers st))
    as [i|] eqn:Hi.
  - rewrite (Servers_updateOne_at st id _ i Hi). simpl.
    apply (alter_as_map (fun s => strict_eq (s !! "_id") id)); [done|].
    intros j y Hy Hpy.
    destruct (findIndex_spec _ _ _ Hi) as (x & Hx & Hpx & _).
    apply strict_eq_true in Hpy, Hpx.
    apply (NoDup_lookup (ids (servers st)) j i id); [done| |].
    + rewrite <- Hpy. by apply ids_lookup.
    + rewrite <- Hpx. by apply ids_lookup.
  - rewrite (Servers_updateOne_absent st id _ Hi).
    symmetry. by apply map_if_none.
Qed.

Lemma spread_serverName (s : obj) (v : value) :
  spread s {["serverName" := Some v]} = <["serverName" := v]> s.
Proof.
  apply map_eq. intros k. rewrite spread_lookup.
  destruct (decide (k = "serverName")) as [->|Hk].
  - by rewrite lookup_singleton_eq, lookup_insert_eq.
  - by rewrite lookup_singleton_ne, lookup_insert_ne.
Qed.

Lemma relabel_id snapshot k s : relabel snapshot k s !! "_id" = s !! "_id".
Proof.
  unfold relabel. destruct (findIndex _ snapshot); [|done].
  by rewrite lookup_insert_ne.
Qed.

Lemma relabel_other snapshot k s (key : string) :
  key <> "serverName" -> relabel snapshot k s !! key = s !! key.
Proof.
  intros Hk. unfold relabel. destruct (findIndex _ snapshot); [|done].
  by rewrite lookup_insert_ne.
Qed.

Lemma ids_fmap_preserved (f : obj -> obj) (l : list obj) :
  (forall s, f s !! "_id" = s !! "_id") -> ids (f <$> l) = ids l.
Proof.
  intros Hf. unfold ids. rewrite <- list_fmap_compose.
  apply list_fmap_ext. intros _ s _. simpl. apply Hf.
Qed.

(** One turn of the loop of [reorderServers], as a map over the
    collection. *)
Lemma rename_step_servers (x : obj) (k : Z) (st : Store) :
  NoDup (ids (servers st)) ->
  (forall s, s ∈ servers st -> s !! "_id" = x !! "_id" ->
             s !! "serverName" = x !! "serverName") ->
  servers (if negb (strict_eq (x !! "serverName") (Some (VStr (S_name k))))
           then Servers.updateOne {["_id" := x !! "_id"]}
                  (set_fields {["serverName" := Some (VStr (S_name k))]}) st
           else st)
  = (fun s => if strict_eq (s !! "_id") (x !! "_id")
              then <["serverName" := VStr (S_name k)]> s else s) <$> servers st.
Proof.
  intros Hnd Hagree.
  destruct (strict_eq (x !! "serverName") (Some (VStr (S_name k)))) eqn:Hname; simpl.
  - apply strict_eq_true in Hname.
    rewrite <- (list_fmap_id (servers st)) at 1.
    apply list_fmap_ext. intros i s Hs. simpl.
    destruct (strict_eq (s !! "_id") (x !! "_id")) eqn:Hid; [|done].
    apply strict_eq_true in Hid. symmetry. apply insert_id.
    rewrite <- Hname. apply Hagree; [|done].
    apply list_elem_of_lookup. eauto.
  - rewrite (updateOne_map st _ _ Hnd).
    apply list_fmap_ext. intros i s Hs. simpl.
    destruct (strict_eq (s !! "_id") (x !! "_id")); [|done].
    apply spread_serverName.
Qed.

Lemma findIndex_absent_id (s : obj) (l : list obj) :
  s !! "_id" ∉ ids l ->
  findIndex (fun x => strict_eq (x !! "_id") (s !! "_id")) l = None.
Proof.
  intros Hnot. destruct (findIndex _ l) as [j|] eqn:Hj; [|done].
  destruct (findIndex_spec _ _ _ Hj) as (y & Hy & Hpy & _).
  apply strict_eq_true in Hpy. exfalso. apply Hnot.
  rewrite <- Hpy. apply list_elem_of_lookup. exists j. by apply ids_lookup.
Qed.

(** The loop of [reorderServers] names every record of the snapshot
    after its position, and touches no other record. *)
Lemma rename_loop_servers (snapshot : list obj) (k : Z) (st : Store) :
  NoDup (ids (servers st)) ->
  NoDup (ids snapshot) ->
  (forall x s, x ∈ snapshot -> s ∈ servers st -> s !! "_id" = x !! "_id" ->
               s !! "serverName" = x !! "serverName") ->
  servers (rename_loop snapshot k st) = relabel snapshot k <$> servers st.
Proof.
  revert k st. induction snapshot as [|x rest IH]; intros k st Hnd Hsnap Hagree.
  - simpl. symmetry. apply list_fmap_id.
  - simpl rename_loop.
    set (st1 := if negb (strict_eq (x !! "serverName") (Some (VStr (S_name k))))
                then Servers.updateOne {["_id" := x !! "_id"]}
                       (set_fields {["serverName" := Some (VStr (S_name k))]}) st
                else st).
    set (f := fun s : obj => if strict_eq (s !! "_id") (x !! "_id")
                             then <["serverName" := VStr (S_name k)]> s else s).
    assert (Hst1 : servers st1 = f <$> servers st).
    { apply rename_step_servers; [done|].
      intros s Hs. apply Hagree; [apply list_elem_of_here | done]. }
    assert (Hfid : forall s, f s !! "_id" = s !! "_id").
    { intros s. unfold f.
      destruct (strict_eq (s !! "_id") (x !! "_id")); [|done].
      by rewrite lookup_insert_ne. }
    clearbody st1.
    unfold ids in Hsnap. rewrite fmap_cons in Hsnap.
    apply NoDup_cons in Hsnap as [Hx Hrest].
    rewrite IH.
    + rewrite Hst1, <- list_fmap_compose.
      apply list_fmap_ext. intros i s Hs. simpl.
      unfold relabel at 2. simpl findIndex.
      rewrite (strict_eq_sym (x !! "_id") (s !! "_id")).
      unfold f. destruct (strict_eq (s !! "_id") (x !! "_id")) eqn:Hid.
      * apply strict_eq_true in Hid. unfold relabel.
        rewrite lookup_insert_ne by done.
        rewrite findIndex_absent_id by (by rewrite Hid).
        by rewrite Z.add_0_r.
      * unfold relabel.
        destruct (findIndex _ rest) as [j|]; simpl; [|done].
        replace (k + 1 + Z.of_nat j) with (k + Z.of_nat (S j)) by lia. done.
    + rewrite Hst1. by rewrite (ids_fmap_preserved f _ Hfid).
    + done.
    + intros x' s1 Hx' Hs1 Heq. rewrite Hst1 in Hs1.
      apply list_elem_of_fmap in Hs1 as (s & -> & Hs).
      unfold f in Heq |- *.
      destruct (strict_eq (s !! "_id") (x !! "_id")) eqn:Hid.
      * apply strict_eq_true in Hid. rewrite lookup_insert_ne in Heq by done.
        exfalso. apply Hx. rewrite <- Hid, Heq.
        by apply (list_elem_of_fmap_2 (fun s => s !! "_id")).
      * apply Hagree; [by apply list_elem_of_further | done | done].
Qed.

Lemma ids_filter_NoDup (p : obj -> bool) (l : list obj) :
  NoDup (ids l) -> NoDup (ids (List.filter p l)).
Proof.
  unfold ids. induction l as [|a l IH]; simpl; [done|].
  rewrite NoDup_cons. intros [Ha Hl].
  destruct (p a); simpl; [|by apply IH].
  apply NoDup_cons. split; [|by apply IH].
  intros Hin. apply Ha.
  apply list_elem_of_fmap in Hin as (y & Hy & Hin).
  apply list_elem_of_In, List.filter_In in Hin as [Hin _].
  rewrite Hy. apply (list_elem_of_fmap_2 (fun s => s !! "_id")).
  by apply list_elem_of_In.
Qed.

Lemma ids_filter_Forall (P : jsval -> Prop) (p : obj -> bool) (l : list obj) :
  Forall P (ids l) -> Forall P (ids (List.filter p l)).
Proof.
  unfold ids. induction l as [|a l IH]; simpl; [done|].
  intros H. apply Forall_cons in H as [Ha Hl].
  destruct (p a); simpl; [apply Forall_cons; split|]; auto.
Qed.

Lemma ids_alter (f : obj -> obj) (i : nat) (l : list obj) :
  (forall s, f s !! "_id" = s !! "_id") -> ids (alter f i l) = ids l.
Proof.
  intros Hf. unfold ids. revert i.
  induction l as [|a l IH]; intros [|i]; simpl; try done.
  - by rewrite Hf.
  - f_equal. apply IH.
Qed.

Lemma NoDup_ids_inj (l : list obj) (x y : obj) :
  NoDup (ids l) -> x ∈ l -> y ∈ l -> x !! "_id" = y !! "_id" -> x = y.
Proof.
  intros Hnd Hx Hy Heq.
  apply list_elem_of_lookup in Hx as [i Hi].
  apply list_elem_of_lookup in Hy as [j Hj].
  assert (i = j) as ->.
  { apply (NoDup_lookup (ids l) i j (x !! "_id")); [done| |].
    - by apply ids_lookup.
    - rewrite Heq. by apply ids_lookup. }
  congruence.
Qed.

Lemma filter_fmap_commute {A} (p : A -> bool) (f : A -> A) (l : list A) :
  (forall x, p (f x) = p x) ->
  List.filter p (f <$> l) = f <$> List.filter p l.
Proof.
  intros Hp. induction l as [|a l IH]; simpl; [done|].
  rewrite Hp. destruct (p a); simpl; [f_equal|]; apply IH.
Qed.

Lemma findIndex_own (l : list obj) (i : nat) (s : obj) :
  NoDup (ids l) ->
  is_string (s !! "_id") = true ->
  l !! i = Some s ->
  findIndex (fun x => strict_eq (x !! "_id") (s !! "_id")) l = Some i.
Proof.
  intros Hnd Hstr. revert i Hnd.
  induction l as [|a l IH]; intros [|i] Hnd; simpl; try discriminate.
  - intros [= ->]. by rewrite strict_eq_string.
  - intros Hs. unfold ids in Hnd. rewrite fmap_cons in Hnd.
    apply NoDup_cons in Hnd as [Ha Hl].
    destruct (strict_eq (a !! "_id") (s !! "_id")) eqn:He.
    + apply strict_eq_true in He. exfalso. apply Ha. rewrite He.
      apply list_elem_of_lookup. exists i.
      by rewrite list_lookup_fmap, Hs.
    + by rewrite (IH i Hl Hs).
Qed.

(** A snapshot renamed by itself carries the names [S-k], [S-(k+1)],
    .. in its own order. *)
Lemma relabel_self_names (l : list obj) (k : Z) :
  NoDup (ids l) ->
  Forall (fun a => is_string a = true) (ids l) ->
  (fun s => relabel l k s !! "serverName") <$> l
  = (fun j => Some (VStr (S_name j))) <$> seqZ k (Z.of_nat (length l)).
Proof.
  intros Hnd Hstr. apply list_eq. intros i.
  rewrite !list_lookup_fmap.
  destruct (l !! i) as [s|] eqn:Hs; simpl.
  - pose proof (lookup_lt_Some _ _ _ Hs) as Hlt.
    rewrite lookup_seqZ_lt by lia. simpl. f_equal.
    unfold relabel. rewrite (findIndex_own l i s Hnd); [|  |done].
    + by rewrite lookup_insert_eq.
    + rewrite Forall_forall in Hstr. apply Hstr.
      apply list_elem_of_lookup. exists i. by apply ids_lookup.
  - apply lookup_ge_None in Hs. rewrite lookup_seqZ_ge by lia. done.
Qed.

Lemma keyed_ids (st st' : Store) :
  ids (servers st') = ids (servers st) -> keyed st -> keyed st'.
Proof. unfold keyed. by intros ->. Qed.

Lemma display_names_filter (u : jsval) (st : Store) :
  display_names u st
  = (fun s => s !! "serverName")
      <$> List.filter (fun s => strict_eq (s !! "userId") u) (servers st).
Proof. unfold display_names. by rewrite (Servers_find_by "userId" u st). Qed.

(** [reorderServers] renames the targets of the user after their
    position in the sorted snapshot and leaves the rest of the collection
    alone. *)
Lemma reorderServers_servers (Date_parse : string -> option Z) (u : jsval)
    (st : Store) :
  keyed st ->
  servers (reorderServers Date_parse u st)
  = relabel (sort (by_createdAt Date_parse)
               (List.filter (fun s => strict_eq (s !! "userId") u) (servers st))) 1
      <$> servers st.
Proof.
  intros [Hnd Hstr]. unfold reorderServers.
  rewrite (Servers_find_by "userId" u st).
  set (mine := List.filter (fun s => strict_eq (s !! "userId") u) (servers st)).
  pose proof (sort_perm (by_createdAt Date_parse) mine) as Hperm.
  apply rename_loop_servers; [done| |].
  - unfold ids. rewrite Hperm. by apply ids_filter_NoDup.
  - intros x s Hx Hs Heq. f_equal. apply (NoDup_ids_inj (servers st)); try done.
    rewrite Hperm in Hx. apply list_elem_of_In, List.filter_In in Hx as [Hx _].
    by apply list_elem_of_In.
Qed.

Lemma reorderServers_dense (Date_parse : string -> option Z) (u : jsval)
    (st : Store) :
  keyed st ->
  dense u (reorderServers Date_parse u st)
  /\ length (display_names u (reorderServers Date_parse u st))
     = length (display_names u st)
  /\ keyed (reorderServers Date_parse u st).
Proof.
  intros Hk. pose proof Hk as [Hnd Hstr].
  pose proof (reorderServers_servers Date_parse u st Hk) as Hserv.
  set (mine := List.filter (fun s => strict_eq (s !! "userId") u) (servers st)) in *.
  set (sorted := sort (by_createdAt Date_parse) mine) in *.
  pose proof (sort_perm (by_createdAt Date_parse) mine : sorted ≡ₚ mine) as Hperm.
  assert (Hnames : display_names u (reorderServers Date_parse u st)
                   = (fun s => relabel sorted 1 s !! "serverName") <$> mine).
  { rewrite display_names_filter, Hserv.
    rewrite (filter_fmap_commute (fun s => strict_eq (s !! "userId") u)).
    - by rewrite <- list_fmap_compose.
    - intros x. by rewrite relabel_other. }
  assert (Hlen : length (display_names u (reorderServers Date_parse u st))
                 = length (display_names u st)).
  { rewrite Hnames, (display_names_filter u st). by rewrite !length_fmap. }
  split; [|split; [done|]].
  - unfold dense. rewrite Hlen, (display_names_filter u st), length_fmap.
    fold mine. rewrite Hnames, <- Hperm.
    rewrite (relabel_self_names sorted 1).
    + unfold dense_names. by rewrite Hperm.
    + unfold ids, sorted. rewrite (sort_perm _ mine). by apply ids_filter_NoDup.
    + unfold ids, sorted. rewrite (sort_perm _ mine). by apply ids_filter_Forall.
  - apply (keyed_ids st); [|done]. rewrite Hserv.
    apply ids_fmap_preserved. intros s. apply relabel_id.
Qed.

Lemma updateOne_ids (st : Store) (query : payload) (fields : payload) :
  fields !! "_id" = None ->
  ids (servers (Servers.updateOne query (set_fields fields) st)) = ids (servers st).
Proof.
  intros Hid. unfold Servers.updateOne. rewrite (Servers_find_all st).
  destruct (findIndex _ (servers st)); [|done]. simpl.
  apply ids_alter. intros s. by apply spread_untouched.
Qed.

Lemma stopBot_ids c id w : ids (servers (store (stopBot c id w))) = ids (servers (store w)).
Proof.
  rewrite stopBot_store. destruct (Servers.findById id (store w)); [|done].
  by apply updateOne_ids.
Qed.

Lemma deleteOne_servers (query : payload) (st : Store) :
  servers (Servers.deleteOne query st).2
  = List.filter (fun s => negb (matches query s)) (servers st).
Proof.
  unfold Servers.deleteOne. rewrite (Servers_find_all st).
  destruct (bool_decide _) eqn:Hlt; simpl; [done|].
  apply bool_decide_eq_false in Hlt. symmetry. apply filter_all_length.
  pose proof (List.filter_length_le (fun s => negb (matches query s)) (servers st)).
  lia.
Qed.

Lemma deleteOne_keyed (query : payload) (st : Store) :
  keyed st -> keyed (Servers.deleteOne query st).2.
Proof.
  intros [Hnd Hstr]. unfold keyed. rewrite deleteOne_servers.
  split; [by apply ids_filter_NoDup | by apply ids_filter_Forall].
Qed.

Lemma newServer_lookup (fresh : string) (data : payload) (k : string) :
  k <> "botName" -> k <> "autoRestart" -> k <> "notifyOnError" -> k <> "status" ->
  Servers.newServer fresh data !! k
  = match data !! k with
    | Some v => v
    | None => ({["_id" := VStr fresh]} : obj) !! k
    end.
Proof.
  intros H1 H2 H3 H4. unfold Servers.newServer.
  rewrite !lookup_insert_ne by done. apply spread_lookup.
Qed.

Lemma create_keyed (fresh : string) (data : payload) (st : Store) :
  keyed st ->
  data !! "_id" = None ->
  Some (VStr fresh) ∉ ids (servers st) ->
  keyed (Servers.create fresh data st).2.
Proof.
  intros [Hnd Hstr] Hid Hfresh. unfold keyed, Servers.create. simpl.
  rewrite (Servers_find_all st). unfold ids. rewrite fmap_app. simpl.
  rewrite newServer_lookup, Hid, lookup_singleton_eq by done.
  split.
  - apply NoDup_app. split; [done|]. split; [|apply NoDup_singleton].
    intros a Ha Hin. apply list_elem_of_singleton in Hin. by subst a.
  - apply Forall_app. split; [done|]. by apply Forall_singleton.
Qed.

Lemma wizard_finish_dense (Date_parse : string -> option Z) (fresh : string)
    (uid : Z) (name : string) (ip : jsval) (port : Z) (st st' : Store) (n : obj) :
  keyed st ->
  Some (VStr fresh) ∉ ids (servers st) ->
  wizard_finish Date_parse fresh (Some (VNum uid)) name ip port st = (Added n, st') ->
  dense (Some (VNum uid)) st'
  /\ length (display_names (Some (VNum uid)) st')
     = S (length (display_names (Some (VNum uid)) st)).
Proof.
  intros Hk Hfresh. unfold wizard_finish.
  destruct (bool_decide (port < 1) || bool_decide (port > 65535)); [discriminate|].
  destruct (bool_decide (3 ≤ _)%nat); [discriminate|].
  destruct (bool_decide (is_Some _)); [discriminate|].
  destruct (bool_decide (is_Some _)); [discriminate|].
  set (data := ({["userId" := Some (VNum uid); "serverName" := Some (VStr name);
                  "serverType" := Some (VStr "bedrock"); "ip" := ip;
                  "port" := Some (VNum port)]} : payload)).
  assert (Hid : data !! "_id" = None) by reflexivity.
  assert (Hu : data !! "userId" = Some (Some (VNum uid))) by reflexivity.
  pose proof (create_keyed fresh data st Hk Hid Hfresh) as Hk1.
  clearbody data.
  unfold Servers.create in Hk1 |- *. cbv beta iota zeta in Hk1 |- *.
  cbv beta iota delta [snd] in Hk1.
  intros H. pose proof (f_equal snd H) as Hst. cbv beta iota delta [snd] in Hst.
  subst st'. clear H.
  destruct (reorderServers_dense Date_parse (Some (VNum uid)) _ Hk1)
    as (Hd & Hlen & _).
  split; [exact Hd|]. rewrite Hlen.
  rewrite (display_names_filter _ st), (display_names_filter _ (writeDb_servers _ _)).
  rewrite !length_fmap.
  change (servers (writeDb_servers ?l ?s)) with l.
  rewrite (Servers_find_all st), List.filter_app, length_app.
  change (List.filter ?p [?x]) with (if p x then [x] else []).
  cbv beta. rewrite newServer_lookup, Hu by done. rewrite strict_eq_prim.
  simpl length. lia.
Qed.

Lemma delete_do_dense (Date_parse : string -> option Z) (c : ctx)
    (u sId : jsval) (w : world) :
  keyed (store w) ->
  dense u (store (delete_do Date_parse c u sId w)).
Proof.
  intros Hk. unfold delete_do, on_store. simpl.
  apply reorderServers_dense, deleteOne_keyed.
  apply (keyed_ids (store w)); [apply stopBot_ids | done].
Qed.

Lemma matches_spec (query : payload) (r : obj) :
  matches query r = true <->
  forall k v, query !! k = Some v -> strict_eq (r !! k) v = true.
Proof.
  unfold matches. rewrite List.forallb_forall. split.
  - intros H k v Hk. apply (H (k, v)).
    by apply list_elem_of_In, elem_of_map_to_list.
  - intros H [k v] Hin. simpl. apply H.
    by apply elem_of_map_to_list, list_elem_of_In.
Qed.

Lemma stopBot_servers_from c id w (s1 : obj) :
  s1 ∈ servers (store (stopBot c id w)) ->
  exists s, s ∈ servers (store w)
            /\ s1 !! "_id" = s !! "_id" /\ s1 !! "userId" = s !! "userId".
Proof.
  rewrite stopBot_store.
  destruct (Servers.findById id (store w)) as [server|]; [|by exists s1].
  unfold Servers.updateOne. rewrite (Servers_find_all (store w)).
  destruct (findIndex _ (servers (store w))) as [i|]; [|by exists s1].
  simpl. intros Hin. apply list_elem_of_lookup in Hin as [j Hj].
  destruct (decide (j = i)) as [->|Hne].
  - rewrite list_lookup_alter_eq in Hj.
    destruct (servers (store w) !! i) as [s|] eqn:Hs; [|discriminate].
    injection Hj as <-. exists s. split; [|split].
    + apply list_elem_of_lookup. eauto.
    + by apply spread_untouched.
    + by apply spread_untouched.
  - rewrite list_lookup_alter_ne in Hj by done. exists s1.
    split; [|done]. apply list_elem_of_lookup. eauto.
Qed.

Lemma filter_none {A} (p : A -> bool) (l : list A) :
  (forall x, x ∈ l -> p x = false) -> List.filter p l = [].
Proof.
  induction l as [|a l IH]; simpl; [done|]. intros H.
  rewrite (H a) by apply list_elem_of_here.
  apply IH. intros x Hx. apply H. by apply list_elem_of_further.
Qed.

(** Left alone, the loop of delete_all_servers removes every target of
    the user. *)
Lemma delete_all_fold (c : ctx) (u : jsval) (i : nat) (rest : list obj) (w : world) :
  keyed (store w) ->
  (forall s, s ∈ servers (store w) -> strict_eq (s !! "userId") u = true ->
             s !! "_id" ∈ ids rest) ->
  forall s,
    s ∈ servers (store (delete_all_loop c u undisturbed i rest w)) ->
    strict_eq (s !! "userId") u = false.
Proof.
  revert w i. induction rest as [|server rest IH]; intros w i Hk Hinv s Hs.
  - simpl in Hs. destruct (strict_eq (s !! "userId") u) eqn:Hu; [|done].
    specialize (Hinv s Hs Hu). by apply elem_of_nil in Hinv.
  - cbn [delete_all_loop] in Hs. unfold delete_all_turn, undisturbed in Hs.
    revert s Hs. apply IH.
    + simpl. apply deleteOne_keyed.
      apply (keyed_ids (store w)); [apply stopBot_ids | done].
    + intros s1 Hs1 Hu1. simpl in Hs1. rewrite deleteOne_servers in Hs1.
      apply list_elem_of_In, List.filter_In in Hs1 as [Hs1 Hnm].
      apply list_elem_of_In in Hs1.
      destruct (stopBot_servers_from _ _ _ _ Hs1) as (s0 & Hs0 & Hid & Huid).
      rewrite Huid in Hu1. specialize (Hinv s0 Hs0 Hu1).
      rewrite <- Hid in Hinv. unfold ids in Hinv. rewrite fmap_cons in Hinv.
      apply elem_of_cons in Hinv as [Heq|Hin]; [|done].
      exfalso. apply negb_true_iff in Hnm.
      assert (Hm : matches {["_id" := server !! "_id"; "userId" := u]} s1 = true);
        [|congruence].
      apply matches_spec. intros k v Hkv.
      destruct (decide (k = "_id")) as [->|Hk1].
      * rewrite lookup_insert_eq in Hkv. injection Hkv as <-.
        rewrite <- Heq. apply strict_eq_string.
        destruct Hk as [_ Hstr]. rewrite Forall_forall in Hstr.
        apply Hstr. rewrite Hid.
        by apply (list_elem_of_fmap_2 (fun s => s !! "_id")).
      * rewrite lookup_insert_ne in Hkv by done.
        apply lookup_singleton_Some in Hkv as [<- <-]. by rewrite Huid.
Qed.

Lemma delete_all_servers_none (c : ctx) (u : jsval) (w : world) :
  keyed (store w) ->
  display_names u (store (delete_all_servers c u undisturbed w)) = [].
Proof.
  intros Hk. rewrite display_names_filter. unfold delete_all_servers.
  rewrite filter_none; [done|].
  apply (delete_all_fold c u 0 _ w Hk).
  intros s Hs Hu. rewrite (Servers_find_by "userId" u (store w)).
  apply (list_elem_of_fmap_2 (fun s => s !! "_id")).
  apply list_elem_of_In, List.filter_In. split; [by apply list_elem_of_In|done].
Qed.

(** X29.  For a user whose targets carry distinct identifiers:
    [reorderServers] leaves the display names of the user's targets equal
    to [S-1 .. S-n], with [n] the number of targets, whatever they were
    before; the add-server wizard, once it has created the record, and the
    delete action both end with it, so the names are dense after every
    addition and every removal by the owner, and the removal of all the
    targets of a user by the administrator, when no other handler runs
    meanwhile, leaves none.  In particular
    three targets created in a row are named S-1, S-2, S-3, and deleting
    the second leaves S-1, S-2, where the bare removal would leave S-1,
    S-3. *)
Theorem display_names_dense (Date_parse : string -> option Z) (uid : Z) :
  (forall st : Store,
      keyed st ->
      dense (Some (VNum uid)) (reorderServers Date_parse (Some (VNum uid)) st))
  /\
  (forall (fresh name : string) (ip : jsval) (port : Z) (st st' : Store) (n : obj),
      keyed st ->
      Some (VStr fresh) ∉ ids (servers st) ->
      wizard_finish Date_parse fresh (Some (VNum uid)) name ip port st = (Added n, st') ->
      dense (Some (VNum uid)) st'
      /\ length (display_names (Some (VNum uid)) st')
         = S (length (display_names (Some (VNum uid)) st)))
  /\
  (forall (c : ctx) (sId : jsval) (w : world),
      keyed (store w) ->
      dense (Some (VNum uid))
            (store (delete_do Date_parse c (Some (VNum uid)) sId w)))
  /\
  (forall (c : ctx) (w : world),
      keyed (store w) ->
      display_names (Some (VNum uid))
        (store (delete_all_servers c (Some (VNum uid)) undisturbed w)) = [])
  /\
  (display_names u7 (three_targets Date_parse)
     = [Some (VStr "S-1"); Some (VStr "S-2"); Some (VStr "S-3")]
   /\ display_names u7
        (store (delete_do Date_parse (Some 1%nat) u7 (Some (VStr "b2"))
                  (initial (three_targets Date_parse))))
      = [Some (VStr "S-1"); Some (VStr "S-2")]
   /\ ids (Servers.find {["userId" := u7]}
             (store (delete_do Date_parse (Some 1%nat) u7 (Some (VStr "b2"))
                       (initial (three_targets Date_parse)))))
      = [Some (VStr "a1"); Some (VStr "c3")]
   /\ display_names u7
        (Servers.deleteOne {["_id" := Some (VStr "b2"); "userId" := u7]}
           (three_targets Date_parse)).2
      = [Some (VStr "S-1"); Some (VStr "S-3")]).
Proof.
  split; [|split; [|split; [|split]]].
  - intros st Hk. by apply reorderServers_dense.
  - intros fresh name ip port st st' n Hk Hfresh Hw.
    by apply (wizard_finish_dense Date_parse fresh uid name ip port st st' n).
  - intros c sId w Hk. by apply delete_do_dense.
  - intros c w Hk. by apply delete_all_servers_none.
  - vm_compute. repeat split; reflexivity.
Qed.

Lemma display_names_dense_witness :
  dense u7 (reorderServers (fun _ => None) u7
              (Servers.deleteOne {["_id" := Some (VStr "b2"); "userId" := u7]}
                 (three_targets (fun _ => None))).2)
  /\ dense u7 (store (delete_do (fun _ => None) (Some 1%nat) u7 (Some (VStr "b2"))
                        (initial (three_targets (fun _ => None)))))
  /\ display_names u7
       (store (delete_all_servers (Some 1%nat) u7 undisturbed
                 (initial (three_targets (fun _ => None))))) = []
  /\ (exists n st',
         wizard_finish (fun _ => None) "d4" u7 "S-9" (Some (VStr "d.example.com")) 19132
           (Servers.deleteOne {["_id" := Some (VStr "b2"); "userId" := u7]}
              (three_targets (fun _ => None))).2 = (Added n, st')
         /\ dense u7 st').
Proof.
  assert (Hk3 : keyed (three_targets (fun _ => None))).
  { unfold keyed. split; apply (bool_decide_unpack _); vm_compute; exact I. }
  assert (Hk2 : keyed (Servers.deleteOne
                         {["_id" := Some (VStr "b2"); "userId" := u7]}
                         (three_targets (fun _ => None))).2).
  { unfold keyed. split; apply (bool_decide_unpack _); vm_compute; exact I. }
  destruct (display_names_dense (fun _ => None) 7) as (Hre & Hadd & Hdel & Hall & _).
  split; [|split; [|split]].
  - apply (Hre _ Hk2).
  - apply (Hdel (Some 1%nat) (Some (VStr "b2")) (initial (three_targets (fun _ => None)))).
    exact Hk3.
  - apply (Hall (Some 1%nat) (initial (three_targets (fun _ => None)))). exact Hk3.
  - eexists _, _. split; [vm_compute; reflexivity|].
    refine (proj1 (Hadd "d4" "S-9" (Some (VStr "d.example.com")) 19132 _ _ _ Hk2 _ _)).
    + apply (bool_decide_unpack _). vm_compute. exact I.
    + vm_compute. reflexivity.
Defined.

(** C8.  The names are not re-compacted when the administrator removes
    the targets of a user.  delete_all_servers deletes the targets it
    found at its start, one per turn, and never calls [reorderServers],
    which the owner's delete action does.  Left alone it leaves the user
    with no target.  But each turn waits for Telegram, and when the owner,
    who has the targets S-1 and S-2, adds a third one during the first
    turn, that target is named S-3 and survives the loop: the user is left
    with the single name S-3. *)
Lemma delete_all_leaves_gap :
  let st := two_targets (fun _ => None) in
  display_names u7 st = [Some (VStr "S-1"); Some (VStr "S-2")]
  /\ display_names u7
       (store (delete_all_servers (Some 1%nat) u7 undisturbed (initial st))) = []
  /\ (let w := delete_all_servers (Some 1%nat) u7
                 (add_in_first_turn (fun _ => None)) (initial st) in
      ids (servers (store w)) = [Some (VStr "c3")]
      /\ display_names u7 (store w) = [Some (VStr "S-3")]
      /\ ~ dense u7 (store w)).
Proof.
  intros st.
  assert (H1 : display_names u7 st = [Some (VStr "S-1"); Some (VStr "S-2")])
    by (vm_compute; reflexivity).
  assert (H2 : display_names u7
                 (store (delete_all_servers (Some 1%nat) u7 undisturbed (initial st)))
               = []) by (vm_compute; reflexivity).
  assert (H3 : ids (servers (store (delete_all_servers (Some 1%nat) u7
                                      (add_in_first_turn (fun _ => None))
                                      (initial st))))
               = [Some (VStr "c3")]) by (vm_compute; reflexivity).
  assert (H4 : display_names u7
                 (store (delete_all_servers (Some 1%nat) u7
                           (add_in_first_turn (fun _ => None)) (initial st)))
               = [Some (VStr "S-3")]) by (vm_compute; reflexivity).
  split; [exact H1|]. split; [exact H2|]. cbv zeta.
  split; [exact H3|]. split; [exact H4|].
  unfold dense. rewrite H4. intros Hp.
  apply Permutation_singleton_l in Hp.
  assert (He : dense_names 1 = [Some (VStr "S-1")]) by (vm_compute; reflexivity).
  cbn [length] in Hp. rewrite He in Hp.
  assert (Hne : bool_decide ([Some (VStr "S-1")] = [Some (VStr "S-3")]) = false)
    by (vm_compute; reflexivity).
  apply bool_decide_eq_false in Hne. by apply Hne.
Qed.


(** * Further properties of the store *)

(** ** flushDb *)

Lemma file_data_known (file : string) (st : Store) :
  is_Some (file_data file st) <->
  file ∈ ["users.json"; "servers.json"; "config.json"; "versions.json"].
Proof.
  unfold file_data. rewrite !elem_of_cons, elem_of_nil.
  repeat case_bool_decide; split; intros Hx; try (by eexists); try tauto.
  by destruct Hx as [? [=]].
Qed.

Lemma file_data_collections (file : string) (st st' : Store) :
  collections st = collections st' -> file_data file st = file_data file st'.
Proof.
  unfold collections, file_data. intros [= -> -> -> ->]. done.
Qed.

Lemma flush_write_collections ok file st disk :
  collections (flush_write ok file (st, disk)).1 = collections st.
Proof.
  unfold flush_write. destruct (file_data file st); [destruct ok|]; done.
Qed.

Lemma after_write_twice ok data old :
  after_write ok data (after_write ok data old) = after_write ok data old.
Proof. by destruct data, ok. Qed.

Lemma flush_write_facts ok file st disk :
  let r := flush_write ok file (st, disk) in
  writeTimeout r.1 = writeTimeout st
  /\ (forall f, f ∈ writeQueue r.1 <->
                f ∈ writeQueue st
                \/ (f = file /\ is_Some (file_data f st) /\ ok <> Written))
  /\ r.2 !! file = after_write ok (file_data file st) (disk !! file)
  /\ (forall f, f <> file -> r.2 !! f = disk !! f).
Proof.
  unfold flush_write. destruct (file_data file st) as [d|] eqn:Hd.
  - destruct ok; cbn [fst snd writeQueue writeTimeout after_write].
    + split; [done|]. split; [|split].
      * intros f. split; [by left|]. intros [?|(_ & _ & ?)]; done.
      * by rewrite lookup_insert_eq.
      * intros f Hf. by rewrite lookup_insert_ne.
    + split; [done|]. split; [|split; [done|done]].
      intros f. rewrite elem_of_union, elem_of_singleton. split.
      * intros [->|?]; [right|by left]. rewrite Hd. by eauto.
      * intros [?|(-> & _)]; [by right|by left].
    + split; [done|]. split; [|split].
      * intros f. rewrite elem_of_union, elem_of_singleton. split.
        -- intros [->|?]; [right|by left]. rewrite Hd. by eauto.
        -- intros [?|(-> & _)]; [by right|by left].
      * by rewrite lookup_insert_eq.
      * intros f Hf. by rewrite lookup_insert_ne.
  - cbn [fst snd after_write]. split; [done|]. split; [|split; [done|done]].
    intros f. split; [by left|]. intros [?|(-> & Hs & _)]; [done|].
    rewrite Hd in Hs. by destruct Hs.
Qed.

(** The loop of [flushDb] over the files [l]: the collections stay, the
    queue gains the files whose write failed, and every file of [l] holds
    what its write left. *)
Lemma flush_loop (ok : string -> write_outcome) (l : list string) (st : Store)
    (disk : files) :
  let r := foldl (fun acc file => flush_write (ok file) file acc) (st, disk) l in
  collections r.1 = collections st
  /\ writeTimeout r.1 = writeTimeout st
  /\ (forall f, f ∈ writeQueue r.1 <->
                f ∈ writeQueue st
                \/ (f ∈ l /\ is_Some (file_data f st) /\ ok f <> Written))
  /\ (forall f, r.2 !! f =
                if bool_decide (f ∈ l)
                then after_write (ok f) (file_data f st) (disk !! f)
                else disk !! f).
Proof.
  revert st disk. induction l as [|x l IH]; intros st disk; cbn [foldl].
  - split; [done|]. split; [done|]. split.
    + intros f. split; [by left|]. intros [H|(H & _)]; [done|].
      by apply elem_of_nil in H.
    + intros f. by rewrite bool_decide_false by apply not_elem_of_nil.
  - pose proof (flush_write_collections (ok x) x st disk) as Hc.
    destruct (flush_write_facts (ok x) x st disk) as (Ht & Hq & Hx & Hother).
    destruct (flush_write (ok x) x (st, disk)) as [st1 disk1].
    cbn [fst snd] in Hc, Ht, Hq, Hx, Hother.
    destruct (IH st1 disk1) as (H1 & H2 & H3 & H4).
    assert (Hfd : forall f, file_data f st1 = file_data f st)
      by (intros f; by apply file_data_collections).
    split; [congruence|]. split; [congruence|]. split.
    + intros f. rewrite H3, Hq, Hfd, elem_of_cons. split.
      * intros [[?|(-> & ? & ?)]|(? & ? & ?)]; [by left|right|right]; auto.
      * intros [?|([->|?] & ? & ?)]; [left; by left|left; right|right]; auto.
    + intros f. rewrite H4, Hfd.
      destruct (decide (f = x)) as [->|Hne].
      * rewrite (bool_decide_true (x ∈ x :: l)) by apply list_elem_of_here.
        rewrite Hx. destruct (bool_decide (x ∈ l)); [|done].
        apply after_write_twice.
      * rewrite (Hother f Hne).
        assert (Hin : bool_decide (f ∈ x :: l) = bool_decide (f ∈ l)).
        { apply bool_decide_ext. rewrite elem_of_cons.
          split; [intros [Hfx|?]; [by destruct Hne|done] | by right]. }
        by rewrite Hin.
Qed.

Lemma flush_begin_store (st : Store) :
  collections (flush_begin st).2 = collections st
  /\ writeQueue (flush_begin st).2 = ∅
  /\ writeTimeout (flush_begin st).2 = false.
Proof. done. Qed.

Lemma flushDb_loop_facts (ok : string -> write_outcome) (st : Store) (disk : files) :
  collections (flushDb ok st disk).1 = collections st
  /\ writeTimeout (flushDb ok st disk).1 = false
  /\ (forall f, f ∈ writeQueue (flushDb ok st disk).1 <->
                f ∈ writeQueue st /\ is_Some (file_data f st) /\ ok f <> Written)
  /\ (forall f, (flushDb ok st disk).2 !! f =
                if bool_decide (f ∈ writeQueue st)
                then after_write (ok f) (file_data f st) (disk !! f)
                else disk !! f).
Proof.
  unfold flushDb. cbn [flush_begin].
  destruct (flush_loop ok (elements (writeQueue st))
              (mkStore (users st) (servers st) (config st) (versions st) ∅ false) disk)
    as (H1 & H2 & H3 & H4).
  split; [exact H1|]. split; [exact H2|]. split.
  - intros f. rewrite H3. cbn [writeQueue]. rewrite elem_of_elements.
    split; [intros [H|H]; [by apply elem_of_empty in H | exact H] | by right].
  - intros f. rewrite H4.
    assert (Hin : bool_decide (f ∈ elements (writeQueue st))
                  = bool_decide (f ∈ writeQueue st))
      by (apply bool_decide_ext, elem_of_elements).
    by rewrite Hin.
Qed.

(** X1.  A flush clears the timer and leaves the collections alone.  Of
    the queued files, those whose write succeeded hold the collection as
    it is in memory and leave the queue; those whose write failed stay
    queued for the next flush, and hold what they held before when the
    write was rejected before the file was opened, and a truncated text
    when it was rejected after: one failure does not stop the other files
    from being written.  Nothing that was not queued is written. *)
Theorem flushDb_requeues_failures (ok : string -> write_outcome) (st : Store)
    (disk : files) :
  collections (flushDb ok st disk).1 = collections st
  /\ writeTimeout (flushDb ok st disk).1 = false
  /\ (forall f, f ∈ writeQueue (flushDb ok st disk).1 <->
                f ∈ writeQueue st /\ is_Some (file_data f st) /\ ok f <> Written)
  /\ (forall f, (flushDb ok st disk).2 !! f =
                if bool_decide (f ∈ writeQueue st)
                then match file_data f st with
                     | Some d =>
                         match ok f with
                         | Written => Some d
                         | FailedBefore => disk !! f
                         | FailedMidway => Some Partial
                         end
                     | None => disk !! f
                     end
                else disk !! f).
Proof. apply flushDb_loop_facts. Qed.

Lemma write_all_queue (calls : list write_call) (st : Store) (f : string) :
  f ∈ writeQueue (write_all calls st) <->
  f ∈ writeQueue st \/ f ∈ written_file <$> calls.
Proof.
  unfold write_all. revert st. induction calls as [|c calls IH]; intros st; simpl.
  - split; [by left|]. intros [H|H]; [done|]. by apply elem_of_nil in H.
  - rewrite IH, elem_of_cons.
    assert (Hq : f ∈ writeQueue (writeDb c st) <->
                 f = written_file c \/ f ∈ writeQueue st).
    { destruct c; simpl; rewrite elem_of_union, elem_of_singleton; done. }
    rewrite Hq. tauto.
Qed.

Lemma written_file_data (c : write_call) (st : Store) :
  is_Some (file_data (written_file c) st).
Proof. destruct c; by eexists. Qed.

(** X2.  Writes are coalesced: starting with nothing pending, after any
    number of [writeDb] calls one flush whose writes all succeed leaves
    nothing pending, and the disk then holds, for every collection that
    was written at least once, its latest state, and for every other file
    what it held before. *)
Theorem writes_coalesce_into_one_flush (calls : list write_call) (st : Store)
    (disk : files) :
  writeQueue st = ∅ ->
  let st' := write_all calls st in
  let r := flushDb (fun _ => Written) st' disk in
  writeQueue r.1 = ∅
  /\ writeTimeout r.1 = false
  /\ collections r.1 = collections st'
  /\ (forall f, r.2 !! f = if bool_decide (f ∈ written_file <$> calls)
                           then file_data f st'
                           else disk !! f).
Proof.
  intros Hempty st' r.
  destruct (flushDb_loop_facts (fun _ => Written) st' disk) as (H1 & H2 & H3 & H4).
  split; [|split; [exact H2|split; [exact H1|]]].
  - apply leibniz_equiv, elem_of_equiv_empty. intros f Hf.
    apply H3 in Hf as (_ & _ & Hne). by apply Hne.
  - intros f. unfold r. rewrite H4.
    assert (Hin : bool_decide (f ∈ writeQueue st')
                  = bool_decide (f ∈ written_file <$> calls)).
    { apply bool_decide_ext. unfold st'. rewrite write_all_queue, Hempty.
      split; [intros [H|H]; [by apply elem_of_empty in H|done] | by right]. }
    rewrite Hin.
    destruct (bool_decide (f ∈ written_file <$> calls)) eqn:Hf; [|done].
    apply bool_decide_eq_true in Hf.
    apply list_elem_of_fmap in Hf as (c & -> & _).
    by destruct (written_file_data c st') as [d ->].
Qed.

Lemma writes_coalesce_into_one_flush_witness :
  let r := flushDb (fun _ => Written) dirty_store ∅ in
  writeQueue r.1 = ∅
  /\ r.2 !! "servers.json" = Some (Docs [running_target])
  /\ r.2 !! "users.json" = Some (Docs [owner7])
  /\ r.2 !! "config.json" = None.
Proof.
  destruct (writes_coalesce_into_one_flush
              [WriteServers [idle_target]; WriteUsers [owner7];
               WriteServers [running_target]] emptyStore ∅ eq_refl)
    as (H1 & _ & _ & H4).
  split; [exact H1|].
  split; [|split]; (etransitivity; [apply H4|]); reflexivity.
Defined.

(** X3.  A write that arrives while a flush is under way is not lost:
    whatever part of the flush had been done before it and whatever the
    rest of the flush does, at the end the file of that write is in the
    queue, the timer set by the write is still armed, and the collections
    are as the write left them. *)
Theorem write_during_flush_stays_queued (c : write_call)
    (ok : string -> write_outcome)
    (before after : list string) (st : Store) (disk : files) :
  let turn := fun (acc : Store * files) file => flush_write (ok file) file acc in
  let r1 := foldl turn ((flush_begin st).2, disk) before in
  let r2 := foldl turn (writeDb c r1.1, r1.2) after in
  written_file c ∈ writeQueue r2.1
  /\ writeTimeout r2.1 = true
  /\ collections r2.1 = collections (writeDb c r1.1).
Proof.
  intros turn r1 r2.
  destruct (flush_loop ok after (writeDb c r1.1) r1.2) as (H1 & H2 & H3 & _).
  split; [|split; [|exact H1]].
  - apply H3. left.
    destruct c; simpl; rewrite elem_of_union, elem_of_singleton; by left.
  - unfold r2, turn. rewrite H2. by destruct c.
Qed.

(** ** Config.updateOne *)

Lemma Config_verb_one (name : string) (v : jsprim) :
  Config.verb name [(name, v)] = Some v.
Proof. unfold Config.verb. simpl. by rewrite bool_decide_true. Qed.

Lemma Config_updateOne_addToSet (k : string) (v : jsprim) (upsert : bool) (st : Store) :
  Config.updateOne {["key" := Some (VStr k)]} [("$addToSet", v)] upsert st
  = match Config.addToSet k v (config st) with
    | inr c' => inr (writeDb_config c' st)
    | inl e => inl e
    end.
Proof.
  unfold Config.updateOne. rewrite Config_key.
  change (Config.verb "$set" [("$addToSet", v)]) with (@None jsprim).
  by rewrite Config_verb_one.
Qed.

Lemma Config_updateOne_pull (k : string) (v : jsprim) (upsert : bool) (st : Store) :
  Config.updateOne {["key" := Some (VStr k)]} [("$pull", v)] upsert st
  = match Config.pullFrom k v (config st) with
    | inr c' => inr (writeDb_config c' st)
    | inl e => inl e
    end.
Proof.
  unfold Config.updateOne. rewrite Config_key.
  change (Config.verb "$set" [("$pull", v)]) with (@None jsprim).
  change (Config.verb "$addToSet" [("$pull", v)]) with (@None jsprim).
  by rewrite Config_verb_one.
Qed.

Lemma addToSet_again (k : string) (p : prim) (c c' : obj) :
  Config.addToSet k (Some p) c = inr c' ->
  Config.addToSet k (Some p) c' = inr c'.
Proof.
  unfold Config.addToSet.
  destruct (truthy (c !! k)) eqn:Ht.
  - destruct (c !! k) as [[q|arr]|] eqn:Hk; try discriminate.
    + destruct q as [| | |s]; try discriminate.
      destruct (string_includes _ s) eqn:Hs; [|discriminate].
      intros [= <-]. by rewrite Hk, Ht, Hs.
    + simpl. destruct (bool_decide (p ∈ arr)) eqn:Hin.
      * intros [= <-]. rewrite lookup_insert_eq. simpl. rewrite Hin.
        by rewrite insert_insert_eq.
      * intros [= <-]. rewrite lookup_insert_eq. simpl.
        rewrite bool_decide_true by (apply elem_of_app; right; apply list_elem_of_here).
        by rewrite insert_insert_eq.
  - simpl. intros [= <-]. rewrite lookup_insert_eq. simpl.
    rewrite bool_decide_true by apply list_elem_of_here.
    by rewrite insert_insert_eq.
Qed.

(** X4.  Adding a value to a set-valued setting is idempotent: when
    [Config.updateOne] with [$addToSet] of a defined value succeeds, doing
    it again succeeds and leaves every collection, the settings included,
    as the first call left it: the value is not added a second time. *)
Theorem Config_addToSet_idempotent (k : string) (p : prim) (upsert upsert' : bool)
    (st st1 : Store) :
  Config.updateOne {["key" := Some (VStr k)]} [("$addToSet", Some p)] upsert st
    = inr st1 ->
  exists st2,
    Config.updateOne {["key" := Some (VStr k)]} [("$addToSet", Some p)] upsert' st1
      = inr st2
    /\ collections st2 = collections st1.
Proof.
  rewrite !Config_updateOne_addToSet.
  destruct (Config.addToSet k (Some p) (config st)) as [e|c'] eqn:Ha; [discriminate|].
  intros [= <-]. simpl. rewrite (addToSet_again k p _ _ Ha).
  eexists. split; reflexivity.
Qed.

Lemma Config_addToSet_idempotent_witness :
  exists st1 st2,
    Config.updateOne {["key" := Some (VStr "requiredChannels")]}
      [("$addToSet", Some (PStr "@b"))] true channels_store = inr st1
    /\ Config.updateOne {["key" := Some (VStr "requiredChannels")]}
         [("$addToSet", Some (PStr "@b"))] true st1 = inr st2
    /\ collections st2 = collections st1.
Proof.
  eexists. 
  destruct (Config_addToSet_idempotent "requiredChannels" (PStr "@b") true true
              channels_store _ eq_refl) as (st2 & H1 & H2).
  exists st2. split; [reflexivity|]. split; [exact H1 | exact H2].
Defined.

Lemma pull_added (p : prim) (arr : list prim) :
  p ∉ arr -> Config.pull (Some p) (arr ++ [p]) = arr.
Proof.
  intros Hp. unfold Config.pull. rewrite List.filter_app. simpl.
  rewrite (bool_decide_true (Some p = Some p)) by done. simpl.
  rewrite app_nil_r. induction arr as [|a arr IH]; simpl; [done|].
  apply not_elem_of_cons in Hp as [Hne Hp].
  rewrite bool_decide_false by congruence. simpl. f_equal. by apply IH.
Qed.

(** X5.  Removing a value that was just added to an array-valued setting
    which did not hold it gives back the settings as they were. *)
Theorem Config_pull_undoes_addToSet (k : string) (p : prim) (arr : list prim)
    (upsert upsert' : bool) (st : Store) :
  config st !! k = Some (VArr arr) ->
  p ∉ arr ->
  exists st1 st2,
    Config.updateOne {["key" := Some (VStr k)]} [("$addToSet", Some p)] upsert st
      = inr st1
    /\ config st1 !! k = Some (VArr (arr ++ [p]))
    /\ Config.updateOne {["key" := Some (VStr k)]} [("$pull", Some p)] upsert' st1
       = inr st2
    /\ config st2 = config st.
Proof.
  intros Hk Hp. rewrite Config_updateOne_addToSet.
  unfold Config.addToSet. rewrite Hk. simpl.
  rewrite bool_decide_false by done.
  eexists. eexists. split; [reflexivity|]. simpl. split; [by rewrite lookup_insert_eq|].
  rewrite Config_updateOne_pull. unfold Config.pullFrom. simpl.
  rewrite lookup_insert_eq. simpl. split; [reflexivity|]. simpl.
  rewrite insert_insert_eq, pull_added by done. by apply insert_id.
Qed.

Lemma Config_pull_undoes_addToSet_witness :
  exists st1 st2,
    Config.updateOne {["key" := Some (VStr "requiredChannels")]}
      [("$addToSet", Some (PStr "@b"))] true channels_store = inr st1
    /\ Config.updateOne {["key" := Some (VStr "requiredChannels")]}
         [("$pull", Some (PStr "@b"))] false st1 = inr st2
    /\ config st2 = config channels_store.
Proof.
  destruct (Config_pull_undoes_addToSet "requiredChannels" (PStr "@b") [PStr "@a"]
              true false channels_store eq_refl) as (st1 & st2 & H1 & _ & H2 & H3).
  - intros Hin. apply list_elem_of_singleton in Hin. discriminate.
  - exists st1, st2. auto.
Defined.

(** ** The caches *)

(** X6.  A value put in a cache is returned as long as its time to live
    has not run out, and reading it changes nothing; once the time has run
    out the read returns null and removes the entry.  Entries under other
    keys are not affected by either. *)
Theorem cache_round_trip {V} (c : cache V) (key : Z) (value : V) (ttl now later : Z) :
  (later < now + ttl * 1000 ->
     getFromCache (setToCache c key value ttl now) key later
     = (Some value, setToCache c key value ttl now))
  /\ (now + ttl * 1000 <= later ->
        getFromCache (setToCache c key value ttl now) key later
        = (None, delete key c))
  /\ (forall other, other <> key ->
        (getFromCache (setToCache c key value ttl now) other later).1
        = (getFromCache c other later).1).
Proof.
  unfold getFromCache, setToCache. split; [|split].
  - intros Hlt. rewrite lookup_insert_eq. by rewrite bool_decide_true by lia.
  - intros Hge. rewrite lookup_insert_eq. rewrite bool_decide_false by lia.
    by rewrite delete_insert_eq.
  - intros other Hne. rewrite lookup_insert_ne by done.
    destruct (c !! other) as [[v e]|]; [destruct (bool_decide (e > later))|]; done.
Qed.

Lemma cache_round_trip_witness :
  getFromCache (setToCache (∅ : cache bool) 7 true 300 1000) 7 300999
  = (Some true, setToCache ∅ 7 true 300 1000)
  /\ getFromCache (setToCache (∅ : cache bool) 7 true 300 1000) 7 301000
     = (None, delete 7 ∅).
Proof.
  split.
  - apply (proj1 (cache_round_trip ∅ 7 true 300 1000 300999)). lia.
  - apply (proj1 (proj2 (cache_round_trip ∅ 7 true 300 1000 301000))). lia.
Defined.

(** ** The users *)

Lemma updateData_lookup (from : sender) (user : obj) (k : string) :
  updateData from user !! k =
  if bool_decide (k = "username")
  then (if strict_eq (user !! "username") (Some (VStr (currentUsername from)))
        then None else Some (Some (VStr (currentUsername from))))
  else if bool_decide (k = "name")
  then (if strict_eq (user !! "name") (Some (VStr (currentName from)))
        then None else Some (Some (VStr (currentName from))))
  else None.
Proof.
  unfold updateData. rewrite lookup_union.
  destruct (strict_eq (user !! "username") _), (strict_eq (user !! "name") _);
    repeat case_bool_decide; subst;
    rewrite ?lookup_empty, ?lookup_singleton_eq, ?lookup_singleton_ne by done;
    done.
Qed.

Lemma updateData_empty (from : sender) (user : obj) :
  updateData from user = ∅ ->
  user !! "username" = Some (VStr (currentUsername from))
  /\ user !! "name" = Some (VStr (currentName from)).
Proof.
  intros He.
  pose proof (updateData_lookup from user "username") as Hu.
  pose proof (updateData_lookup from user "name") as Hn.
  rewrite He, lookup_empty in Hu, Hn. simpl in Hu, Hn.
  destruct (strict_eq (user !! "username") _) eqn:H1; [|discriminate].
  destruct (strict_eq (user !! "name") _) eqn:H2; [|discriminate].
  split; by apply strict_eq_true.
Qed.

Lemma Users_findOne_index (query : payload) (st : Store) (user : obj) :
  Users.findOne query st = Some user ->
  exists i, findIndex (matches query) (users st) = Some i
            /\ users st !! i = Some user /\ matches query user = true.
Proof.
  unfold Users.findOne, Users.find. intros Hf.
  destruct (find_findIndex _ _ _ Hf) as (i & Hi & Hu).
  apply List.find_some in Hf as [_ Hm]. eauto.
Qed.

Lemma Users_updateOne_found (query fields : payload) (st : Store) (i : nat) (user : obj) :
  findIndex (matches query) (users st) = Some i ->
  users st !! i = Some user ->
  matches query (spread user fields) = true ->
  users (Users.updateOne query (set_fields fields) st)
    = alter (fun r => spread r fields) i (users st)
  /\ Users.findOne query (Users.updateOne query (set_fields fields) st)
     = Some (spread user fields).
Proof.
  intros Hi Hu Hm. unfold Users.updateOne, Users.find. rewrite Hi. simpl.
  split; [done|]. unfold Users.findOne, Users.find. simpl.
  by apply (find_alter_first _ _ i user (fun r => spread r fields)).
Qed.

Lemma find_app_new {A} (p : A -> bool) (l : list A) (x : A) :
  List.find p l = None -> p x = true -> List.find p (l ++ [x]) = Some x.
Proof.
  induction l as [|a l IH]; simpl; [by intros _ ->|].
  destruct (p a); [discriminate|]. apply IH.
Qed.

(** What [syncUser] does, by cases on whether the sender is known. *)
Lemma syncUser_cases (now : string) (from : sender) (st : Store) :
  let q : payload := {["userId" := Some (VNum (from_id from))]} in
  exists u,
    Users.findOne q (syncUser now from st) = Some u
    /\ u !! "username" = Some (VStr (currentUsername from))
    /\ u !! "name" = Some (VStr (currentName from))
    /\ match Users.findOne q st with
       | Some old =>
           (forall k, k <> "username" -> k <> "name" -> u !! k = old !! k)
           /\ length (users (syncUser now from st)) = length (users st)
       | None =>
           u !! "isBanned" = Some (VBool false)
           /\ u !! "isAdmin" = Some (VBool (bool_decide (from_id from = ADMIN_ID)))
           /\ u !! "joinedAt" = Some (VStr now)
           /\ users (syncUser now from st) = (users st ++ [u])%list
       end.
Proof.
  intros q. unfold syncUser. fold q.
  destruct (Users.findOne q st) as [old|] eqn:Hf.
  - destruct (Users_findOne_index _ _ _ Hf) as (i & Hi & Hu & Hm).
    case_bool_decide as He.
    + exists old. destruct (updateData_empty _ _ He) as [H1 H2].
      rewrite Hf. auto.
    + assert (Hm' : matches q (spread old (updateData from old)) = true).
      { unfold q in *. rewrite matches_singleton in *.
        rewrite spread_lookup, updateData_lookup. simpl. exact Hm. }
      destruct (Users_updateOne_found q _ st i old Hi Hu Hm') as [Hus Hfo].
      exists (spread old (updateData from old)). split; [exact Hfo|].
      split; [|split; [|split]].
      * rewrite spread_lookup, updateData_lookup. simpl.
        destruct (strict_eq (old !! "username") _) eqn:H1; [|done].
        by apply strict_eq_true.
      * rewrite spread_lookup, updateData_lookup. simpl.
        destruct (strict_eq (old !! "name") _) eqn:H1; [|done].
        by apply strict_eq_true.
      * intros k Hk1 Hk2. rewrite spread_lookup, updateData_lookup.
        by rewrite !bool_decide_false by done.
      * rewrite Hus. apply length_alter.
  - unfold Users_create. cbn [snd].
    set (D := ({["userId" := Some (VNum (from_id from));
                 "username" := Some (VStr (currentUsername from));
                 "name" := Some (VStr (currentName from))]} : payload)).
    assert (HD1 : D !! "userId" = Some (Some (VNum (from_id from)))) by reflexivity.
    assert (HD2 : D !! "username" = Some (Some (VStr (currentUsername from))))
      by reflexivity.
    assert (HD3 : D !! "name" = Some (Some (VStr (currentName from)))) by reflexivity.
    clearbody D. rewrite HD1. simpl mjoin.
    set (u := <["joinedAt" := VStr now]> _).
    exists u.
    assert (Hspread : forall k v, D !! k = Some (Some v) ->
                                  k <> "joinedAt" -> k <> "isAdmin" -> k <> "isBanned" ->
                                  u !! k = Some v).
    { intros k v Hk H1 H2 H3. unfold u.
      rewrite !lookup_insert_ne by done. by rewrite spread_lookup, Hk. }
    split.
    + unfold Users.findOne, Users.find. simpl. apply find_app_new; [exact Hf|].
      unfold q. rewrite matches_singleton, (Hspread _ _ HD1) by done.
      apply strict_eq_prim.
    + split; [by apply Hspread|]. split; [by apply Hspread|].
      unfold u. split; [|split; [|split]].
      * by rewrite lookup_insert_ne, lookup_insert_ne, lookup_insert_eq.
      * rewrite lookup_insert_ne, lookup_insert_eq by done. do 3 f_equal.
        simpl. apply bool_decide_ext. split; congruence.
      * by rewrite lookup_insert_eq.
      * done.
Qed.

(** X7.  After the middleware that records senders has run, the sender
    is a known user carrying the current username and display name.  For
    a user who was already known nothing else changes, in particular
    neither the ban nor the admin flag, and no record is added; a user
    seen for the first time is appended, not banned, and is an admin only
    when the id is that of the primary administrator. *)
Theorem syncUser_records_sender (now : string) (from : sender) (st : Store) :
  let q : payload := {["userId" := Some (VNum (from_id from))]} in
  exists u,
    Users.findOne q (syncUser now from st) = Some u
    /\ u !! "username" = Some (VStr (currentUsername from))
    /\ u !! "name" = Some (VStr (currentName from))
    /\ match Users.findOne q st with
       | Some old =>
           (forall k, k <> "username" -> k <> "name" -> u !! k = old !! k)
           /\ length (users (syncUser now from st)) = length (users st)
       | None =>
           u !! "isBanned" = Some (VBool false)
           /\ u !! "isAdmin" = Some (VBool (bool_decide (from_id from = ADMIN_ID)))
           /\ u !! "joinedAt" = Some (VStr now)
           /\ users (syncUser now from st) = (users st ++ [u])%list
       end.
Proof. apply syncUser_cases. Qed.

(** X8.  Recording the same sender a second time changes nothing: no
    field is rewritten and nothing is queued for writing. *)
Theorem syncUser_idempotent (now now' : string) (from : sender) (st : Store) :
  syncUser now' from (syncUser now from st) = syncUser now from st.
Proof.
  destruct (syncUser_cases now from st) as (u & Hf & Hu & Hn & _).
  unfold syncUser at 1. cbv zeta. rewrite Hf.
  rewrite bool_decide_true; [done|].
  apply map_eq. intros k. rewrite updateData_lookup, lookup_empty, Hu, Hn.
  rewrite !strict_eq_prim. by repeat case_bool_decide.
Qed.

Lemma syncUser_records_sender_witness :
  exists u,
    Users.findOne {["userId" := Some (VNum 9)]}
      (syncUser "2024-01-01T00:00:00.000Z" (mkSender 9 (Some "nine") (Some "N") None)
         channels_store) = Some u
    /\ u !! "username" = Some (VStr "@nine")
    /\ u !! "name" = Some (VStr "N")
    /\ u !! "isAdmin" = Some (VBool false).
Proof.
  destruct (syncUser_records_sender "2024-01-01T00:00:00.000Z"
              (mkSender 9 (Some "nine") (Some "N") None) channels_store)
    as (u & H1 & H2 & H3 & H4).
  exists u. split; [exact H1|]. split; [exact H2|]. split; [exact H3|].
  change (Users.findOne _ channels_store) with (@None obj) in H4.
  exact (proj1 (proj2 H4)).
Defined.

(** ** The access gate *)

(** X9.  The gate answers that the bot is under maintenance exactly when
    the update comes from a private chat, the settings hold [botOnline]
    equal to [false], and the sender is not the primary administrator; the
    cache is then left alone.  A missing [botOnline] counts as online, and
    the primary administrator is never locked out. *)
Theorem gate_maintenance (private : bool) (uid : Z) (now now' : Z) (st : Store)
    (c : cache userStatus) :
  ((gate private (Some uid) now now' st c).1 = Maintenance <->
   private = true
   /\ config st !! "botOnline" = Some (VBool false)
   /\ uid <> ADMIN_ID)
  /\ ((gate private (Some uid) now now' st c).1 = Maintenance ->
      (gate private (Some uid) now now' st c).2 = c).
Proof.
  unfold gate. destruct private; simpl.
  2:{ split; [split; [discriminate|by intros [[=] _]]|done]. }
  destruct (strict_eq (config st !! "botOnline") (Some (VBool false))) eqn:Hb; simpl.
  - apply strict_eq_true in Hb. case_bool_decide as Hu; simpl.
    + split; [|intros H; exfalso; revert H];
        destruct (getFromCache c uid now) as [[s|] c1];
        try destruct (Users.findOne _ st); simpl;
        try destruct (truthy _); try (split; [discriminate|tauto]); discriminate.
    + split; [split; [done|auto]|done].
  - assert (Hne : config st !! "botOnline" <> Some (VBool false)).
    { intros He. rewrite He in Hb. discriminate. }
    split; [|intros H; exfalso; revert H];
      destruct (getFromCache c uid now) as [[s|] c1];
      try destruct (Users.findOne _ st); simpl;
      try destruct (truthy _); try (split; [discriminate|tauto]); discriminate.
Qed.

(** X10.  A status that the cache still holds decides alone: as long as
    the entry of the sender has not expired (and the bot is not under
    maintenance for him), the gate blocks or admits according to the
    cached ban flag, whatever the users collection says by now, and does
    not touch the cache.  A ban is therefore not enforced before the
    status cached earlier expires. *)
Theorem gate_cached_status_decides (uid : Z) (now now' : Z) (st : Store)
    (c : cache userStatus) (isBanned isAdmin : jsval) (expiry : Z) :
  c !! uid = Some ((isBanned, isAdmin), expiry) ->
  expiry > now ->
  strict_eq (config st !! "botOnline") (Some (VBool false))
    && negb (bool_decide (uid = ADMIN_ID)) = false ->
  gate true (Some uid) now now' st c
  = (if truthy isBanned then Blocked else Next (Some isAdmin), c).
Proof.
  intros Hc He Hm. unfold gate. simpl. rewrite Hm.
  unfold getFromCache. rewrite Hc. rewrite bool_decide_true by done.
  simpl. by destruct (truthy isBanned).
Qed.

Lemma gate_cached_status_decides_witness :
  gate true (Some 7) 399999 399999 banned7_store stale_cache
  = (Next (Some (Some (VBool false))), stale_cache)
  /\ (Users.findOne {["userId" := Some (VNum 7)]} banned7_store ≫= (.!! "isBanned"))
     = Some (VBool true).
Proof.
  split.
  - apply (gate_cached_status_decides 7 399999 399999 banned7_store stale_cache
             (Some (VBool false)) (Some (VBool false)) 400000);
      [reflexivity | lia | reflexivity].
  - reflexivity.
Defined.

(** X11.  With no valid entry in the cache, the gate reads the user from
    the store: a banned user is blocked, any other known user is admitted
    with the admin flag of the record, and in both cases the status is
    cached for 300 seconds; an unknown sender is admitted with no admin
    flag and nothing is cached. *)
Theorem gate_cold_cache (uid : Z) (now now' : Z) (st : Store)
    (c : cache userStatus) :
  (getFromCache c uid now).1 = None ->
  strict_eq (config st !! "botOnline") (Some (VBool false))
    && negb (bool_decide (uid = ADMIN_ID)) = false ->
  gate true (Some uid) now now' st c
  = match Users.findOne {["userId" := Some (VNum uid)]} st with
    | Some user =>
        (if truthy (user !! "isBanned") then Blocked
         else Next (Some (user !! "isAdmin")),
         <[uid := ((user !! "isBanned", user !! "isAdmin"), now' + 300000)]>
           (delete uid c))
    | None => (Next None, delete uid c)
    end.
Proof.
  intros Hg Hm. unfold gate. simpl. rewrite Hm.
  assert (Hc : getFromCache c uid now = (None, delete uid c)).
  { unfold getFromCache in *. destruct (c !! uid) as [[v e]|]; [|done].
    destruct (bool_decide (e > now)); [discriminate|done]. }
  rewrite Hc. destruct (Users.findOne _ st) as [user|]; simpl; [|done].
  unfold setToCache. by destruct (truthy (user !! "isBanned")).
Qed.

Lemma gate_cold_cache_witness :
  gate true (Some 7) 400000 400001 banned7_store stale_cache
  = (Blocked, {[7 := ((Some (VBool true), Some (VBool false)), 700001)]}).
Proof.
  etransitivity.
  - apply (gate_cold_cache 7 400000 400001 banned7_store stale_cache);
      reflexivity.
  - vm_compute. reflexivity.
Defined.

(** * Further properties of the supervisor *)

Lemma same_refl (st : Store) : same_but_supervised st st.
Proof. by repeat split. Qed.

Lemma same_trans (a b c : Store) :
  same_but_supervised a b -> same_but_supervised b c -> same_but_supervised a c.
Proof.
  intros (H1 & H2 & H3 & H4) (G1 & G2 & G3 & G4).
  repeat split; try congruence. intros k Hk. by rewrite G4, H4.
Qed.

Lemma fmap_alter_same {A B} (g : A -> B) (f : A -> A) (i : nat) (l : list A) :
  (forall x, g (f x) = g x) -> g <$> alter f i l = g <$> l.
Proof.
  intros Hg. revert i. induction l as [|a l IH]; intros [|i]; simpl; try done.
  - by rewrite Hg.
  - f_equal. apply IH.
Qed.

Lemma same_updateOne (query fields : payload) (st : Store) :
  (forall k, ~ supervised_field k -> fields !! k = None) ->
  same_but_supervised st (Servers.updateOne query (set_fields fields) st).
Proof.
  intros Hf. unfold Servers.updateOne. rewrite (Servers_find_all st).
  destruct (findIndex _ (servers st)) as [i|]; [|apply same_refl].
  repeat split; try done. intros k Hk. simpl.
  apply fmap_alter_same. intros x. apply spread_untouched. by apply Hf.
Qed.

Lemma supervised_payload (fields : payload) :
  dom fields ⊆ ({["status"; "botPid"; "autoRestart"]} : gset string) ->
  forall k, ~ supervised_field k -> fields !! k = None.
Proof.
  intros Hd k Hk. apply not_elem_of_dom. intros Hin. apply Hd in Hin.
  apply Hk. unfold supervised_field.
  rewrite !elem_of_union, !elem_of_singleton in Hin. tauto.
Qed.

Lemma same_setFields (server : obj) (fields : payload) (w : world) :
  dom fields ⊆ ({["status"; "botPid"; "autoRestart"]} : gset string) ->
  same_but_supervised (store w) (store (setFields server fields w)).
Proof. intros Hd. apply same_updateOne. by apply supervised_payload. Qed.

Ltac supervised_dom :=
  rewrite ?dom_insert_L, ?dom_singleton_L;
  intros x; rewrite ?elem_of_union, ?elem_of_singleton; tauto.

Lemma same_connectionFailed c server w :
  same_but_supervised (store w) (store (connectionFailed c server w)).
Proof.
  unfold connectionFailed. rewrite store_edit.
  apply same_setFields. supervised_dom.
Qed.

Lemma same_startBot c id w :
  same_but_supervised (store w) (store (startBot c id w)).
Proof.
  unfold startBot. destruct (Servers.findById id (store w)) as [server|];
    [|rewrite store_edit; apply same_refl].
  destruct (strict_eq _ _); [rewrite store_edit; apply same_refl|].
  destruct (_ && _); [rewrite store_edit; apply same_refl|].
  cbv zeta. change (store (suspend ?t ?w)) with (store w).
  destruct (is_string _); [rewrite store_edit|]; apply same_setFields; supervised_dom.
Qed.

Lemma same_startBot_dispatch c server w :
  same_but_supervised (store w) (store (startBot_dispatch c server w)).
Proof.
  unfold startBot_dispatch. destruct (getSupportedVersions _); [|apply same_refl].
  case_bool_decide; apply same_refl.
Qed.

Lemma same_probed c server versions r w :
  same_but_supervised (store w) (store (startBedrockBot_probed c server versions r w)).
Proof.
  unfold startBedrockBot_probed. destruct r as [pv|]; [|apply same_connectionFailed].
  destruct (negb _).
  - rewrite store_edit. apply same_setFields. supervised_dom.
  - cbv zeta. change (store (suspend ?t ?w)) with (store w).
    rewrite store_edit. apply same_setFields. supervised_dom.
Qed.

Lemma same_spawn c server mc r w :
  same_but_supervised (store w) (store (startBedrockBot_spawn c server mc r w)).
Proof.
  unfold startBedrockBot_spawn. destruct r as [|pid]; [apply same_connectionFailed|].
  cbv zeta. rewrite store_edit.
  apply (same_setFields server _ (add_child _ (emit _ w))).
  destruct pid; simpl; supervised_dom.
Qed.

Lemma same_handleBotExit id c w :
  same_but_supervised (store w) (store (handleBotExit id c w)).
Proof.
  destruct (Servers.findById id (store w)) as [server|] eqn:Hf;
    [|rewrite (handleBotExit_absent _ _ _ Hf); apply same_refl].
  destruct (decide (server !! "status" = Some (VStr ST_ACTIVE))) as [Hs|Hs];
    [|rewrite (handleBotExit_not_active _ _ _ _ Hf Hs); apply same_refl].
  rewrite (handleBotExit_store _ _ _ _ Hf Hs).
  apply same_updateOne, supervised_payload. unfold exit_fields. supervised_dom.
Qed.

Lemma same_stopBot c id w :
  same_but_supervised (store w) (store (stopBot c id w)).
Proof.
  rewrite stopBot_store. destruct (Servers.findById id (store w)); [|apply same_refl].
  apply same_updateOne, supervised_payload. unfold stop_fields. supervised_dom.
Qed.

Lemma same_step (w : world) (e : event) :
  same_but_supervised (store w) (store (step w e)).
Proof.
  destruct e as [c id|c id|i|i r|i r|pid|k|k|k]; simpl.
  - apply same_startBot.
  - apply same_stopBot.
  - destruct (tasks w !! i) as [[c server|c server v|c server mc]|];
      try apply same_refl.
    apply (same_startBot_dispatch c server (drop_task i w)).
  - destruct (tasks w !! i) as [[c server|c server v|c server mc]|];
      try apply same_refl.
    apply (same_probed c server v r (drop_task i w)).
  - destruct (tasks w !! i) as [[c server|c server v|c server mc]|];
      try apply same_refl.
    apply (same_spawn c server mc r (drop_task i w)).
  - apply same_refl.
  - destruct (children w !! k) as [[[p|] id c]|]; try apply same_refl.
    case_bool_decide; [apply same_refl|].
    apply (same_handleBotExit id c (drop_child k w)).
  - destruct (children w !! k) as [[[p|] id c]|]; try apply same_refl.
    apply (same_handleBotExit id c (drop_child k w)).
  - destruct (timers w !! k) as [id|]; [|apply same_refl].
    apply (same_startBot None id (drop_timer k w)).
Qed.

(** X12.  Whatever happens to the workers, the supervisor writes nothing
    but the status, the process id and the auto-restart flag of targets:
    along any run of events the users, the settings and the versions stay
    as they are, no target is added or removed, and every other field of
    every target (its id, owner, address, names) keeps its value. *)
Theorem supervisor_writes_only_its_fields (w : world) (events : list event) :
  users (store (run w events)) = users (store w)
  /\ config (store (run w events)) = config (store w)
  /\ versions (store (run w events)) = versions (store w)
  /\ length (servers (store (run w events))) = length (servers (store w))
  /\ forall k, k <> "status" -> k <> "botPid" -> k <> "autoRestart" ->
       (fun s : obj => s !! k) <$> servers (store (run w events))
       = (fun s : obj => s !! k) <$> servers (store w).
Proof.
  assert (H : same_but_supervised (store w) (store (run w events))).
  { unfold run. revert w. induction events as [|e es IH]; intros w; simpl.
    - apply same_refl.
    - eapply same_trans; [apply same_step | apply IH]. }
  destruct H as (H1 & H2 & H3 & H4). repeat split; try done.
  - assert (Hid : ~ supervised_field "_id").
    { unfold supervised_field. intros [?|[?|?]]; discriminate. }
    pose proof (f_equal length (H4 "_id" Hid)) as Hl.
    by rewrite !length_fmap in Hl.
  - intros k K1 K2 K3. apply H4. unfold supervised_field. tauto.
Qed.

Lemma spawned_emit e w :
  spawned (emit e w) = (spawned w ++ match e with
                                    | Spawn (Some p) _ => [p]
                                    | _ => []
                                    end)%list.
Proof.
  unfold spawned, emit. simpl. rewrite omap_app. simpl.
  destruct e as [| | | |[p|] args|]; simpl; by rewrite ?app_nil_r.
Qed.

Lemma spawned_edit c m w : spawned (edit c m w) = spawned w.
Proof. destruct c; [|done]. simpl. by rewrite spawned_emit, app_nil_r. Qed.

Lemma edit_frame c m w :
  live (edit c m w) = live w /\ children (edit c m w) = children w
  /\ tasks (edit c m w) = tasks w /\ timers (edit c m w) = timers w.
Proof. by destruct c. Qed.

(** X13.  A start that fails at the probe spawns nothing.  When the
    probe is rejected the target is marked connection-failed with its
    process id cleared; when the probe reports a protocol that the table
    of versions does not map to a name, the target is marked
    unsupported-version.  In both cases no process is spawned, no child is
    registered, no timer is armed and the call is over. *)
Theorem failed_probe_spawns_nothing (c : ctx) (server cur : obj)
    (versions : protocolMap) (r : probe_result) (w : world) :
  Servers.findById (server !! "_id") (store w) = Some cur ->
  match r with
  | ProbeOk pv => truthy (mjoin (pm_bedrock versions !! to_property_key pv)) = false
  | ProbeFailed => True
  end ->
  let w' := startBedrockBot_probed c server versions r w in
  (exists cur',
      Servers.findById (server !! "_id") (store w') = Some cur'
      /\ cur' !! "status"
         = Some (VStr match r with
                      | ProbeOk _ => ST_UNSUPPORTED
                      | ProbeFailed => ST_CONNECTION_FAILED
                      end)
      /\ (r = ProbeFailed -> cur' !! "botPid" = Some VNull))
  /\ spawned w' = spawned w
  /\ live w' = live w
  /\ children w' = children w
  /\ tasks w' = tasks w
  /\ timers w' = timers w.
Proof.
  intros Hf Hr w'. unfold w', startBedrockBot_probed.
  destruct r as [pv|].
  - rewrite Hr. simpl. split.
    + exists (spread cur {["status" := Some (VStr ST_UNSUPPORTED)]}).
      rewrite store_edit. split; [by apply setFields_found|].
      split; [by rewrite spread_lookup|discriminate].
    + rewrite spawned_edit. by destruct c.
  - unfold connectionFailed. split.
    + exists (spread cur failed_fields). rewrite store_edit.
      split; [by apply setFields_found|]. by rewrite !spread_lookup.
    + rewrite spawned_edit. by destruct c.
Qed.

Lemma failed_probe_spawns_nothing_witness :
  let w := run (initial idle_store) [EvStart (Some 1%nat) a1; EvEdited 0] in
  let w' := step w (EvProbed 0 (ProbeOk (Some (VNum 999)))) in
  (status_of <$> target "a1" w') = Some (Error "unsupported-version")
  /\ spawned w' = []
  /\ tasks w' = [].
Proof.
  intros w w'.
  assert (Ht : tasks w = [AwaitProbe (Some 1%nat) idle_target
                            (mkProtocolMap ∅ {["818" := Some (VStr "1.21.90")]})])
    by (vm_compute; reflexivity).
  assert (Hf : Servers.findById (idle_target !! "_id") (store (drop_task 0 w))
               = Some (<["status" := VStr ST_SEARCHING]> idle_target))
    by (vm_compute; reflexivity).
  assert (Hr : truthy (mjoin (pm_bedrock
                           (mkProtocolMap ∅ {["818" := Some (VStr "1.21.90")]})
                         !! to_property_key (Some (VNum 999)))) = false)
    by (vm_compute; reflexivity).
  destruct (failed_probe_spawns_nothing (Some 1%nat) idle_target _
              (mkProtocolMap ∅ {["818" := Some (VStr "1.21.90")]})
              (ProbeOk (Some (VNum 999))) (drop_task 0 w) Hf Hr)
    as ((cur' & H1 & H2 & _) & H3 & _ & _ & H4 & _).
  assert (Hw' : w' = startBedrockBot_probed (Some 1%nat) idle_target
                       (mkProtocolMap ∅ {["818" := Some (VStr "1.21.90")]})
                       (ProbeOk (Some (VNum 999))) (drop_task 0 w)).
  { unfold w', step. by rewrite Ht. }
  rewrite Hw'. split; [|split].
  - unfold target. change (Some (VStr "a1")) with (idle_target !! "_id").
    rewrite H1. simpl. unfold status_of. rewrite H2. reflexivity.
  - rewrite H3. vm_compute. reflexivity.
  - rewrite H4. vm_compute. reflexivity.
Defined.

(** ** The table of versions *)

Lemma getSupportedVersions_snoc (st st' : Store) (v : obj) :
  versions st' = (versions st ++ [v])%list ->
  getSupportedVersions st'
  = match getSupportedVersions st with
    | None => None
    | Some m =>
        let k := to_property_key (v !! "protocol") in
        if bool_decide (to_property_key (v !! "type") = "java")
        then Some (mkProtocolMap (<[k := v !! "name"]> (pm_java m)) (pm_bedrock m))
        else if bool_decide (to_property_key (v !! "type") = "bedrock")
        then Some (mkProtocolMap (pm_java m) (<[k := v !! "name"]> (pm_bedrock m)))
        else None
    end.
Proof.
  intros Hv. unfold getSupportedVersions.
  rewrite (Versions_find_all st), (Versions_find_all st'), Hv.
  by rewrite foldl_app.
Qed.

(** X14.  A version that [Versions.create] has accepted is supported
    from then on: when the table could be built before, it can be built
    after, and it maps the protocol of the new bedrock record to its name
    while every other protocol keeps the name it had. *)
Theorem created_version_is_supported (versionData : obj) (st st' : Store)
    (m : protocolMap) :
  Versions.create versionData st = (None, st') ->
  to_property_key (versionData !! "type") = "bedrock" ->
  getSupportedVersions st = Some m ->
  exists m',
    getSupportedVersions st' = Some m'
    /\ pm_bedrock m' !! to_property_key (versionData !! "protocol")
       = Some (versionData !! "name")
    /\ (forall k, k <> to_property_key (versionData !! "protocol") ->
                  pm_bedrock m' !! k = pm_bedrock m !! k)
    /\ pm_java m' = pm_java m.
Proof.
  unfold Versions.create. rewrite (Versions_find_all st).
  destruct (existsb _ (versions st)); [discriminate|].
  intros [= <-] Ht Hm.
  rewrite (getSupportedVersions_snoc st
             (writeDb_versions (versions st ++ [versionData]) st) versionData)
    by reflexivity.
  rewrite Hm, Ht. simpl.
  eexists. split; [reflexivity|]. simpl. split; [by rewrite lookup_insert_eq|].
  split; [|done]. intros k Hk. by rewrite lookup_insert_ne.
Qed.

Lemma created_version_is_supported_witness :
  exists st' m',
    Versions.create v800 table_818 = (None, st')
    /\ getSupportedVersions st' = Some m'
    /\ pm_bedrock m' !! "800" = Some (Some (VStr "1.21.80"))
    /\ pm_bedrock m' !! "818" = Some (Some (VStr "1.21.90")).
Proof.
  eexists.
  assert (Hc : Versions.create v800 table_818
               = (None, snd (Versions.create v800 table_818)))
    by (vm_compute; reflexivity).
  assert (Ht : to_property_key (v800 !! "type") = "bedrock")
    by (vm_compute; reflexivity).
  assert (Hm : getSupportedVersions table_818
               = Some (mkProtocolMap ∅ {["818" := Some (VStr "1.21.90")]}))
    by (vm_compute; reflexivity).
  destruct (created_version_is_supported v800 table_818 _ _ Hc Ht Hm)
    as (m' & H1 & H2 & H3 & _).
  exists m'. split; [exact Hc|]. split; [exact H1|]. split; [exact H2|].
  rewrite H3 by (vm_compute; discriminate). vm_compute. reflexivity.
Defined.

(** ** The exit of a worker *)

Lemma users_setFields server fields w :
  users (store (setFields server fields w)) = users (store w).
Proof.
  unfold setFields, on_store, Servers.updateOne. simpl.
  by destruct (findIndex _ _).
Qed.

Lemma manageServerAction_frame c id w :
  live (manageServerAction c id w) = live w
  /\ children (manageServerAction c id w) = children w
  /\ tasks (manageServerAction c id w) = tasks w
  /\ timers (manageServerAction c id w) = timers w
  /\ spawned (manageServerAction c id w) = spawned w
  /\ disconnect_notices (manageServerAction c id w) = disconnect_notices w.
Proof.
  unfold manageServerAction.
  destruct (Servers.findById id (store w)); destruct c; simpl;
    unfold spawned, disconnect_notices; simpl; rewrite ?omap_app; simpl;
    by rewrite ?app_nil_r.
Qed.

(** X15.  What the exit of a worker does to a target recorded as
    active: the target is recorded as stopped with its process id
    cleared; its owner, when the user record exists and the target asks
    for notifications, is told once that the bot was disconnected; a
    restart timer is armed exactly when the target has auto-restart set;
    nothing is spawned and no call is left waiting. *)
Theorem worker_exit_of_active_target (serverId : jsval) (c : ctx) (w : world)
    (server : obj) :
  Servers.findById serverId (store w) = Some server ->
  server !! "status" = Some (VStr ST_ACTIVE) ->
  let w' := handleBotExit serverId c w in
  Servers.findById serverId (store w') = Some (spread server exit_fields)
  /\ timers w'
     = (timers w ++ if truthy (server !! "autoRestart") then [serverId] else [])%list
  /\ disconnect_notices w'
     = (disconnect_notices w
        ++ match Users.findOne {["userId" := server !! "userId"]} (store w) with
           | Some o => if truthy (server !! "notifyOnError")
                       then [o !! "userId"] else []
           | None => []
           end)%list
  /\ spawned w' = spawned w
  /\ live w' = live w
  /\ children w' = children w
  /\ tasks w' = tasks w.
Proof.
  intros Hf Hs w'.
  destruct (handleBotExit_found serverId c w server Hf Hs) as (_ & _ & _ & _ & _ & Hnew).
  split; [exact Hnew|]. clear Hnew.
  unfold w', handleBotExit. rewrite Hf, Hs, strict_eq_prim.
  cbv beta iota zeta. simpl negb. cbv iota.
  unfold Users.findOne, Users.find. rewrite users_setFields.
  set (w1 := setFields server _ w).
  assert (H1 : timers w1 = timers w /\ disconnect_notices w1 = disconnect_notices w
               /\ spawned w1 = spawned w /\ live w1 = live w
               /\ children w1 = children w /\ tasks w1 = tasks w) by done.
  clearbody w1. destruct H1 as (Ht & Hd & Hsp & Hl & Hc & Hk).
  rewrite <- Ht, <- Hd, <- Hsp, <- Hl, <- Hc, <- Hk.
  destruct (List.find _ (users (store w))) as [o|];
    destruct (truthy (server !! "notifyOnError"));
    destruct (truthy (server !! "autoRestart"));
    try (destruct c as [n|];
         [destruct (manageServerAction_frame (Some n) serverId w1)
            as (E1 & E2 & E3 & E4 & E5 & E6);
          try destruct (manageServerAction_frame (Some n) serverId
                          (emit (SendMessage (o !! "userId") MsgDisconnected) w1))
            as (F1 & F2 & F3 & F4 & F5 & F6);
          rewrite ?E1, ?E2, ?E3, ?E4, ?E5, ?E6, ?F1, ?F2, ?F3, ?F4, ?F5, ?F6|]);
    unfold spawned, disconnect_notices; simpl; rewrite ?omap_app; simpl;
    rewrite ?app_nil_r; done.
Qed.

Lemma worker_exit_of_active_target_witness :
  let w := run exited_world [EvChildExit 0] in
  timers w = [a1] /\ disconnect_notices w = [Some (VNum 7)] /\ tasks w = [].
Proof.
  assert (Hs : step exited_world (EvChildExit 0)
               = handleBotExit a1 (Some 1%nat) (drop_child 0 exited_world))
    by (vm_compute; reflexivity).
  assert (Hf : Servers.findById a1 (store (drop_child 0 exited_world))
               = Some (<["autoRestart" := VBool true]> running_target))
    by (vm_compute; reflexivity).
  assert (Ha : (<["autoRestart" := VBool true]> running_target) !! "status"
               = Some (VStr ST_ACTIVE)) by (vm_compute; reflexivity).
  destruct (worker_exit_of_active_target a1 (Some 1%nat) _ _ Hf Ha)
    as (_ & H2 & H3 & _ & _ & _ & H7).
  change (run exited_world [EvChildExit 0])
    with (step exited_world (EvChildExit 0)).
  rewrite Hs. cbv zeta. rewrite H2, H3, H7. vm_compute. auto.
Defined.

(** ** Starts after a completed start *)

(** A start of a target whose recorded worker exists is refused. *)
Lemma startBot_refused (c : ctx) (id : jsval) (w : world) (server : obj) (p : Z) :
  Servers.findById id (store w) = Some server ->
  server !! "serverType" <> Some (VStr "java") ->
  server !! "botPid" = Some (VNum p) ->
  p <> 0 ->
  p ∈ live w ->
  startBot c id w = edit c MsgAlreadyRunning w.
Proof.
  intros Hf Hj Hp H0 Hl. unfold startBot. rewrite Hf.
  destruct (strict_eq (server !! "serverType") (Some (VStr "java"))) eqn:He.
  { apply strict_eq_true in He. contradiction. }
  rewrite Hp. simpl. rewrite (bool_decide_false (p = 0)) by done.
  by rewrite (bool_decide_true (p ∈ live w)).
Qed.

(** X16.  Once a start has spawned its worker and recorded it, every
    further start of the same target is refused for as long as nothing
    else happens: whatever number of start requests follow, the store, the
    processes, the pending calls and the timers stay as the first start
    left them, and nothing more is spawned. *)
Theorem starts_after_spawn_are_refused (c : ctx) (server cur : obj)
    (mcVersion : jsval) (p : Z) (w : world) (cs : list ctx) :
  Servers.findById (server !! "_id") (store w) = Some cur ->
  cur !! "serverType" <> Some (VStr "java") ->
  p <> 0 ->
  let w1 := startBedrockBot_spawn c server mcVersion (SpawnReturns (Some p)) w in
  let w2 := run w1 ((fun c' => EvStart c' (server !! "_id")) <$> cs) in
  spawned w1 = (spawned w ++ [p])%list
  /\ store w2 = store w1
  /\ spawned w2 = spawned w1
  /\ live w2 = live w1
  /\ children w2 = children w1
  /\ tasks w2 = tasks w1
  /\ timers w2 = timers w1.
Proof.
  intros Hf Hj H0 w1 w2. split.
  { unfold w1, startBedrockBot_spawn. rewrite spawned_edit.
    unfold spawned. simpl. rewrite omap_app. reflexivity. }
  assert (Hf1 : Servers.findById (server !! "_id") (store w1)
                = Some (spread cur (active_fields (Some p)))).
  { unfold w1, startBedrockBot_spawn. rewrite store_edit.
    by apply setFields_found. }
  assert (Hl1 : p ∈ live w1).
  { unfold w1, startBedrockBot_spawn.
    rewrite (proj1 (edit_frame c MsgBotActive _)). simpl.
    apply elem_of_union_l, elem_of_singleton. reflexivity. }
  unfold w2. clearbody w1. clear w2 Hf.
  induction cs as [|c' cs IH] using rev_ind; [done|].
  rewrite fmap_app. unfold run in *. rewrite foldl_app. simpl.
  set (w2 := foldl step w1 _) in *.
  destruct IH as (E1 & E2 & E3 & E4 & E5 & E6).
  rewrite (startBot_refused c' (server !! "_id") w2
             (spread cur (active_fields (Some p))) p).
  - rewrite store_edit, spawned_edit.
    destruct (edit_frame c' MsgAlreadyRunning w2) as (F1 & F2 & F3 & F4).
    by rewrite F1, F2, F3, F4.
  - by rewrite E1.
  - rewrite spread_untouched by done. exact Hj.
  - apply (proj2 (active_fields_lookup cur (Some p))).
  - exact H0.
  - by rewrite E3.
Qed.

Lemma starts_after_spawn_are_refused_witness :
  let w1 := step launching_world (EvSpawn 0 (SpawnReturns (Some 100))) in
  let w2 := run w1 [EvStart (Some 2%nat) a1; EvStart None a1] in
  spawned w1 = [100] /\ store w2 = store w1 /\ spawned w2 = [100] /\ tasks w2 = [].
Proof.
  intros w1 w2.
  assert (Ht : tasks launching_world
               = [AwaitFoundEdit (Some 1%nat) idle_target (Some (VStr "1.21.90"))])
    by (vm_compute; reflexivity).
  assert (Hid : idle_target !! "_id" = a1) by (vm_compute; reflexivity).
  assert (Hf : Servers.findById (idle_target !! "_id")
                 (store (drop_task 0 launching_world))
               = Some (<["status" := VStr ST_LAUNCHING]> idle_target))
    by (vm_compute; reflexivity).
  assert (Hj : (<["status" := VStr ST_LAUNCHING]> idle_target) !! "serverType"
               <> Some (VStr "java")) by (vm_compute; discriminate).
  assert (H0 : 100 <> 0) by lia.
  assert (Hsp : spawned (drop_task 0 launching_world) = []) by (vm_compute; reflexivity).
  assert (Htk : tasks (drop_task 0 launching_world) = []) by (vm_compute; reflexivity).
  destruct (starts_after_spawn_are_refused (Some 1%nat) idle_target _
              (Some (VStr "1.21.90")) 100
              (drop_task 0 launching_world) [Some 2%nat; None] Hf Hj H0)
    as (H1 & H2 & H3 & _ & _ & H6 & _).
  assert (Hw1 : w1 = startBedrockBot_spawn (Some 1%nat) idle_target
                       (Some (VStr "1.21.90")) (SpawnReturns (Some 100))
                       (drop_task 0 launching_world)).
  { unfold w1, step. by rewrite Ht. }
  cbv zeta in H1, H2, H3, H6. rewrite <- Hw1 in H1, H2, H3, H6.
  rewrite Hid in H2, H3, H6.
  change (run w1 _) with w2 in H2, H3, H6.
  rewrite Hsp in H1.
  split; [exact H1|]. split; [exact H2|].
  split; [by rewrite H3, H1|].
  rewrite H6, Hw1. unfold startBedrockBot_spawn.
  rewrite (proj1 (proj2 (proj2 (edit_frame _ _ _)))). exact Htk.
Defined.



(** ** The limits of the add-server wizard *)

Lemma owned_filter (u : jsval) (st : Store) :
  owned u st
  = length (List.filter (fun s => strict_eq (s !! "userId") u) (servers st)).
Proof.
  unfold owned, Servers.countDocuments.
  rewrite bool_decide_false by (by rewrite map_to_list_singleton).
  rewrite (Servers_find_all st). f_equal. apply List.filter_ext.
  intros s. apply matches_singleton.
Qed.

Lemma filter_fmap_length {A} (P : A -> bool) (f : A -> A) (l : list A) :
  (forall x, P (f x) = P x) ->
  length (List.filter P (f <$> l)) = length (List.filter P l).
Proof.
  intros H. induction l as [|x l IH]; [done|].
  rewrite fmap_cons. cbn [List.filter]. rewrite H.
  destruct (P x); cbn [length]; by rewrite IH.
Qed.

Lemma find_none_all {A} (P : A -> bool) (l : list A) (x : A) :
  List.find P l = None -> x ∈ l -> P x = false.
Proof.
  intros Hn Hx. apply list_elem_of_In in Hx.
  exact (List.find_none P l Hn x Hx).
Qed.

Lemma pair_eq_inv {A B} (a a' : A) (b b' : B) :
  (a, b) = (a', b') -> a = a' /\ b = b'.
Proof. intros H. split; [exact (f_equal fst H) | exact (f_equal snd H)]. Qed.

Ltac rejected :=
  let H := fresh in
  intros H; apply pair_eq_inv in H as [<- <-]; repeat split; assumption.

(** X18.  The add-server wizard keeps the collection within its limits:
    when no user has more than three targets and no address ([ip] with
    [port]) is registered twice, the same holds after the last step of
    the wizard, whatever it was given.  A request that is turned down
    leaves the store as it was; one that is accepted adds one target to
    the user's. *)
Theorem wizard_keeps_limits (Date_parse : string -> option Z) (fresh : string)
    (uid : Z) (name ip : string) (port : Z) (st st' : Store) (r : add_result) :
  keyed st ->
  Some (VStr fresh) ∉ ids (servers st) ->
  within_limits st ->
  wizard_finish Date_parse fresh (Some (VNum uid)) name (Some (VStr ip)) port st
  = (r, st') ->
  within_limits st'
  /\ match r with
     | Added _ => owned (Some (VNum uid)) st' = S (owned (Some (VNum uid)) st)
     | _ => st' = st
     end.
Proof.
  intros Hk Hfresh [Hmax Hdup]. unfold wizard_finish.
  fold (owned (Some (VNum uid)) st).
  destruct (bool_decide (port < 1) || bool_decide (port > 65535)); [rejected|].
  destruct (bool_decide_reflect (3 ≤ owned (Some (VNum uid)) st)%nat) as [|H3];
    [rejected|].
  destruct (bool_decide (is_Some _)); [rejected|].
  destruct (bool_decide_reflect
              (is_Some (Servers.findOne {["ip" := Some (VStr ip);
                                          "port" := Some (VNum port)]} st)))
    as [|Hother]; [rejected|].
  assert (Hnone : Servers.findOne {["ip" := Some (VStr ip);
                                    "port" := Some (VNum port)]} st = None).
  { destruct (Servers.findOne _ st); [|done]. destruct Hother. by eexists. }
  clear Hother. unfold Servers.findOne in Hnone. rewrite (Servers_find_all st) in Hnone.
  set (data := ({["userId" := Some (VNum uid); "serverName" := Some (VStr name);
                  "serverType" := Some (VStr "bedrock"); "ip" := Some (VStr ip);
                  "port" := Some (VNum port)]} : payload)).
  assert (Hid : data !! "_id" = None) by reflexivity.
  assert (Hu : data !! "userId" = Some (Some (VNum uid))) by reflexivity.
  assert (Hip : data !! "ip" = Some (Some (VStr ip))) by reflexivity.
  assert (Hport : data !! "port" = Some (Some (VNum port))) by reflexivity.
  pose proof (create_keyed fresh data st Hk Hid Hfresh) as Hk1.
  clearbody data.
  unfold Servers.create in Hk1 |- *. cbv beta iota zeta in Hk1 |- *.
  cbv beta iota delta [snd] in Hk1.
  intros H. pose proof (f_equal snd H) as Hst. cbv beta iota delta [snd] in Hst.
  pose proof (f_equal fst H) as Hr. cbv beta iota delta [fst] in Hr.
  subst st' r. clear H.
  rewrite (Servers_find_all st) in Hk1 |- *.
  set (n := Servers.newServer fresh data) in *.
  assert (Hnu : n !! "userId" = Some (VNum uid))
    by (unfold n; by rewrite newServer_lookup, Hu).
  assert (Hnip : n !! "ip" = Some (VStr ip))
    by (unfold n; by rewrite newServer_lookup, Hip).
  assert (Hnport : n !! "port" = Some (VNum port))
    by (unfold n; by rewrite newServer_lookup, Hport).
  clearbody n.
  assert (Hcount : forall u,
             owned u (reorderServers Date_parse (Some (VNum uid))
                        (writeDb_servers (servers st ++ [n]) st))
             = (owned u st + if strict_eq (Some (VNum uid)) u then 1 else 0)%nat).
  { intros u. rewrite !owned_filter.
    rewrite (reorderServers_servers Date_parse (Some (VNum uid)) _ Hk1).
    rewrite filter_fmap_length by (intros x; by rewrite relabel_other).
    change (servers (writeDb_servers ?l ?s)) with l.
    rewrite List.filter_app, length_app.
    change (List.filter ?p [?x]) with (if p x then [x] else []).
    cbv beta. rewrite Hnu. by destruct (strict_eq (Some (VNum uid)) u). }
  split; [split|].
  - intros u. rewrite Hcount.
    destruct (strict_eq (Some (VNum uid)) u) eqn:He.
    + apply strict_eq_true in He. subst u. lia.
    + specialize (Hmax u). lia.
  - rewrite (reorderServers_servers Date_parse (Some (VNum uid)) _ Hk1).
    change (servers (writeDb_servers ?l ?s)) with l.
    rewrite <- list_fmap_compose.
    rewrite (list_fmap_ext _ address (servers st ++ [n])).
    2:{ intros i x _. unfold compose, address. by rewrite !relabel_other. }
    rewrite fmap_app. apply NoDup_app. split; [exact Hdup|]. split.
    + intros a Ha Hn. apply list_elem_of_fmap in Ha as (s & -> & Hs).
      apply list_elem_of_singleton in Hn.
      unfold address in Hn. rewrite Hnip, Hnport in Hn.
      apply pair_eq_inv in Hn as [Hsi Hsp].
      assert (Hm := find_none_all _ _ s Hnone Hs).
      assert (Hm' : matches {["ip" := Some (VStr ip); "port" := Some (VNum port)]} s
                    = true).
      { apply matches_spec. intros k v Hkv.
        destruct (decide (k = "ip")) as [->|Hk'].
        - rewrite lookup_insert_eq in Hkv. injection Hkv as <-.
          rewrite Hsi. apply strict_eq_prim.
        - rewrite lookup_insert_ne in Hkv by done.
          destruct (decide (k = "port")) as [->|Hk''].
          + rewrite lookup_singleton_eq in Hkv. injection Hkv as <-.
            rewrite Hsp. apply strict_eq_prim.
          + by rewrite lookup_singleton_ne in Hkv. }
      congruence.
    + apply NoDup_singleton.
  - rewrite Hcount, strict_eq_prim. lia.
Qed.

Lemma wizard_keeps_limits_witness :
  exists st',
    wizard_finish (fun _ => None) "d4" u7 "S-4" (Some (VStr "d.example.com")) 19132
      (three_targets (fun _ => None)) = (TooManyServers, st')
    /\ within_limits st'
    /\ st' = three_targets (fun _ => None).
Proof.
  assert (Hk3 : keyed (three_targets (fun _ => None))).
  { unfold keyed. split; apply (bool_decide_unpack _); vm_compute; exact I. }
  assert (Hfresh : Some (VStr "d4") ∉ ids (servers (three_targets (fun _ => None)))).
  { apply (bool_decide_unpack _). vm_compute. exact I. }
  assert (Hlen : length (servers (three_targets (fun _ => None))) = 3%nat)
    by (vm_compute; reflexivity).
  assert (Hlim : within_limits (three_targets (fun _ => None))).
  { split.
    - intros u. rewrite owned_filter, <- Hlen. apply List.filter_length_le.
    - apply (bool_decide_unpack _). vm_compute. exact I. }
  assert (Hw : wizard_finish (fun _ => None) "d4" u7 "S-4"
                 (Some (VStr "d.example.com")) 19132 (three_targets (fun _ => None))
               = (TooManyServers, three_targets (fun _ => None)))
    by (vm_compute; reflexivity).
  exists (three_targets (fun _ => None)).
  destruct (wizard_keeps_limits (fun _ => None) "d4" 7 "S-4" "d.example.com" 19132
              _ _ _ Hk3 Hfresh Hlim Hw) as [H1 H2].
  split; [exact Hw|]. split; [exact H1|exact H2].
Defined.

(** ** What [reorderServers] leaves behind *)

Lemma updateOne_frame (query : payload) (u : update) (st : Store) :
  users (Servers.updateOne query u st) = users st
  /\ config (Servers.updateOne query u st) = config st
  /\ versions (Servers.updateOne query u st) = versions st.
Proof. unfold Servers.updateOne. by destruct (findIndex _ _). Qed.

Lemma rename_loop_frame (snapshot : list obj) (k : Z) (st : Store) :
  users (rename_loop snapshot k st) = users st
  /\ config (rename_loop snapshot k st) = config st
  /\ versions (rename_loop snapshot k st) = versions st.
Proof.
  revert k st. induction snapshot as [|x l IH]; intros k st; [done|].
  cbn [rename_loop]. cbv zeta.
  destruct (IH (k + 1) (if negb (strict_eq (x !! "serverName") (Some (VStr (S_name k))))
                        then Servers.updateOne {["_id" := x !! "_id"]}
                               (set_fields {["serverName" := Some (VStr (S_name k))]}) st
                        else st)) as (-> & -> & ->).
  destruct (negb _); [apply updateOne_frame|done].
Qed.

(** A record that is not in the snapshot is not renamed. *)
Lemma relabel_stranger (snapshot all : list obj) (k : Z) (s : obj) :
  NoDup (ids all) ->
  (forall x, x ∈ snapshot -> x ∈ all) ->
  s ∈ all ->
  s ∉ snapshot ->
  relabel snapshot k s = s.
Proof.
  intros Hnd Hsub Hs Hnot. unfold relabel.
  destruct (findIndex _ snapshot) as [j|] eqn:Hj; [|done].
  destruct (findIndex_spec _ _ _ Hj) as (x & Hx & Hpx & _).
  apply strict_eq_true in Hpx. exfalso. apply Hnot.
  assert (Hin : x ∈ snapshot) by (apply list_elem_of_lookup; eauto).
  rewrite <- (NoDup_ids_inj all x s Hnd (Hsub x Hin) Hs Hpx). exact Hin.
Qed.

(** X19.  [reorderServers] writes display names and nothing else: the
    users, the configuration and the versions stay as they are, every
    property of every target other than [serverName] keeps its value, and
    the targets of the other users are not touched at all. *)
Theorem reorderServers_only_renames_own (Date_parse : string -> option Z)
    (userId : jsval) (st : Store) :
  keyed st ->
  let st' := reorderServers Date_parse userId st in
  users st' = users st
  /\ config st' = config st
  /\ versions st' = versions st
  /\ (forall key, key <> "serverName" ->
        (fun s : obj => s !! key) <$> servers st'
        = (fun s : obj => s !! key) <$> servers st)
  /\ List.filter (fun s => negb (strict_eq (s !! "userId") userId)) (servers st')
     = List.filter (fun s => negb (strict_eq (s !! "userId") userId)) (servers st).
Proof.
  intros Hk st'.
  pose proof (reorderServers_servers Date_parse userId st Hk) as Hserv.
  fold st' in Hserv. destruct Hk as [Hnd _].
  destruct (rename_loop_frame
              (sort (by_createdAt Date_parse)
                 (Servers.find {["userId" := userId]} st)) 1 st) as (Hu & Hc & Hv).
  split; [exact Hu|]. split; [exact Hc|]. split; [exact Hv|].
  rewrite Hserv. split.
  - intros key Hkey. rewrite <- list_fmap_compose.
    apply list_fmap_ext. intros i s _. simpl. by apply relabel_other.
  - rewrite (filter_fmap_commute
               (fun s => negb (strict_eq (s !! "userId") userId)))
      by (intros x; by rewrite relabel_other).
    etrans; [|apply list_fmap_id].
    apply list_fmap_ext. intros i s Hs. simpl.
    assert (Hin : s ∈ List.filter
                        (fun s => negb (strict_eq (s !! "userId") userId)) (servers st))
      by (apply list_elem_of_lookup; eauto).
    apply list_elem_of_In, List.filter_In in Hin as [Hin Hp].
    apply (relabel_stranger _ (servers st)); [done| |by apply list_elem_of_In|].
    + intros x Hx. rewrite sort_perm in Hx.
      apply list_elem_of_In, List.filter_In in Hx as [Hx _].
      by apply list_elem_of_In.
    + intros Hx. rewrite sort_perm in Hx.
      apply list_elem_of_In, List.filter_In in Hx as [_ Hx].
      rewrite Hx in Hp. discriminate.
Qed.

Lemma reorderServers_only_renames_own_witness :
  let st := three_targets (fun _ => None) in
  let st' := reorderServers (fun _ => None) (Some (VNum 8)) st in
  users st' = users st
  /\ (fun s : obj => s !! "ip") <$> servers st' = (fun s : obj => s !! "ip") <$> servers st
  /\ List.filter (fun s => negb (strict_eq (s !! "userId") (Some (VNum 8)))) (servers st')
     = List.filter (fun s => negb (strict_eq (s !! "userId") (Some (VNum 8)))) (servers st).
Proof.
  intros st st'.
  assert (Hk3 : keyed st).
  { unfold keyed. split; apply (bool_decide_unpack _); vm_compute; exact I. }
  destruct (reorderServers_only_renames_own (fun _ => None) (Some (VNum 8)) st Hk3)
    as (H1 & _ & _ & H4 & H5).
  split; [exact H1|]. split; [apply H4; discriminate|exact H5].
Defined.

Lemma sort_insert_fmap (cmp : obj -> obj -> Z) (f : obj -> obj) (x : obj)
    (l : list obj) :
  (forall a b, cmp (f a) (f b) = cmp a b) ->
  sort_insert cmp (f x) (f <$> l) = f <$> sort_insert cmp x l.
Proof.
  intros Hc. induction l as [|y l IH]; [done|].
  rewrite fmap_cons. cbn [sort_insert]. rewrite Hc.
  destruct (bool_decide (cmp x y ≤ 0)); [done|].
  by rewrite IH, fmap_cons.
Qed.

Lemma sort_fmap (cmp : obj -> obj -> Z) (f : obj -> obj) (l : list obj) :
  (forall a b, cmp (f a) (f b) = cmp a b) ->
  sort cmp (f <$> l) = f <$> sort cmp l.
Proof.
  intros Hc. unfold sort. induction l as [|y l IH]; [done|].
  rewrite fmap_cons. cbn [foldr]. rewrite IH. by apply sort_insert_fmap.
Qed.

Lemma by_createdAt_relabel Date_parse snapshot k a b :
  by_createdAt Date_parse (relabel snapshot k a) (relabel snapshot k b)
  = by_createdAt Date_parse a b.
Proof. unfold by_createdAt. by rewrite !relabel_other. Qed.

(** The snapshot that [reorderServers] sorts after it has run once. *)
Lemma by_age_reorderServers (Date_parse : string -> option Z) (u : jsval)
    (st : Store) :
  keyed st ->
  by_age Date_parse u (reorderServers Date_parse u st)
  = relabel (by_age Date_parse u st) 1 <$> by_age Date_parse u st.
Proof.
  intros Hk. unfold by_age.
  rewrite (Servers_find_by "userId" u (reorderServers Date_parse u st)).
  rewrite (reorderServers_servers Date_parse u st Hk).
  rewrite (Servers_find_by "userId" u st).
  rewrite (filter_fmap_commute (fun s => strict_eq (s !! "userId") u))
    by (intros x; by rewrite relabel_other).
  apply sort_fmap. intros a b. apply by_createdAt_relabel.
Qed.

Lemma by_age_keyed (Date_parse : string -> option Z) (u : jsval) (st : Store) :
  keyed st ->
  NoDup (ids (by_age Date_parse u st))
  /\ Forall (fun a => is_string a = true) (ids (by_age Date_parse u st)).
Proof.
  intros [Hnd Hstr]. unfold by_age, ids.
  rewrite (Servers_find_by "userId" u st).
  rewrite (sort_perm _ (List.filter _ (servers st))).
  split; [by apply ids_filter_NoDup|by apply ids_filter_Forall].
Qed.

(** With a comparator that compares by a rank, [sort] orders by rank
    and keeps the records of equal rank in the order they had. *)
Lemma sort_insert_ranked_sorted (cmp : obj -> obj -> Z) (rank : obj -> Z)
    (x : obj) (l : list obj) :
  (forall b, b ∈ l -> cmp x b = rank x - rank b) ->
  StronglySorted (fun a b => rank a <= rank b) l ->
  StronglySorted (fun a b => rank a <= rank b) (sort_insert cmp x l).
Proof.
  induction l as [|y l IH]; intros Hc Hs.
  - repeat constructor.
  - cbn [sort_insert]. apply StronglySorted_inv in Hs as [Hs Hy].
    pose proof (Hc y (list_elem_of_here y l)) as Hxy.
    case_bool_decide as Hle.
    + constructor; [by constructor|]. constructor; [lia|].
      eapply Forall_impl; [exact Hy|]. intros z Hz. simpl in Hz. lia.
    + constructor.
      * apply IH; [|exact Hs]. intros b Hb. apply Hc. by apply list_elem_of_further.
      * rewrite (sort_insert_perm cmp x l). constructor; [lia|exact Hy].
Qed.

Lemma sort_ranked_sorted (cmp : obj -> obj -> Z) (rank : obj -> Z) (l : list obj) :
  (forall a b, a ∈ l -> b ∈ l -> cmp a b = rank a - rank b) ->
  StronglySorted (fun a b => rank a <= rank b) (sort cmp l).
Proof.
  unfold sort. induction l as [|x l IH]; intros Hc; [constructor|].
  cbn [foldr]. apply sort_insert_ranked_sorted.
  - intros b Hb. fold (sort cmp l) in Hb. rewrite (sort_perm cmp l) in Hb.
    apply Hc; [apply list_elem_of_here|by apply list_elem_of_further].
  - apply IH. intros a b Ha Hb. apply Hc; by apply list_elem_of_further.
Qed.

Lemma sort_insert_ranked_stable (cmp : obj -> obj -> Z) (rank : obj -> Z) (t : Z)
    (x : obj) (l : list obj) :
  (forall b, b ∈ l -> cmp x b = rank x - rank b) ->
  List.filter (fun s => bool_decide (rank s = t)) (sort_insert cmp x l)
  = List.filter (fun s => bool_decide (rank s = t)) (x :: l).
Proof.
  induction l as [|y l IH]; intros Hc; [done|].
  cbn [sort_insert]. pose proof (Hc y (list_elem_of_here y l)) as Hxy.
  case_bool_decide as Hle; [done|].
  cbn [List.filter]. rewrite IH
    by (intros b Hb; apply Hc; by apply list_elem_of_further).
  cbn [List.filter].
  destruct (decide (rank x = t)) as [Hx|Hx], (decide (rank y = t)) as [Hy|Hy].
  - lia.
  - by rewrite (bool_decide_true _ Hx), (bool_decide_false _ Hy).
  - by rewrite (bool_decide_false _ Hx).
  - by rewrite (bool_decide_false _ Hx).
Qed.

Lemma sort_ranked_stable (cmp : obj -> obj -> Z) (rank : obj -> Z) (t : Z)
    (l : list obj) :
  (forall a b, a ∈ l -> b ∈ l -> cmp a b = rank a - rank b) ->
  List.filter (fun s => bool_decide (rank s = t)) (sort cmp l)
  = List.filter (fun s => bool_decide (rank s = t)) l.
Proof.
  unfold sort. induction l as [|x l IH]; intros Hc; [done|].
  cbn [foldr]. rewrite sort_insert_ranked_stable.
  - cbn [List.filter]. rewrite IH; [done|].
    intros a b Ha Hb. apply Hc; by apply list_elem_of_further.
  - intros b Hb. fold (sort cmp l) in Hb. rewrite (sort_perm cmp l) in Hb.
    apply Hc; [apply list_elem_of_here|by apply list_elem_of_further].
Qed.

Lemma undated_ranked (Date_parse : string -> option Z) (l : list obj) :
  Forall (fun s : obj => truthy (s !! "createdAt") = false) l ->
  ranked Date_parse (fun _ => 0) l.
Proof.
  intros Hl a b Ha _. rewrite Forall_forall in Hl.
  unfold by_createdAt. by rewrite (Hl a Ha).
Qed.

(** X20.  After [reorderServers] the names follow the age of the
    targets, wherever the comparator is consistent, that is, compares the
    targets of the user by a rank (their creation time when all have one,
    nothing when none has one).  The order in which the targets are
    renamed is then the one a stable sort gives: by rank, targets of equal
    rank in the order of the collection; it is the same after the
    renaming, and in this order the targets are named [S-1], [S-2], ... *)
Theorem reorderServers_names_follow_age (Date_parse : string -> option Z)
    (userId : jsval) (st : Store) (rank : obj -> Z) :
  keyed st ->
  ranked Date_parse rank (Servers.find {["userId" := userId]} st) ->
  let old := by_age Date_parse userId st in
  let new := by_age Date_parse userId (reorderServers Date_parse userId st) in
  old ≡ₚ Servers.find {["userId" := userId]} st
  /\ StronglySorted (fun a b => rank a <= rank b) old
  /\ (forall t, List.filter (fun s => bool_decide (rank s = t)) old
               = List.filter (fun s => bool_decide (rank s = t))
                   (Servers.find {["userId" := userId]} st))
  /\ ids new = ids old
  /\ (fun s : obj => s !! "serverName") <$> new
     = dense_names (length (Servers.find {["userId" := userId]} st)).
Proof.
  intros Hk Hr old new.
  destruct (by_age_keyed Date_parse userId st Hk) as [Hnd Hstr].
  pose proof (by_age_reorderServers Date_parse userId st Hk) as Hnew.
  fold old in Hnd, Hstr, Hnew. fold new in Hnew.
  split; [apply sort_perm|].
  split; [by apply sort_ranked_sorted|].
  split; [intros t; by apply sort_ranked_stable|].
  rewrite Hnew. split.
  - apply ids_fmap_preserved. intros s. apply relabel_id.
  - rewrite <- list_fmap_compose.
    change ((fun s : obj => s !! "serverName") ∘ relabel old 1)
      with (fun s : obj => relabel old 1 s !! "serverName").
    rewrite (relabel_self_names _ 1 Hnd Hstr).
    unfold dense_names, old, by_age. by rewrite (sort_perm _ (Servers.find _ st)).
Qed.

Lemma reorderServers_names_follow_age_witness :
  let st := (Servers.deleteOne {["_id" := Some (VStr "a1"); "userId" := u7]}
               (three_targets (fun _ => None))).2 in
  ids (by_age (fun _ => None) u7 (reorderServers (fun _ => None) u7 st))
  = [Some (VStr "b2"); Some (VStr "c3")]
  /\ (fun s : obj => s !! "serverName")
       <$> by_age (fun _ => None) u7 (reorderServers (fun _ => None) u7 st)
     = [Some (VStr "S-1"); Some (VStr "S-2")].
Proof.
  intros st.
  assert (Hk2 : keyed st).
  { unfold keyed. split; apply (bool_decide_unpack _); vm_compute; exact I. }
  assert (Hr : ranked (fun _ => None) (fun _ => 0)
                 (Servers.find {["userId" := u7]} st)).
  { apply undated_ranked. apply (bool_decide_unpack _). vm_compute. exact I. }
  destruct (reorderServers_names_follow_age (fun _ => None) u7 st (fun _ => 0) Hk2 Hr)
    as (_ & _ & _ & Hids & Hnames).
  split.
  - rewrite Hids. vm_compute. reflexivity.
  - rewrite Hnames. vm_compute. reflexivity.
Defined.

Lemma rename_loop_named (snapshot : list obj) (k : Z) (st : Store) :
  (forall j x, snapshot !! j = Some x ->
               x !! "serverName" = Some (VStr (S_name (k + Z.of_nat j)))) ->
  rename_loop snapshot k st = st.
Proof.
  revert k. induction snapshot as [|x l IH]; intros k Hn; [done|].
  cbn [rename_loop]. cbv zeta.
  rewrite (Hn 0%nat x eq_refl). rewrite Z.add_0_r, strict_eq_prim. cbn [negb].
  apply IH. intros j y Hy. rewrite (Hn (S j) y Hy).
  by replace (k + Z.of_nat (S j)) with (k + 1 + Z.of_nat j) by lia.
Qed.

(** X21.  [reorderServers] is idempotent: run a second time for the
    same user it finds every name in place and writes nothing, so the
    store, its write queue included, is the one the first run left. *)
Theorem reorderServers_idempotent (Date_parse : string -> option Z)
    (userId : jsval) (st : Store) :
  keyed st ->
  reorderServers Date_parse userId (reorderServers Date_parse userId st)
  = reorderServers Date_parse userId st.
Proof.
  intros Hk. destruct (by_age_keyed Date_parse userId st Hk) as [Hnd Hstr].
  pose proof (by_age_reorderServers Date_parse userId st Hk) as Hsnap.
  pose proof (relabel_self_names _ 1 Hnd Hstr) as Hnames.
  set (st1 := reorderServers Date_parse userId st) in *.
  unfold reorderServers at 1. fold (by_age Date_parse userId st1).
  rewrite Hsnap. apply rename_loop_named. intros j x Hx.
  rewrite list_lookup_fmap in Hx.
  apply fmap_Some in Hx as (s & Hs & ->).
  assert (H1 : ((fun s : obj => relabel (by_age Date_parse userId st) 1 s !! "serverName")
                  <$> by_age Date_parse userId st) !! j
               = Some (relabel (by_age Date_parse userId st) 1 s !! "serverName"))
    by (by rewrite list_lookup_fmap, Hs).
  rewrite Hnames, list_lookup_fmap in H1.
  rewrite lookup_seqZ_lt in H1 by (apply lookup_lt_Some in Hs; lia).
  apply (inj Some) in H1. symmetry. exact H1.
Qed.

Lemma reorderServers_idempotent_witness :
  let st := (Servers.deleteOne {["_id" := Some (VStr "a1"); "userId" := u7]}
               (three_targets (fun _ => None))).2 in
  reorderServers (fun _ => None) u7 (reorderServers (fun _ => None) u7 st)
  = reorderServers (fun _ => None) u7 st
  /\ display_names u7 st = [Some (VStr "S-2"); Some (VStr "S-3")]
  /\ display_names u7 (reorderServers (fun _ => None) u7 st)
     = [Some (VStr "S-1"); Some (VStr "S-2")].
Proof.
  intros st.
  assert (Hk2 : keyed st).
  { unfold keyed. split; apply (bool_decide_unpack _); vm_compute; exact I. }
  split; [exact (reorderServers_idempotent (fun _ => None) u7 st Hk2)|].
  split; vm_compute; reflexivity.
Defined.

(** ** The worker process *)

Lemma Client_connect_retried_once (throws : bool) (events : list Client.event)
    (s : Client.state) :
  Client.exit_code s = None ->
  (Client.attempts s + S (Client.pending s))%nat
  = (if Client.hasRetried s then 2%nat else 1%nat) ->
  Client.retried_once events (Client.connect throws s).
Proof.
  destruct s as [r a c p e]. simpl. intros -> Hinv.
  unfold Client.retried_once, Client.connect. simpl.
  destruct throws, r; simpl; (split; [lia|]); (split; [|intros ? [= <-]; auto]);
    first [discriminate | intros _; by left].
Qed.

Lemma Client_retried_once_more (events : list Client.event) (e : Client.event)
    (s : Client.state) :
  Client.retried_once events s -> Client.retried_once (events ++ [e]) s.
Proof.
  intros (H1 & H2 & H3). split; [done|]. split; [|done].
  intros Hx. destruct (H2 Hx) as [?|Hin]; [by left|].
  right. by rewrite existsb_app, Hin.
Qed.

Lemma Client_exit_retried_once (events : list Client.event) (code : Z)
    (s : Client.state) :
  (Client.attempts s + Client.pending s)%nat
  = (if Client.hasRetried s then 2%nat else 1%nat) ->
  code = 0
  \/ (code = 1
      /\ (Client.hasRetried s = true \/ existsb Client.unreadable events = true)) ->
  Client.retried_once events (Client.exit code s).
Proof.
  intros H1 Hc. split; [exact H1|]. split.
  - simpl. intros [= ->]. destruct Hc as [?|[_ ?]]; [lia|done].
  - simpl. intros c [= <-]. destruct Hc as [?|[? _]]; auto.
Qed.

Lemma Client_retry_retried_once (events : list Client.event) (s : Client.state) :
  Client.exit_code s = None ->
  Client.hasRetried s = false ->
  (Client.attempts s + Client.pending s)%nat = 1%nat ->
  Client.retried_once events (Client.retry_later s).
Proof.
  intros He Hr H1. split; [simpl; lia|]. simpl. rewrite He. split; [discriminate|].
  intros c. discriminate.
Qed.

Lemma Client_unreadable_last (events : list Client.event) (e : Client.event) :
  Client.unreadable e = true -> existsb Client.unreadable (events ++ [e]) = true.
Proof. intros He. rewrite existsb_app. simpl. rewrite He. by rewrite orb_true_r. Qed.

Lemma Client_step_retried_once (events : list Client.event) (s : Client.state)
    (e : Client.event) :
  Client.retried_once events s ->
  Client.retried_once (events ++ [e]) (Client.step s e).
Proof.
  intros Hs. pose proof (Client_retried_once_more events e s Hs) as Hs'.
  destruct Hs as (H1 & _ & _). unfold Client.step.
  destruct (Client.exit_code s) eqn:He; [exact Hs'|].
  destruct e as [k|err|t|].
  - destruct (bool_decide _); [exact Hs'|].
    destruct k as [k|].
    + destruct (Client.hasRetried s) eqn:Hr.
      * rewrite andb_false_r. apply Client_exit_retried_once; [by rewrite Hr|by left].
      * rewrite andb_true_r. destruct k.
        -- by apply Client_retry_retried_once.
        -- apply Client_exit_retried_once; [by rewrite Hr|by left].
    + apply Client_exit_retried_once; [done|]. right. split; [done|]. right.
      by apply Client_unreadable_last.
  - destruct (bool_decide _); [exact Hs'|].
    destruct err; cbn [negb].
    + destruct (Client.hasRetried s) eqn:Hr; cbn [negb].
      * apply Client_exit_retried_once; [by rewrite Hr|]. right. split; [done|by left].
      * by apply Client_retry_retried_once.
    + apply Client_exit_retried_once; [done|]. right. split; [done|]. right.
      by apply Client_unreadable_last.
  - destruct (Client.pending s) as [|n] eqn:Hp; [exact Hs'|].
    apply Client_connect_retried_once; [done|]. simpl. by rewrite <- H1.
  - apply Client_exit_retried_once; [done|by left].
Qed.

(** X22.  The worker retries once and no more.  Started with its four
    arguments, whatever happens afterwards (disconnections, errors,
    timers, signals, [createClient] throwing or not), [connect] runs at
    most twice, at most one retry timer is ever pending and the process
    ends with code 0 or 1 only.  It ends with code 1 only after the retry
    has been used up, or on an event that its listener cannot read (a
    disconnect packet whose reason is not a string, an error event without
    an error): an error or a kick is retried once before it ends the
    worker, while an unreadable event ends it at once, retry or not. *)
Theorem worker_retries_once (serverIp : string) (serverPort : Z)
    (username version : string) (throws : bool) (events : list Client.event) :
  serverIp <> "" -> serverPort <> 0 -> username <> "" -> version <> "" ->
  let s := Client.run (Client.main (Some serverIp) (Some serverPort)
                         (Some username) (Some version) throws) events in
  (1 <= Client.attempts s <= 2)%nat
  /\ (Client.pending s <= 1)%nat
  /\ (Client.attempts s = 2%nat -> Client.hasRetried s = true)
  /\ (Client.exit_code s = Some 1 ->
      Client.hasRetried s = true \/ existsb Client.unreadable events = true)
  /\ (forall c, Client.exit_code s = Some c -> c = 0 \/ c = 1)
  /\ (forall e, Client.unreadable e = true ->
                Client.exit_code s = None -> Client.clients s <> 0%nat ->
                Client.exit_code (Client.step s e) = Some 1).
Proof.
  intros Hi Hp Hu Hv s.
  assert (Hinv : Client.retried_once events s /\ (1 <= Client.attempts s)%nat).
  { unfold s. clear s. induction events as [|e es IH] using rev_ind.
    - simpl. unfold Client.main, Client.given.
      rewrite !bool_decide_false by done. simpl. split.
      + by apply Client_connect_retried_once.
      + destruct throws; simpl; lia.
    - unfold Client.run in *. rewrite foldl_app. simpl.
      destruct IH as [IH Hge]. split; [by apply Client_step_retried_once|].
      set (s := foldl Client.step _ es) in *. clearbody s.
      unfold Client.step. destruct (Client.exit_code s); [done|].
      destruct e as [k|err|t|]; simpl.
      + destruct (bool_decide _); [done|]. destruct k as [k|]; [|done].
        by destruct (k && _).
      + destruct (bool_decide _); [done|]. destruct err; [|done].
        cbn [negb]. by destruct (Client.hasRetried s).
      + destruct (Client.pending s); [done|].
        unfold Client.connect. simpl.
        destruct t; [destruct (negb _)|]; simpl; lia.
      + done. }
  destruct Hinv as [(H1 & H2 & H3) Hge].
  assert (Hlast : forall e, Client.unreadable e = true ->
             Client.exit_code s = None -> Client.clients s <> 0%nat ->
             Client.exit_code (Client.step s e) = Some 1).
  { intros e Hun He Hc. unfold Client.step. rewrite He.
    destruct e as [[k|]|[|]|t|]; try discriminate Hun;
      by rewrite bool_decide_false by done. }
  destruct (Client.hasRetried s) eqn:Hr.
  - repeat split; try lia; auto.
  - repeat split; try lia; auto.
Qed.

Lemma worker_retries_once_witness :
  let start := Client.main (Some "play.example.com") (Some 19132)
                 (Some "X3k_BOT") (Some "1.21.90") false in
  let s := Client.run start
             [Client.Error true; Client.Timer false; Client.Disconnect (Some true)] in
  let s' := Client.run start [Client.Disconnect None] in
  Client.attempts s = 2%nat /\ Client.exit_code s = Some 0
  /\ Client.hasRetried s = true
  /\ Client.exit_code s' = Some 1 /\ Client.hasRetried s' = false.
Proof.
  intros start s s'.
  assert (H1 : "play.example.com" <> "") by discriminate.
  assert (H2 : 19132 <> 0) by lia.
  assert (H3 : "X3k_BOT" <> "") by discriminate.
  assert (H4 : "1.21.90" <> "") by discriminate.
  destruct (worker_retries_once "play.example.com" 19132 "X3k_BOT" "1.21.90" false
              [Client.Error true; Client.Timer false; Client.Disconnect (Some true)]
              H1 H2 H3 H4) as (_ & _ & Hr & _ & _ & _).
  destruct (worker_retries_once "play.example.com" 19132 "X3k_BOT" "1.21.90" false
              [] H1 H2 H3 H4) as (_ & _ & _ & _ & _ & Hlast).
  assert (Ha : Client.attempts s = 2%nat) by (vm_compute; reflexivity).
  split; [exact Ha|]. split; [vm_compute; reflexivity|]. split; [exact (Hr Ha)|].
  split; [|vm_compute; reflexivity].
  apply (Hlast (Client.Disconnect None));
    [reflexivity|vm_compute; reflexivity|vm_compute; discriminate].
Defined.

(** ** The pages of the list of all targets *)

Lemma totalPages_bounds (n : nat) :
  PAGE_SIZE * (totalPages n - 1) < Z.of_nat n <= PAGE_SIZE * totalPages n.
Proof.
  unfold totalPages, PAGE_SIZE.
  pose proof (Z.div_mod (Z.of_nat n + 8 - 1) 8 ltac:(lia)).
  pose proof (Z.mod_pos_bound (Z.of_nat n + 8 - 1) 8 ltac:(lia)).
  lia.
Qed.

Lemma page_of_chunk {A} (l : list A) (p : Z) :
  1 <= p <= totalPages (length l) ->
  page_of l p = take 8 (drop (8 * Z.to_nat (p - 1)) l).
Proof.
  intros Hp. pose proof (totalPages_bounds (length l)) as Hb.
  unfold page_of, clamp_page, slice.
  rewrite (bool_decide_false (p < 1)) by lia.
  rewrite (bool_decide_false (p > _)) by lia.
  unfold PAGE_SIZE in *.
  rewrite (bool_decide_false ((p - 1) * 8 < 0)) by lia.
  rewrite (bool_decide_false (p * 8 < 0)) by lia.
  rewrite (Z.min_l ((p - 1) * 8)) by nia.
  replace (Z.to_nat ((p - 1) * 8)) with (8 * Z.to_nat (p - 1))%nat by lia.
  destruct (decide (p * 8 <= Z.of_nat (length l))) as [Hle|Hgt].
  - rewrite Z.min_l by lia. f_equal. lia.
  - rewrite Z.min_r by lia.
    rewrite !take_ge; [done| |]; rewrite length_drop; lia.
Qed.

Lemma concat_chunks {A} (l : list A) (k : nat) :
  concat ((fun i => take 8 (drop (8 * i) l)) <$> seq 0 k) = take (8 * k) l.
Proof.
  induction k as [|k IH]; [done|].
  rewrite seq_S, fmap_app, concat_app, IH. simpl.
  rewrite app_nil_r, take_take_drop. f_equal. lia.
Qed.

(** X23.  The pages of the list of all targets cut the sorted
    collection into consecutive pieces: put one after the other, the
    pages 1 to [totalPages] give the collection back, no page holds more
    than eight targets, none is empty when there is a target at all, and a
    page number out of range shows the first or the last page. *)
Theorem pages_cover_the_collection {A} (sorted : list A) :
  concat (page_of sorted <$> seqZ 1 (totalPages (length sorted))) = sorted
  /\ (forall page, (length (page_of sorted page) <= 8)%nat)
  /\ (forall page, sorted <> [] -> page_of sorted page <> [])
  /\ (forall page, page < 1 -> page_of sorted page = page_of sorted 1)
  /\ (forall page, page > totalPages (length sorted) ->
                   page_of sorted page = page_of sorted (totalPages (length sorted))).
Proof.
  pose proof (totalPages_bounds (length sorted)) as Hb. unfold PAGE_SIZE in Hb.
  assert (Hclamp : forall page,
             page_of sorted page
             = page_of sorted (clamp_page page (length sorted))).
  { intros page. unfold page_of. f_equal; f_equal; unfold clamp_page;
      repeat case_bool_decide; lia. }
  assert (Hin : forall page, sorted <> [] ->
             1 <= clamp_page page (length sorted) <= totalPages (length sorted)).
  { intros page Hne. assert (0 < length sorted)%nat by (destruct sorted; simpl; [done|lia]).
    unfold clamp_page. repeat case_bool_decide; lia. }
  split; [|split; [|split; [|split]]].
  - unfold seqZ. rewrite <- list_fmap_compose.
    rewrite (list_fmap_ext _ (fun i => take 8 (drop (8 * i) sorted))).
    + rewrite concat_chunks. apply take_ge. lia.
    + intros i x Hx. apply lookup_seq in Hx as [-> Hlt]. simpl.
      rewrite page_of_chunk by lia. do 2 f_equal. lia.
  - intros page. destruct sorted as [|x l].
    { unfold page_of, slice. rewrite drop_nil, take_nil. simpl. lia. }
    rewrite Hclamp, page_of_chunk by (by apply Hin).
    rewrite length_take. lia.
  - intros page Hne.
    rewrite Hclamp, page_of_chunk by (by apply Hin).
    specialize (Hin page Hne).
    intros Hnil. apply (f_equal length) in Hnil.
    rewrite length_take, length_drop in Hnil. cbn [length] in Hnil.
    assert (0 < length sorted)%nat by (destruct sorted; simpl; [done|lia]).
    lia.
  - intros page Hlt. rewrite Hclamp, (Hclamp 1). f_equal.
    unfold clamp_page. repeat case_bool_decide; lia.
  - intros page Hgt. rewrite Hclamp, (Hclamp (totalPages _)). f_equal.
    unfold clamp_page. repeat case_bool_decide; lia.
Qed.

(** ** setupInitialConfig *)

Lemma is_admin_id_insert (a : obj) (v : value) :
  is_admin_id (<["isAdmin" := v]> a) = is_admin_id a.
Proof. unfold is_admin_id. by rewrite lookup_insert_ne. Qed.

Lemma is_admin_id_record now : is_admin_id (admin_record now) = true.
Proof. unfold is_admin_id. apply strict_eq_prim. Qed.

(** After the first part the administrator is there and is one. *)
Lemma setup_admin_ok (now : string) (st : Store) :
  exists a, List.find is_admin_id (users (setup_admin now st)) = Some a
            /\ truthy (a !! "isAdmin") = true.
Proof.
  unfold setup_admin.
  destruct (List.find is_admin_id (users st)) as [admin|] eqn:Hf.
  - destruct (truthy (admin !! "isAdmin")) eqn:Ht; simpl.
    + exists admin. by rewrite Hf.
    + destruct (find_findIndex _ _ _ Hf) as (i & Hi & Hx). rewrite Hi. simpl.
      exists (<["isAdmin" := VBool true]> admin). split.
      * apply (find_alter_first _ _ _ _ _ Hi Hx).
        rewrite is_admin_id_insert.
        by destruct (findIndex_spec _ _ _ Hi) as (y & Hy & Hpy & _); simplify_eq.
      * by rewrite lookup_insert_eq.
  - simpl. exists (admin_record now). split.
    + apply find_app_new; [done|apply is_admin_id_record].
    + reflexivity.
Qed.

Lemma setup_admin_stable (now : string) (st : Store) (a : obj) :
  List.find is_admin_id (users st) = Some a ->
  truthy (a !! "isAdmin") = true ->
  setup_admin now st = st.
Proof. intros Hf Ht. unfold setup_admin. by rewrite Hf, Ht. Qed.

Lemma setup_config_cases (st : Store) :
  (setup_config st = st
   /\ is_Some (config st !! "botOnline")
   /\ is_Some (config st !! "adminNotifications")
   /\ is_Some (config st !! "requiredChannels"))
  \/ (exists c, setup_config st = writeDb_config c st
               /\ is_Some (c !! "botOnline")
               /\ is_Some (c !! "adminNotifications")
               /\ is_Some (c !! "requiredChannels")
               /\ forall k v, config st !! k = Some v -> c !! k = Some v).
Proof.
  unfold setup_config, defaults. cbn [foldl fst snd].
  set (c0 := config st).
  destruct (c0 !! "botOnline") as [v1|] eqn:H1;
    [rewrite (bool_decide_false (Some v1 = None)) by done
    |rewrite (bool_decide_true (None = None)) by done];
    cbn [fst snd]; rewrite ?lookup_insert_ne by done;
    (destruct (c0 !! "adminNotifications") as [v2|] eqn:H2;
     [rewrite (bool_decide_false (Some v2 = None)) by done
     |rewrite (bool_decide_true (None = None)) by done]);
    cbn [fst snd]; rewrite ?lookup_insert_ne by done;
    (destruct (c0 !! "requiredChannels") as [v3|] eqn:H3;
     [rewrite (bool_decide_false (Some v3 = None)) by done
     |rewrite (bool_decide_true (None = None)) by done]);
    cbn [fst snd];
    first [ left; by eauto
          | right; eexists; split; [reflexivity|];
            repeat split;
            try (intros k v Hk;
                 rewrite ?lookup_insert_ne by (intros <-; congruence); exact Hk);
            rewrite ?lookup_insert_eq; rewrite ?lookup_insert_ne by done;
            rewrite ?lookup_insert_eq; rewrite ?lookup_insert_ne by done;
            rewrite ?lookup_insert_eq; eauto ].
Qed.

Lemma setup_config_stable (st : Store) :
  is_Some (config st !! "botOnline") ->
  is_Some (config st !! "adminNotifications") ->
  is_Some (config st !! "requiredChannels") ->
  setup_config st = st.
Proof.
  intros [v1 H1] [v2 H2] [v3 H3]. unfold setup_config, defaults.
  cbn [foldl fst snd]. rewrite H1, (bool_decide_false (Some v1 = None)) by done.
  cbn [fst snd]. rewrite H2, (bool_decide_false (Some v2 = None)) by done.
  cbn [fst snd]. by rewrite H3, (bool_decide_false (Some v3 = None)) by done.
Qed.

Lemma setup_versions_cases (st : Store) :
  (versions st <> [] /\ setup_versions st = st)
  \/ (versions st = [] /\ setup_versions st = writeDb_versions versionDocs st).
Proof.
  unfold setup_versions, Versions.countDocuments.
  rewrite (Versions_find_all st).
  destruct (versions st) as [|v l]; [right|left]; by split.
Qed.

Lemma setup_versions_stable (st : Store) :
  versions st <> [] -> setup_versions st = st.
Proof. intros H. by destruct (setup_versions_cases st) as [[_ ?]|[? _]]. Qed.

Lemma users_setup_config st : users (setup_config st) = users st.
Proof. by destruct (setup_config_cases st) as [(-> & _)|(c & -> & _)]. Qed.

Lemma users_setup_versions st : users (setup_versions st) = users st.
Proof. by destruct (setup_versions_cases st) as [[_ ->]|[_ ->]]. Qed.

Lemma config_setup_versions st : config (setup_versions st) = config st.
Proof. by destruct (setup_versions_cases st) as [[_ ->]|[_ ->]]. Qed.

Lemma versions_setup_nonempty st : versions (setup_versions st) <> [].
Proof. by destruct (setup_versions_cases st) as [[? ->]|[_ ->]]. Qed.

(** X24.  [setupInitialConfig] is idempotent: on a store it has set up
    (at any earlier time) it writes nothing, so every restart of the bot
    leaves a store that was set up once, its write queue included, as it
    finds it. *)
Theorem setupInitialConfig_idempotent (now now' : string) (st : Store) :
  setupInitialConfig now' (setupInitialConfig now st) = setupInitialConfig now st.
Proof.
  set (st3 := setupInitialConfig now st).
  destruct (setup_admin_ok now st) as (a & Ha & Hadm).
  assert (Hu : users st3 = users (setup_admin now st)).
  { unfold st3, setupInitialConfig. by rewrite users_setup_versions, users_setup_config. }
  assert (Hc : is_Some (config st3 !! "botOnline")
               /\ is_Some (config st3 !! "adminNotifications")
               /\ is_Some (config st3 !! "requiredChannels")).
  { unfold st3, setupInitialConfig. rewrite config_setup_versions.
    destruct (setup_config_cases (setup_admin now st))
      as [(-> & ? & ? & ?)|(c & -> & ? & ? & ? & _)]; by simpl. }
  assert (Hv : versions st3 <> []) by apply versions_setup_nonempty.
  clearbody st3. unfold setupInitialConfig.
  rewrite (setup_admin_stable now' st3 a) by (by rewrite ?Hu).
  destruct Hc as (H1 & H2 & H3).
  rewrite (setup_config_stable st3 H1 H2 H3).
  by apply setup_versions_stable.
Qed.

Lemma find_ext_eq {A} (p q : A -> bool) (l : list A) :
  (forall x, p x = q x) -> List.find p l = List.find q l.
Proof.
  intros H. induction l as [|a l IH]; [done|].
  cbn [List.find]. by rewrite H, IH.
Qed.

(** X25.  [setupInitialConfig] completes the store without overwriting
    it: afterwards the administrator is a user with [isAdmin] set, the
    three settings have a value and the table of versions is not empty,
    while every setting that had a value keeps it, a table of versions
    that was not empty is kept, every user other than the administrator
    is kept in its place, and the targets are not touched. *)
Theorem setupInitialConfig_completes (now : string) (st : Store) :
  let st' := setupInitialConfig now st in
  (exists a, Users.findOne {["userId" := Some (VNum ADMIN_ID)]} st' = Some a
             /\ truthy (a !! "isAdmin") = true)
  /\ (is_Some (config st' !! "botOnline")
      /\ is_Some (config st' !! "adminNotifications")
      /\ is_Some (config st' !! "requiredChannels"))
  /\ versions st' <> []
  /\ (forall k v, config st !! k = Some v -> config st' !! k = Some v)
  /\ (versions st <> [] -> versions st' = versions st)
  /\ (forall i u, users st !! i = Some u -> is_admin_id u = false ->
                  users st' !! i = Some u)
  /\ servers st' = servers st.
Proof.
  intros st'.
  assert (Hu : users st' = users (setup_admin now st)).
  { unfold st', setupInitialConfig. by rewrite users_setup_versions, users_setup_config. }
  assert (Hcfg : config st' = config (setup_config (setup_admin now st))).
  { unfold st', setupInitialConfig. by rewrite config_setup_versions. }
  assert (Hc0 : config (setup_admin now st) = config st).
  { unfold setup_admin. destruct (List.find _ _); [destruct (negb _)|]; done. }
  assert (Hv0 : versions (setup_config (setup_admin now st)) = versions st).
  { destruct (setup_config_cases (setup_admin now st)) as [(-> & _)|(c & -> & _)];
      unfold setup_admin; destruct (List.find _ _); try destruct (negb _); done. }
  assert (Hs0 : servers st' = servers st).
  { unfold st', setupInitialConfig.
    destruct (setup_versions_cases (setup_config (setup_admin now st)))
      as [[_ ->]|[_ ->]];
      destruct (setup_config_cases (setup_admin now st)) as [(-> & _)|(c & -> & _)];
      unfold setup_admin; destruct (List.find _ _); try destruct (negb _); done. }
  split; [|split; [|split; [|split; [|split; [|split]]]]].
  - destruct (setup_admin_ok now st) as (a & Ha & Hadm). exists a.
    split; [|done]. unfold Users.findOne, Users.find. rewrite Hu, <- Ha.
    apply find_ext_eq. intros u. apply matches_singleton.
  - rewrite Hcfg.
    destruct (setup_config_cases (setup_admin now st))
      as [(-> & ? & ? & ?)|(c & -> & ? & ? & ? & _)]; by simpl.
  - apply versions_setup_nonempty.
  - intros k v Hk. rewrite Hcfg. rewrite <- Hc0 in Hk.
    destruct (setup_config_cases (setup_admin now st))
      as [(-> & _)|(c & -> & _ & _ & _ & Hkeep)]; [done|]. by apply Hkeep.
  - intros Hne. unfold st', setupInitialConfig.
    rewrite setup_versions_stable; by rewrite Hv0.
  - intros i u Hi Hna. rewrite Hu. unfold setup_admin.
    destruct (List.find is_admin_id (users st)) as [admin|] eqn:Hf.
    + destruct (negb _); [|done]. simpl.
      destruct (findIndex is_admin_id (users st)) as [j|] eqn:Hj; [|done].
      destruct (decide (i = j)) as [->|Hij].
      * destruct (findIndex_spec _ _ _ Hj) as (y & Hy & Hpy & _). congruence.
      * by rewrite list_lookup_alter_ne.
    + simpl. by rewrite lookup_app_l by (by apply lookup_lt_Some in Hi).
  - exact Hs0.
Qed.

(** ** checkUserSubscription *)

Lemma getFromCache_hit {V} (c c' : cache V) (key now : Z) (v : V) :
  getFromCache c key now = (Some v, c') ->
  c' = c /\ exists e, c !! key = Some (v, e) /\ e > now.
Proof.
  unfold getFromCache. destruct (c !! key) as [[v0 e]|].
  - case_bool_decide as He; intros H; apply pair_eq_inv in H as [H1 H2].
    + apply (inj Some) in H1. subst. eauto.
    + discriminate H1.
  - intros H. apply pair_eq_inv in H as [H1 _]. discriminate H1.
Qed.

Lemma getFromCache_miss {V} (c c' : cache V) (key now : Z) :
  getFromCache c key now = (None, c') -> c' = delete key c.
Proof.
  unfold getFromCache. destruct (c !! key) as [[v0 e]|].
  - case_bool_decide as He; intros H; apply pair_eq_inv in H as [H1 H2].
    + discriminate H1.
    + done.
  - intros H. by apply pair_eq_inv in H as [_ H2].
Qed.

Lemma asked_channels (channels : list prim) :
  omap (fun e => match e with
                 | GetChatMember ch => Some ch
                 | _ => None
                 end) (GetChatMember <$> channels) = channels.
Proof. induction channels as [|ch l IH]; [done|]. simpl. f_equal. exact IH. Qed.

Lemma all_members (member : prim -> option string) (channels : list prim) :
  forallb (fun x => negb (not_member member x)) channels
  = negb (bool_decide (0 < length (List.filter (not_member member) channels))%nat).
Proof.
  induction channels as [|x xs IH]; [done|].
  cbn [forallb List.filter]. destruct (not_member member x); cbn [negb andb].
  - rewrite bool_decide_true; [done|]. cbn [length]. lia.
  - exact IH.
Qed.

Lemma checkUserSubscription_hit (silent : bool) (member : prim -> option string)
    (userId now now' : Z) (st : Store) (c : cache bool) (a : bool) (e : Z) :
  c !! userId = Some (a, e) ->
  now < e ->
  checkUserSubscription silent member userId now now' st c = Some (a, c, []).
Proof.
  intros Hc Hlt. unfold checkUserSubscription, getFromCache. rewrite Hc.
  cbv beta iota. by rewrite bool_decide_true by lia.
Qed.

(** X26.  The answer of a subscription check is the cached one for as
    long as the entry lives.  After any check, the cache holds the answer
    just given; every later check of the same user made before that entry
    expires returns the same answer without asking Telegram and without
    replying, whatever the memberships and the required channels have
    become.  An answer computed afresh lives for an hour when no channel
    is required and for five minutes otherwise, and it is positive exactly
    when the user is a member of every required channel. *)
Theorem subscription_answer_is_cached (silent : bool)
    (member : prim -> option string) (userId : Z) (now now' : Z) (st : Store)
    (c c1 : cache bool) (answer : bool) (effects : list sub_effect) :
  checkUserSubscription silent member userId now now' st c
  = Some (answer, c1, effects) ->
  exists expiry,
    c1 !! userId = Some (answer, expiry)
    /\ (forall silent2 member2 later later' st2,
          later < expiry ->
          checkUserSubscription silent2 member2 userId later later' st2 c1
          = Some (answer, c1, []))
    /\ ((getFromCache c userId now).1 = None ->
        exists channels,
          requiredChannels st = Some channels
          /\ expiry = now' + (if bool_decide (channels = []) then 3600 else 300) * 1000
          /\ answer = forallb (fun ch => negb (not_member member ch)) channels
          /\ omap (fun e => match e with
                            | GetChatMember ch => Some ch
                            | _ => None
                            end) effects = channels).
Proof.
  intros Hcall. unfold checkUserSubscription in Hcall.
  destruct (getFromCache c userId now) as [[cached|] c0] eqn:Hg.
  - apply getFromCache_hit in Hg as (-> & e & Hc & He).
    apply (inj Some) in Hcall.
    apply pair_eq_inv in Hcall as [H <-]. apply pair_eq_inv in H as [<- <-].
    exists e. split; [done|]. split; [|discriminate].
    intros s2 m2 later later' st2 Hlt. by apply (checkUserSubscription_hit _ _ _ _ _ _ _ _ e).
  - apply getFromCache_miss in Hg as ->.
    destruct (requiredChannels st) as [channels|]; [|discriminate Hcall].
    destruct channels as [|ch l].
    + cbn [length] in Hcall. rewrite bool_decide_true in Hcall by done.
      apply (inj Some) in Hcall.
      apply pair_eq_inv in Hcall as [H <-]. apply pair_eq_inv in H as [<- <-].
      eexists. split; [apply lookup_insert_eq|]. split.
      * intros s2 m2 later later' st2 Hlt.
        apply (checkUserSubscription_hit _ _ _ _ _ _ _ _ (now' + 3600 * 1000));
          [apply lookup_insert_eq|done].
      * intros _. exists []. by repeat split.
    + rewrite (bool_decide_false (length (ch :: l) = 0%nat)) in Hcall by done.
      cbv zeta in Hcall.
      pose proof (all_members member (ch :: l)) as Hun.
      destruct (bool_decide (0 < length (List.filter (not_member member) (ch :: l)))%nat);
        apply (inj Some) in Hcall;
        apply pair_eq_inv in Hcall as [H <-]; apply pair_eq_inv in H as [<- <-];
        (eexists; split; [apply lookup_insert_eq|]; split;
         [intros s2 m2 later later' st2 Hlt;
          apply (checkUserSubscription_hit _ _ _ _ _ _ _ _ (now' + 300 * 1000));
          [apply lookup_insert_eq|done]|];
         intros _; exists (ch :: l);
         split; [done|]; split; [done|]; split; [exact (eq_sym Hun)|]).
      * rewrite omap_app, asked_channels. destruct silent; simpl; by rewrite app_nil_r.
      * apply asked_channels.
Qed.

Lemma subscription_answer_is_cached_witness :
  exists c1,
    checkUserSubscription false (fun _ => Some "left") 7 1000 1200 channels_store ∅
    = Some (false, c1, [GetChatMember (PStr "@a"); ReplySubscribe [PStr "@a"]])
    /\ checkUserSubscription false (fun _ => Some "member") 7 301199 301199
         channels_store c1
       = Some (false, c1, []).
Proof.
  eexists.
  assert (Hcall : checkUserSubscription false (fun _ => Some "left") 7 1000 1200
                    channels_store ∅
                  = Some (false, setToCache (delete 7 ∅) 7 false 300 1200,
                          [GetChatMember (PStr "@a"); ReplySubscribe [PStr "@a"]]))
    by (vm_compute; reflexivity).
  destruct (subscription_answer_is_cached _ _ _ _ _ _ _ _ _ _ Hcall)
    as (expiry & Hc & Hlater & _).
  assert (He : expiry = 301200).
  { unfold setToCache in Hc. rewrite lookup_insert_eq in Hc.
    apply (inj Some) in Hc. apply pair_eq_inv in Hc as [_ <-]. reflexivity. }
  split; [exact Hcall|]. apply Hlater. lia.
Defined.

(** ** Deleting a target that belongs to somebody else *)

Lemma filter_keeps_all {A} (p : A -> bool) (l : list A) :
  (forall x, x ∈ l -> p x = true) -> List.filter p l = l.
Proof.
  induction l as [|a l IH]; [done|]. intros H. cbn [List.filter].
  rewrite (H a) by apply list_elem_of_here. f_equal.
  apply IH. intros x Hx. apply H. by apply list_elem_of_further.
Qed.

Lemma find_fmap_id (f : obj -> obj) (id : jsval) (l : list obj) :
  (forall s, f s !! "_id" = s !! "_id") ->
  List.find (fun s => strict_eq (s !! "_id") id) (f <$> l)
  = f <$> List.find (fun s => strict_eq (s !! "_id") id) l.
Proof.
  intros Hf. induction l as [|a l IH]; [done|].
  rewrite fmap_cons. cbn [List.find]. rewrite Hf.
  by destruct (strict_eq (a !! "_id") id).
Qed.

(** X27.  The delete action checks the owner only when it deletes: run
    by a user on a target that belongs to somebody else, it removes
    nothing, yet the target has been stopped on the way, its record set
    to stopped with the process id cleared and auto-restart switched off. *)
Theorem delete_do_on_foreign_target (Date_parse : string -> option Z) (c : ctx)
    (userId sId : jsval) (w : world) (server : obj) :
  keyed (store w) ->
  Servers.findById sId (store w) = Some server ->
  strict_eq (server !! "userId") userId = false ->
  let w' := delete_do Date_parse c userId sId w in
  Servers.findById sId (store w') = Some (spread server stop_fields)
  /\ ids (servers (store w')) = ids (servers (store w)).
Proof.
  intros Hk Hf Hforeign w'.
  assert (Hw' : store w'
                = reorderServers Date_parse userId
                    (Servers.deleteOne {["_id" := sId; "userId" := userId]}
                       (store (stopBot c sId w))).2) by reflexivity.
  rewrite Hw'. clear w' Hw'.
  destruct (stopBot_found c sId w server Hf) as (i & _ & _ & _ & Hf1).
  pose proof (stopBot_ids c sId w) as Hids1.
  assert (Hk1 : keyed (store (stopBot c sId w))) by (by apply (keyed_ids (store w))).
  set (w1 := stopBot c sId w) in *. clearbody w1.
  set (s1 := spread server stop_fields) in *.
  assert (Hu1 : s1 !! "userId" = server !! "userId")
    by (unfold s1; by rewrite spread_untouched).
  clearbody s1.
  assert (Hin1 : s1 ∈ servers (store w1)).
  { destruct (findById_index _ _ _ Hf1) as (j & _ & Hj & _).
    apply list_elem_of_lookup. eauto. }
  assert (Hid1 : s1 !! "_id" = sId) by (by apply (findById_id _ (store w1))).
  set (st2 := (Servers.deleteOne {["_id" := sId; "userId" := userId]} (store w1)).2).
  assert (Hs2 : servers st2 = servers (store w1)).
  { unfold st2. rewrite deleteOne_servers. apply filter_keeps_all.
    intros x Hx. destruct (matches _ x) eqn:Hm; [|done]. exfalso.
    pose proof (proj1 (matches_spec _ _) Hm) as Hq.
    assert (Hxi : strict_eq (x !! "_id") sId = true)
      by (apply Hq; by rewrite lookup_insert_eq).
    assert (Hxu : strict_eq (x !! "userId") userId = true)
      by (apply Hq; rewrite lookup_insert_ne by done; by rewrite lookup_singleton_eq).
    apply strict_eq_true in Hxi.
    assert (x = s1) as ->.
    { apply (NoDup_ids_inj (servers (store w1))); [apply Hk1|exact Hx|exact Hin1|by rewrite Hxi, Hid1]. }
    rewrite Hu1, Hforeign in Hxu. discriminate Hxu. }
  assert (Hk2 : keyed st2) by (by apply (keyed_ids (store w1)); [rewrite Hs2|]).
  rewrite (reorderServers_servers Date_parse userId st2 Hk2), Hs2.
  split.
  - unfold Servers.findById.
    rewrite (Servers_find_all (reorderServers Date_parse userId st2)).
    rewrite (reorderServers_servers Date_parse userId st2 Hk2), Hs2.
    rewrite find_fmap_id by (intros s; apply relabel_id).
    unfold Servers.findById in Hf1. rewrite (Servers_find_all (store w1)) in Hf1.
    rewrite Hf1. simpl. f_equal.
    apply (relabel_stranger _ (servers (store w1))); [apply Hk1| |done|].
    + intros x Hx. rewrite sort_perm in Hx.
      apply list_elem_of_In, List.filter_In in Hx as [Hx _].
      by apply list_elem_of_In.
    + intros Hx. rewrite sort_perm in Hx.
      apply list_elem_of_In, List.filter_In in Hx as [_ Hx].
      rewrite Hu1, Hforeign in Hx. discriminate Hx.
  - rewrite <- Hids1. apply ids_fmap_preserved. intros s. apply relabel_id.
Qed.

Lemma delete_do_on_foreign_target_witness :
  let w' := delete_do (fun _ => None) (Some 2%nat) (Some (VNum 8)) a1 running_world in
  (status_of <$> target "a1" w') = Some Idle
  /\ (workerProcessId <$> target "a1" w') = Some None
  /\ length (servers (store w')) = 1%nat.
Proof.
  intros w'.
  assert (Hk : keyed (store running_world)).
  { unfold keyed. split; apply (bool_decide_unpack _); vm_compute; exact I. }
  assert (Hf : Servers.findById a1 (store running_world) = Some running_target)
    by (vm_compute; reflexivity).
  assert (Hu : strict_eq (running_target !! "userId") (Some (VNum 8)) = false)
    by (vm_compute; reflexivity).
  destruct (delete_do_on_foreign_target (fun _ => None) (Some 2%nat) (Some (VNum 8))
              a1 running_world running_target Hk Hf Hu) as [H1 H2].
  fold w' in H1, H2. unfold target. change (Some (VStr "a1")) with a1.
  rewrite H1. split; [vm_compute; reflexivity|]. split; [vm_compute; reflexivity|].
  apply (f_equal length) in H2. unfold ids in H2. rewrite !length_fmap in H2.
  rewrite H2. vm_compute. reflexivity.
Defined.
